(** * inspectd storage layer: a shallow embedding and its properties

    The development follows the Go sources of the SDK storage layer:
    - [pkg/sdk/types]    : [Snapshot] and its nested records;
    - [pkg/sdk/storage]  : [QueryOptions], [BoundedMemoryStorage],
                           [MemoryStorage], [FileStorage.Query],
                           [ManagedFileStorage.cleanup];
    - [sdk/storage]      : [DatabaseStorage], [CloudObjectStorage].

    Layout: the embedding first, one module per backend ([BoundedMemory],
    [Memory], [File], [ManagedFile], [Database], [CloudObject]), then
    [Aliasing], the memory backend with its pointers and the heap, then
    [GoLibImpl], a runnable instance of the Go library calls, then the
    vocabulary of the statements and the sample inputs, then the rest
    of the backends' operations ([BoundedMemoryOps], [MemoryOps],
    [Client], [FileStore], [CloudObjectStore], [AliasingOps]) with the
    vocabulary of their statements, then [SQL], the reading an engine
    makes of the statements of the database backend, and last the
    properties.

    Go's [int] is a 64-bit integer; every [int] below is a length or a
    user-supplied bound and is modelled by [Z].  A [time.Time] is
    modelled by the instant it denotes, in nanoseconds since the Unix
    epoch ([Before], [After] and [Add] only depend on the instant).  A
    [float64] is carried as its IEEE-754 bit pattern, no arithmetic is
    ever done on it by the storage layer.  A run-time panic is [None].
    Locks, contexts and their deadlines are not modelled: every
    operation is one sequential step. *)

From Stdlib Require Import ZArith List Ascii Sorting.Permutation Sorting.Sorted.
From stdpp Require Import base option list strings pretty sorting gmap.

Local Open Scope Z_scope.

(** ** Go primitives *)

Definition len {A} (l : list A) : Z := Z.of_nat (length l).

(** [s[k:]]: panics unless [0 <= k <= len(s)]. *)
Definition slice_from {A} (s : list A) (k : Z) : option (list A) :=
  if bool_decide (0 ≤ k ∧ k ≤ len s) then Some (drop (Z.to_nat k) s) else None.

(** [s[:k]]: panics unless [0 <= k <= len(s)] (capacity is not modelled;
    every use below has [k <= len(s)] checked by the caller). *)
Definition slice_to {A} (s : list A) (k : Z) : option (list A) :=
  if bool_decide (0 ≤ k ∧ k ≤ len s) then Some (take (Z.to_nat k) s) else None.

Definition Time := Z.
Definition Duration := Z.

Definition Before (t u : Time) : bool := bool_decide (t < u).
Definition After (t u : Time) : bool := bool_decide (u < t).

(** The zero [time.Time] is January 1, year 1, 00:00:00 UTC. *)
Definition zeroTime : Time := -62135596800 * 1000000000.

Definition int64_wrap (z : Z) : Z := (z + 2^63) `mod` 2^64 - 2^63.

(** [t.Add(-d)] for a [Duration] (an [int64]): the negation wraps. *)
Definition Add_neg (t : Time) (d : Duration) : Time := t + int64_wrap (- d).

Definition float64 := Z.
Definition bytes := list Byte.byte.

(** ** pkg/sdk/types *)

Record RuntimeInfo := {
  GoVersion : string;
  NumGoroutines : Z;
  GOMAXPROCS : Z;
  NumCPU : Z;
  UptimeSeconds : float64
}.

Record MemoryInfo := {
  HeapInUseBytes : Z;
  HeapAllocatedBytes : Z;
  HeapObjects : Z;
  TotalAllocBytes : Z;
  GCCycles : Z;
  LastGCPauseSeconds : float64;
  GCCPUFraction : float64
}.

Record GoroutineInfo := { TotalCount : Z }.

(** The three nested records are reached through pointers.  In this
    value-level reading a pointer to a record that nobody mutates is the
    record itself ([None] is [nil]); module [Aliasing] below keeps the
    pointers and the heap and is the place where mutation is studied. *)
Record Snapshot := {
  Timestamp : string;
  Runtime : option RuntimeInfo;
  Memory : option MemoryInfo;
  Goroutines : option GoroutineInfo
}.

(** ** The Go standard library the storage layer calls

    [time.Parse], [sort.Slice] and [encoding/json] are not part of the
    repository.  They are taken as an interface; every general theorem
    holds for each implementation of it that meets [GoLibSpec]. *)
Class GoLib := {
  (** [time.Parse(time.RFC3339Nano, s)] *)
  time_Parse : string → option Time;
  (** [sort.Slice(xs, less)] *)
  sort_Slice : ∀ A : Type, (A → A → bool) → list A → list A;
  (** [json.Marshal] / [json.MarshalIndent] / [json.Unmarshal] on a snapshot *)
  json_Marshal : Snapshot → option bytes;
  json_MarshalIndent : Snapshot → option bytes;
  json_Unmarshal : bytes → option Snapshot
}.
Arguments sort_Slice {_ _} _ _.

(** The contract of a comparison handed to [sort.Slice]. *)
Record strict_weak_order {A} (less : A → A → bool) : Prop := {
  swo_irrefl : ∀ a, less a a = false;
  swo_trans : ∀ a b c, less a b = true → less b c = true → less a c = true;
  swo_incomp : ∀ a b c, less a b = false → less b c = false → less a c = false
}.

(** [xs] is in sorted order for [less]: no later element is less than an
    earlier one. *)
Definition sorted_by {A} (less : A → A → bool) (xs : list A) : Prop :=
  StronglySorted (λ a b, less b a = false) xs.

(** What [sort.Slice] guarantees: it only swaps elements, and with a
    strict weak order it leaves the slice sorted.  The order of elements
    that compare equal is not specified. *)
Class GoLibSpec `{GoLib} : Prop := {
  sort_Slice_perm : ∀ A (less : A → A → bool) xs, sort_Slice less xs ≡ₚ xs;
  sort_Slice_sorted : ∀ A (less : A → A → bool) xs,
    strict_weak_order less → sorted_by less (sort_Slice less xs)
}.

Section Types.
Context `{GoLib}.

(** [func (s *Snapshot) ParseTimestamp() (time.Time, error)] *)
Definition ParseTimestamp (s : Snapshot) : option Time := time_Parse (Timestamp s).

(** [t, _ := s.ParseTimestamp()]: on error Go returns the zero time. *)
Definition ParseTimestamp_ (s : Snapshot) : Time := default zeroTime (ParseTimestamp s).

Definition ToJSON (s : Snapshot) : option bytes := json_Marshal s.
Definition FromJSON (data : bytes) : option Snapshot := json_Unmarshal data.
End Types.

(** ** pkg/sdk/storage: the query descriptor *)

(** [type OrderBy int], with [OrderByTimeAsc = iota] and
    [OrderByTimeDesc] the next constant. *)
Definition OrderBy := Z.
Definition OrderByTimeAsc : OrderBy := 0.
Definition OrderByTimeDesc : OrderBy := 1.

Record QueryOptions := {
  StartTime : option Time;
  EndTime : option Time;
  Limit : Z;
  OrderBy_ : OrderBy
}.

(** [&QueryOptions{}]: every field at its zero value. *)
Definition zeroQueryOptions : QueryOptions :=
  {| StartTime := None; EndTime := None; Limit := 0; OrderBy_ := 0 |}.

Section QueryCommon.
Context `{GoLib}.

(** [opts.StartTime != nil && timestamp.Before( *opts.StartTime)] *)
Definition before_start (opts : QueryOptions) (timestamp : Time) : bool :=
  match StartTime opts with
  | Some start => Before timestamp start
  | None => false
  end.

(** [opts.EndTime != nil && timestamp.After( *opts.EndTime)] *)
Definition after_end (opts : QueryOptions) (timestamp : Time) : bool :=
  match EndTime opts with
  | Some e => After timestamp e
  | None => false
  end.

(** The closure given to [sort.Slice] by every backend. *)
Definition less_by (orderBy : OrderBy) (a b : Snapshot) : bool :=
  let ti := ParseTimestamp_ a in
  let tj := ParseTimestamp_ b in
  if bool_decide (orderBy = OrderByTimeAsc) then Before ti tj else Before tj ti.

(** [func sortSnapshots(snapshots []*types.Snapshot, orderBy OrderBy)] *)
Definition sortSnapshots (snapshots : list Snapshot) (orderBy : OrderBy) : list Snapshot :=
  sort_Slice (less_by orderBy) snapshots.

(** [if opts.Limit > 0 && len(results) > opts.Limit { results = results[:opts.Limit] }] *)
Definition apply_limit (opts : QueryOptions) (results : list Snapshot) : option (list Snapshot) :=
  if bool_decide (Limit opts > 0 ∧ len results > Limit opts)
  then slice_to results (Limit opts)
  else Some results.
End QueryCommon.


(** ** pkg/sdk/storage/bounded_memory.go *)

Module BoundedMemory.

(** [snapshots] holds the cells the store allocated itself; [maxSize] is
    the capacity. *)
Record BoundedMemoryStorage := {
  snapshots : list Snapshot;
  maxSize : Z
}.

Definition NewBoundedMemoryStorage (maxSize : Z) : BoundedMemoryStorage :=
  let maxSize := if bool_decide (maxSize ≤ 0) then 1000 else maxSize in
  {| snapshots := []; maxSize := maxSize |}.

(** [Store]: the returned error is always [nil]; [None] is a panic of the
    slice expression [m.snapshots[1:]]. *)
Definition Store (m : BoundedMemoryStorage) (snapshot : Snapshot) : option BoundedMemoryStorage :=
  kept ← (if bool_decide (len (snapshots m) >= maxSize m)
          then slice_from (snapshots m) 1
          else Some (snapshots m));
  let snapshotCopy := snapshot in
  Some {| snapshots := kept ++ [snapshotCopy]; maxSize := maxSize m |}.

(** The [for _, snapshot := range snapshots] loop of [StoreBatch]. *)
Fixpoint append_copies (stored batch : list Snapshot) : list Snapshot :=
  match batch with
  | [] => stored
  | snapshot :: rest =>
      let snapshotCopy := snapshot in
      append_copies (stored ++ [snapshotCopy]) rest
  end.

Definition StoreBatch (m : BoundedMemoryStorage) (batch : list Snapshot) : option BoundedMemoryStorage :=
  let totalAfter := len (snapshots m) + len batch in
  kept ← (if bool_decide (totalAfter > maxSize m)
          then
            let evictCount := totalAfter - maxSize m in
            let evictCount :=
              if bool_decide (evictCount > len (snapshots m)) then len (snapshots m) else evictCount in
            slice_from (snapshots m) evictCount
          else Some (snapshots m));
  Some {| snapshots := append_copies kept batch; maxSize := maxSize m |}.

Definition Count (m : BoundedMemoryStorage) : Z := len (snapshots m).

(** Successive [Store] calls, oldest first. *)
Fixpoint StoreAll (m : BoundedMemoryStorage) (ss : list Snapshot) : option BoundedMemoryStorage :=
  match ss with
  | [] => Some m
  | s :: rest => m' ← Store m s; StoreAll m' rest
  end.

Section WithGoLib.
Context `{GoLib}.

(** The [for _, snapshot := range m.snapshots] loop of [Query]. *)
Fixpoint query_loop (opts : QueryOptions) (stored results : list Snapshot) : list Snapshot :=
  match stored with
  | [] => results
  | snapshot :: rest =>
      match ParseTimestamp snapshot with
      | None => query_loop opts rest results
      | Some timestamp =>
          if before_start opts timestamp then query_loop opts rest results
          else if after_end opts timestamp then query_loop opts rest results
          else
            let snapshotCopy := snapshot in
            query_loop opts rest (results ++ [snapshotCopy])
      end
  end.

(** [Query]: [opts = None] is the [nil] descriptor; the returned error is
    always [nil]; [None] as a result is a panic. *)
Definition Query (m : BoundedMemoryStorage) (opts : option QueryOptions) : option (list Snapshot) :=
  let opts := match opts with None => zeroQueryOptions | Some o => o end in
  let results := query_loop opts (snapshots m) [] in
  let results := sort_Slice (less_by (OrderBy_ opts)) results in
  apply_limit opts results.

End WithGoLib.
End BoundedMemory.

(** ** pkg/sdk/storage: MemoryStorage (the unbounded sibling) *)

Module Memory.

Record MemoryStorage := { snapshots : list Snapshot }.

Definition NewMemoryStorage : MemoryStorage := {| snapshots := [] |}.

Definition Store (m : MemoryStorage) (snapshot : Snapshot) : MemoryStorage :=
  let snapshotCopy := snapshot in
  {| snapshots := snapshots m ++ [snapshotCopy] |}.

Fixpoint StoreBatch (m : MemoryStorage) (batch : list Snapshot) : MemoryStorage :=
  match batch with
  | [] => m
  | snapshot :: rest =>
      let snapshotCopy := snapshot in
      StoreBatch {| snapshots := snapshots m ++ [snapshotCopy] |} rest
  end.

Section WithGoLib.
Context `{GoLib}.

Fixpoint query_loop (opts : QueryOptions) (stored results : list Snapshot) : list Snapshot :=
  match stored with
  | [] => results
  | snapshot :: rest =>
      match ParseTimestamp snapshot with
      | None => query_loop opts rest results
      | Some timestamp =>
          if before_start opts timestamp then query_loop opts rest results
          else if after_end opts timestamp then query_loop opts rest results
          else
            let snapshotCopy := snapshot in
            query_loop opts rest (results ++ [snapshotCopy])
      end
  end.

Definition Query (m : MemoryStorage) (opts : option QueryOptions) : option (list Snapshot) :=
  let opts := match opts with None => zeroQueryOptions | Some o => o end in
  let results := query_loop opts (snapshots m) [] in
  let results := sort_Slice (less_by (OrderBy_ opts)) results in
  apply_limit opts results.

End WithGoLib.
End Memory.

(** ** The file system seen by the file backends

    A directory is the listing [os.ReadDir] returns for it, in the order
    it returns it.  [Data] is what [os.ReadFile] yields for the entry
    ([None] when the read fails).  [entry.Info()] and [os.Remove] fail
    only when the file vanished after the listing; the model is
    sequential, so there they succeed. *)

Record DirEntry := {
  Name : string;
  IsDir : bool;
  ModTime : Time;
  Data : option bytes
}.

Abbreviation FileSystem := (gmap string (list DirEntry)).

(** [filepath.Join(baseDir, entry.Name())]: the directory and the entry
    name; on the names a listing holds the join is injective. *)
Definition Path : Type := string * string.
Definition filepath_Join (baseDir name : string) : Path := (baseDir, name).

(** [filepath.Ext]: the suffix starting at the last dot of the last path
    element, empty when there is none.  Entry names hold no separator;
    the scan stops at ['/'] all the same. *)
Fixpoint ext_scan (rev_name : list ascii) (suffix : list ascii) : list ascii :=
  match rev_name with
  | [] => []
  | c :: rest =>
      if bool_decide (c = "/"%char) then []
      else if bool_decide (c = "."%char) then c :: suffix
      else ext_scan rest (c :: suffix)
  end.

Definition filepath_Ext (name : string) : string :=
  String.string_of_list_ascii (ext_scan (rev (String.list_ascii_of_string name)) []).

Definition os_ReadDir (fs : FileSystem) (dir : string) : option (list DirEntry) := fs !! dir.

(** [os.Remove(path)]; the returned error is dropped by the caller. *)
Definition os_Remove (fs : FileSystem) (path : Path) : FileSystem :=
  match fs !! path.1 with
  | Some entries => <[path.1 := filter (λ e, Name e ≠ path.2) entries]> fs
  | None => fs
  end.

(** The test that opens both directory loops:
    [entry.IsDir() || filepath.Ext(entry.Name()) != ".json"]. *)
Definition not_snapshot_file (entry : DirEntry) : bool :=
  IsDir entry || negb (bool_decide (filepath_Ext (Name entry) = ".json"%string)).

(** ** pkg/sdk/storage/file.go: FileStorage.Query *)

Module File.

Record FileStorage := { baseDir : string }.

Section WithGoLib.
Context `{GoLib}.

Fixpoint query_loop (opts : QueryOptions) (entries : list DirEntry) (results : list Snapshot)
  : list Snapshot :=
  match entries with
  | [] => results
  | entry :: rest =>
      if not_snapshot_file entry then query_loop opts rest results
      else
        match Data entry with
        | None => query_loop opts rest results
        | Some data =>
            match FromJSON data with
            | None => query_loop opts rest results
            | Some snapshot =>
                match ParseTimestamp snapshot with
                | None => query_loop opts rest results
                | Some timestamp =>
                    if before_start opts timestamp then query_loop opts rest results
                    else if after_end opts timestamp then query_loop opts rest results
                    else query_loop opts rest (results ++ [snapshot])
                end
            end
        end
  end.

(** The outer [None] is a panic; [inl] carries the error message. *)
Definition Query (f : FileStorage) (fs : FileSystem) (opts : option QueryOptions)
  : option (string + list Snapshot) :=
  let opts := match opts with None => zeroQueryOptions | Some o => o end in
  match os_ReadDir fs (baseDir f) with
  | None => Some (inl "failed to read directory"%string)
  | Some entries =>
      let results := query_loop opts entries [] in
      let results := sortSnapshots results (OrderBy_ opts) in
      inr <$> apply_limit opts results
  end.

End WithGoLib.
End File.

(** ** ManagedFileStorage.cleanup *)

Module ManagedFile.

Record ManagedFileStorage := {
  baseDir : string;
  maxFiles : Z;
  maxAge : Duration
}.

Record fileInfo := {
  path : Path;
  timestamp : Time;
  modTime : Time
}.

#[export] Instance Path_eq_dec : EqDecision Path := _.

Section WithGoLib.
Context `{GoLib}.

(** [parseFile]: [os.ReadFile] then [types.FromJSON]. *)
Definition parseFile (entry : DirEntry) : option Snapshot :=
  data ← Data entry; FromJSON data.

(** The collection loop over the directory entries. *)
Fixpoint collect (base : string) (entries : list DirEntry) (files : list fileInfo) : list fileInfo :=
  match entries with
  | [] => files
  | entry :: rest =>
      if not_snapshot_file entry then collect base rest files
      else
        let filePath := filepath_Join base (Name entry) in
        let timestamp := ModTime entry in
        let timestamp :=
          match parseFile entry with
          | Some snapshot =>
              match ParseTimestamp snapshot with
              | Some ts => ts
              | None => timestamp
              end
          | None => timestamp
          end in
        collect base rest
          (files ++ [{| path := filePath; timestamp := timestamp; modTime := ModTime entry |}])
  end.

(** The age loop: [if file.timestamp.Before(cutoff)] mark it. *)
Fixpoint mark_old (cutoff : Time) (files : list fileInfo) (toDelete : list Path) : list Path :=
  match files with
  | [] => toDelete
  | file :: rest =>
      if Before (timestamp file) cutoff
      then mark_old cutoff rest (toDelete ++ [path file])
      else mark_old cutoff rest toDelete
  end.

(** The inner loop [for _, delPath := range toDelete]. *)
Fixpoint alreadyMarked (toDelete : list Path) (p : Path) : bool :=
  match toDelete with
  | [] => false
  | delPath :: rest => if bool_decide (delPath = p) then true else alreadyMarked rest p
  end.

(** The count loop, with its [break] on [deleteCount <= 0]. *)
Fixpoint mark_excess (deleteCount : Z) (files : list fileInfo) (toDelete : list Path) : list Path :=
  match files with
  | [] => toDelete
  | file :: rest =>
      if bool_decide (deleteCount ≤ 0) then toDelete
      else if alreadyMarked toDelete (path file)
      then mark_excess deleteCount rest toDelete
      else mark_excess (deleteCount - 1) rest (toDelete ++ [path file])
  end.

(** The retention policies applied to the sorted files: the paths to
    delete, in the order they are marked. *)
Definition retention (m : ManagedFileStorage) (now : Time) (files : list fileInfo) : list Path :=
  let toDelete := [] in
  let toDelete :=
    if bool_decide (maxAge m > 0)
    then let cutoff := Add_neg now (maxAge m) in mark_old cutoff files toDelete
    else toDelete in
  if bool_decide (maxFiles m > 0)
  then
    let remaining := len files - len toDelete in
    if bool_decide (remaining > maxFiles m)
    then let deleteCount := remaining - maxFiles m in mark_excess deleteCount files toDelete
    else toDelete
  else toDelete.

(** The files of one cycle, sorted oldest first. *)
Definition sorted_files (m : ManagedFileStorage) (entries : list DirEntry) : list fileInfo :=
  let files := collect (baseDir m) entries [] in
  sort_Slice (λ fi fj, Before (timestamp fi) (timestamp fj)) files.

(** [cleanup]: [now] is the reading of [time.Now()]; the result is the
    file system after the cycle and the returned error. *)
Definition cleanup (m : ManagedFileStorage) (now : Time) (fs : FileSystem)
  : FileSystem * option string :=
  match os_ReadDir fs (baseDir m) with
  | None => (fs, Some "failed to read directory"%string)
  | Some entries =>
      let files := sorted_files m entries in
      let toDelete := retention m now files in
      (foldl os_Remove fs toDelete, None)
  end.

(** [Stats]: the number of snapshot files in the directory. *)
Definition Stats (m : ManagedFileStorage) (fs : FileSystem) : option Z :=
  entries ← os_ReadDir fs (baseDir m);
  Some (len (filter (λ e, not_snapshot_file e = false) entries)).

End WithGoLib.
End ManagedFile.

(** ** sdk/storage/database.go

    The [*sql.DB] handle is the state of the engine behind it: the rows
    it holds and the SQL texts it was handed, in order.  Which calls the
    engine refuses is not decided by the storage layer; it is read from
    [Faults].  A transaction is the list of rows inserted under it:
    [Commit] appends them to the stored rows, [Rollback] drops them. *)

Module Database.

Record DatabaseStorageConfig := {
  Driver : string;
  DSN : string;
  TableName : string;
  MaxConnections : Z
}.

Record DatabaseStorage := {
  driver : string;
  dsn : string
}.

Record Row := {
  row_timestamp : Time;
  row_data : bytes
}.

Record DB := {
  rows : list Row;
  executed : list string
}.

Record Faults := {
  open_error : bool;
  create_error : bool;
  begin_error : bool;
  prepare_error : bool;
  (** the rows already inserted under the transaction, and the new row *)
  exec_error : list Row → Row → bool;
  commit_error : bool
}.

Definition handed (sql : string) (db : DB) : DB :=
  {| rows := rows db; executed := executed db ++ [sql] |}.

(** [createTable]: the text built by the three [fmt.Sprintf] calls. *)
Definition createSQL (driver tableName : string) : string :=
  if String.eqb driver "postgres" then
    "
			CREATE TABLE IF NOT EXISTS " +:+ tableName +:+ " (
				id SERIAL PRIMARY KEY,
				timestamp TIMESTAMP NOT NULL,
				data JSONB NOT NULL,
				created_at TIMESTAMP DEFAULT CURRENT_TIMESTAMP
			);
			CREATE INDEX IF NOT EXISTS idx_" +:+ tableName +:+ "_timestamp ON " +:+ tableName +:+ "(timestamp);
		"
  else if String.eqb driver "mysql" then
    "
			CREATE TABLE IF NOT EXISTS " +:+ tableName +:+ " (
				id INT AUTO_INCREMENT PRIMARY KEY,
				timestamp DATETIME NOT NULL,
				data JSON NOT NULL,
				created_at DATETIME DEFAULT CURRENT_TIMESTAMP,
				INDEX idx_timestamp (timestamp)
			);
		"
  else
    "
			CREATE TABLE IF NOT EXISTS " +:+ tableName +:+ " (
				id INTEGER PRIMARY KEY AUTO_INCREMENT,
				timestamp TIMESTAMP NOT NULL,
				data TEXT NOT NULL,
				created_at TIMESTAMP DEFAULT CURRENT_TIMESTAMP
			);
			CREATE INDEX IF NOT EXISTS idx_" +:+ tableName +:+ "_timestamp ON " +:+ tableName +:+ "(timestamp);
		".

Definition createTable (d : DatabaseStorage) (F : Faults) (db : DB) (tableName : string)
  : DB * option string :=
  let db := handed (createSQL (driver d) tableName) db in
  if create_error F then (db, Some "exec failed"%string) else (db, None).

(** [NewDatabaseStorage]: [inl] is the returned error. *)
Definition NewDatabaseStorage (config : DatabaseStorageConfig) (F : Faults) (db : DB)
  : string + (DatabaseStorage * DB) :=
  if String.eqb (Driver config) "" then inl "database driver is required"%string
  else if String.eqb (DSN config) "" then inl "database DSN is required"%string
  else
    let tableName :=
      if String.eqb (TableName config) "" then "inspectd_snapshots"%string else TableName config in
    if open_error F then inl "failed to open database"%string
    else
      let storage := {| driver := Driver config; dsn := DSN config |} in
      match createTable storage F db tableName with
      | (_, Some _) => inl "failed to create table"%string
      | (db, None) => inr (storage, db)
      end.

(** The [switch d.driver] that picks the insert text in [Store] and in
    [StoreBatch]. *)
Definition insert_query (driver : string) : string :=
  if String.eqb driver "postgres"
  then "INSERT INTO inspectd_snapshots (timestamp, data) VALUES ($1, $2::jsonb)"
  else if String.eqb driver "mysql"
  then "INSERT INTO inspectd_snapshots (timestamp, data) VALUES (?, ?)"
  else "INSERT INTO inspectd_snapshots (timestamp, data) VALUES (?, ?)".

(** The transaction of [StoreBatch]. *)
Definition tx_Commit (F : Faults) (db : DB) (pending : list Row) : DB * option string :=
  if commit_error F then (db, Some "commit failed"%string)
  else ({| rows := rows db ++ pending; executed := executed db |}, None).

Definition tx_Rollback (db : DB) (pending : list Row) : DB := db.

Section WithGoLib.
Context `{GoLib}.

Definition Store (d : DatabaseStorage) (F : Faults) (db : DB) (snapshot : Snapshot)
  : DB * option string :=
  match ParseTimestamp snapshot with
  | None => (db, Some "invalid timestamp"%string)
  | Some timestamp =>
      match ToJSON snapshot with
      | None => (db, Some "failed to marshal snapshot"%string)
      | Some jsonData =>
          let query := insert_query (driver d) in
          let row := {| row_timestamp := timestamp; row_data := jsonData |} in
          let db := handed query db in
          if exec_error F [] row then (db, Some "failed to insert snapshot"%string)
          else ({| rows := rows db ++ [row]; executed := executed db |}, None)
      end
  end.

(** The loop of [StoreBatch]: [inl] is the early [return] on an
    execution error, [inr] the rows inserted under the transaction. *)
Fixpoint batch_loop (F : Faults) (snapshots : list Snapshot) (pending : list Row)
  : string + list Row :=
  match snapshots with
  | [] => inr pending
  | snapshot :: rest =>
      match ParseTimestamp snapshot with
      | None => batch_loop F rest pending
      | Some timestamp =>
          match ToJSON snapshot with
          | None => batch_loop F rest pending
          | Some jsonData =>
              let row := {| row_timestamp := timestamp; row_data := jsonData |} in
              if exec_error F pending row then inl "failed to insert snapshot"%string
              else batch_loop F rest (pending ++ [row])
          end
      end
  end.

Definition StoreBatch (d : DatabaseStorage) (F : Faults) (db : DB) (snapshots : list Snapshot)
  : DB * option string :=
  if begin_error F then (db, Some "failed to begin transaction"%string)
  else
    let query := insert_query (driver d) in
    let db := handed query db in
    if prepare_error F then (tx_Rollback db [], Some "failed to prepare statement"%string)
    else
      match batch_loop F snapshots [] with
      | inl err => (tx_Rollback db [], Some err)
      | inr pending => tx_Commit F db pending
      end.

(** The text and the arguments [Query] builds. *)
Definition Query_sql (d : DatabaseStorage) (opts : option QueryOptions) : string * list Time :=
  let opts := match opts with None => zeroQueryOptions | Some o => o end in
  let query := "SELECT data FROM inspectd_snapshots WHERE 1=1"%string in
  let args := [] in
  let argIndex := 1 in
  let '(query, args, argIndex) :=
    match StartTime opts with
    | Some start =>
        let query :=
          if String.eqb (driver d) "postgres"
          then query +:+ " AND timestamp >= $" +:+ pretty argIndex
          else query +:+ " AND timestamp >= ?" in
        (query, args ++ [start], argIndex + 1)
    | None => (query, args, argIndex)
    end in
  let '(query, args, argIndex) :=
    match EndTime opts with
    | Some e =>
        let query :=
          if String.eqb (driver d) "postgres"
          then query +:+ " AND timestamp <= $" +:+ pretty argIndex
          else query +:+ " AND timestamp <= ?" in
        (query, args ++ [e], argIndex + 1)
    | None => (query, args, argIndex)
    end in
  let query :=
    if bool_decide (OrderBy_ opts = OrderByTimeAsc)
    then query +:+ " ORDER BY timestamp ASC"
    else query +:+ " ORDER BY timestamp DESC" in
  let query :=
    if bool_decide (Limit opts > 0)
    then query +:+ " LIMIT " +:+ pretty (Limit opts)
    else query in
  (query, args).

(** The [for rows.Next()] loop: a row that does not scan ([None]) or does
    not decode is skipped. *)
Fixpoint scan_loop (scanned : list (option bytes)) (results : list Snapshot) : list Snapshot :=
  match scanned with
  | [] => results
  | None :: rest => scan_loop rest results
  | Some jsonData :: rest =>
      match FromJSON jsonData with
      | None => scan_loop rest results
      | Some snapshot => scan_loop rest (results ++ [snapshot])
      end
  end.

(** [Query]: [run] is the engine's [QueryContext], giving the scanned
    rows and [rows.Err()], or an error. *)
Definition Query (d : DatabaseStorage)
    (run : DB → string → list Time → option (list (option bytes) * option string))
    (db : DB) (opts : option QueryOptions) : DB * (string + list Snapshot * option string) :=
  let '(query, args) := Query_sql d opts in
  let db' := handed query db in
  match run db query args with
  | None => (db', inl "failed to query snapshots"%string)
  | Some (scanned, rows_err) => (db', inr (scan_loop scanned [], rows_err))
  end.

End WithGoLib.

(** *** Reading the target table off a statement

    The word that follows the phrase [kw] at the start of [sql] (blanks
    before the phrase skipped), up to the next blank or parenthesis. *)
Definition is_blank (c : ascii) : bool :=
  bool_decide (c = " "%char) || bool_decide (c = "009"%char) || bool_decide (c = "010"%char).

Definition is_name_char (c : ascii) : bool :=
  negb (is_blank c) && negb (bool_decide (c = "("%char)).

Fixpoint skip_blanks (s : string) : string :=
  match s with
  | String c rest => if is_blank c then skip_blanks rest else s
  | EmptyString => s
  end.

Fixpoint strip_phrase (kw s : string) : option string :=
  match kw with
  | EmptyString => Some s
  | String k kw' =>
      match s with
      | String c rest => if bool_decide (k = c) then strip_phrase kw' rest else None
      | EmptyString => None
      end
  end.

Fixpoint take_name (s : string) : string :=
  match s with
  | String c rest => if is_name_char c then String c (take_name rest) else EmptyString
  | EmptyString => EmptyString
  end.

Definition table_after (kw sql : string) : option string :=
  take_name <$> strip_phrase kw (skip_blanks sql).

End Database.

(** ** sdk/storage: CloudObjectStorage

    The injected [ObjectStorage] client is modelled by the bucket it
    serves, a finite map from keys to payloads, and by [Faults], which
    says which calls the remote side refuses. *)

Module CloudObject.

Record Faults := {
  list_error : bool;
  get_error : string → bool;
  delete_error : string → bool
}.

Definition GetObject (F : Faults) (bucket : gmap string bytes) (key : string) : option bytes :=
  if get_error F key then None else bucket !! key.

Definition ListObjects (F : Faults) (bucket : gmap string bytes) (prefix : string)
  : option (list string) :=
  if list_error F then None
  else Some (filter (λ key, String.prefix prefix key = true) (elements (dom bucket))).

(** [DeleteObject]: the bucket afterwards, and whether an error came back. *)
Definition DeleteObject (F : Faults) (bucket : gmap string bytes) (key : string)
  : gmap string bytes * bool :=
  if delete_error F key then (bucket, true) else (delete key bucket, false).

Record CloudObjectStorage := {
  prefix : string;
  maxAge : Duration
}.

Section WithGoLib.
Context `{GoLib}.

(** [shouldDeleteObject]: [None] is a non-nil error. *)
Definition shouldDeleteObject (F : Faults) (bucket : gmap string bytes) (key : string)
    (cutoff : Time) : option bool :=
  match GetObject F bucket key with
  | None => None
  | Some data =>
      match FromJSON data with
      | None => None
      | Some snapshot =>
          match ParseTimestamp snapshot with
          | None => None
          | Some timestamp => Some (Before timestamp cutoff)
          end
      end
  end.

(** The [for _, key := range keys] loop of [cleanup]. *)
Fixpoint cleanup_loop (F : Faults) (cutoff : Time) (keys : list string)
    (bucket : gmap string bytes) : gmap string bytes :=
  match keys with
  | [] => bucket
  | key :: rest =>
      match shouldDeleteObject F bucket key cutoff with
      | Some true => cleanup_loop F cutoff rest (DeleteObject F bucket key).1
      | _ => cleanup_loop F cutoff rest bucket
      end
  end.

(** [cleanup]: [now] is the reading of [time.Now()]. *)
Definition cleanup (c : CloudObjectStorage) (F : Faults) (now : Time)
    (bucket : gmap string bytes) : gmap string bytes * option string :=
  if bool_decide (maxAge c = 0) then (bucket, None)
  else
    match ListObjects F bucket (prefix c) with
    | None => (bucket, Some "failed to list objects"%string)
    | Some keys =>
        let cutoff := Add_neg now (maxAge c) in
        (cleanup_loop F cutoff keys bucket, None)
    end.

Fixpoint query_loop (F : Faults) (bucket : gmap string bytes) (opts : QueryOptions)
    (keys : list string) (results : list Snapshot) : list Snapshot :=
  match keys with
  | [] => results
  | key :: rest =>
      match GetObject F bucket key with
      | None => query_loop F bucket opts rest results
      | Some data =>
          match FromJSON data with
          | None => query_loop F bucket opts rest results
          | Some snapshot =>
              match ParseTimestamp snapshot with
              | None => query_loop F bucket opts rest results
              | Some timestamp =>
                  if before_start opts timestamp then query_loop F bucket opts rest results
                  else if after_end opts timestamp then query_loop F bucket opts rest results
                  else query_loop F bucket opts rest (results ++ [snapshot])
              end
          end
      end
  end.

Definition Query (c : CloudObjectStorage) (F : Faults) (bucket : gmap string bytes)
    (opts : option QueryOptions) : option (string + list Snapshot) :=
  let opts := match opts with None => zeroQueryOptions | Some o => o end in
  match ListObjects F bucket (prefix c) with
  | None => Some (inl "failed to list objects"%string)
  | Some keys =>
      let results := query_loop F bucket opts keys [] in
      let results := sortSnapshots results (OrderBy_ opts) in
      inr <$> apply_limit opts results
  end.

End WithGoLib.
End CloudObject.

(** ** The memory backend with its pointers

    [BoundedMemoryStorage] once more, this time with the heap: the store
    holds [*types.Snapshot] pointers, and a snapshot cell holds a string
    and three pointers to the nested records.  This is the reading in
    which a caller's writes after [Store] can be followed. *)

Module Aliasing.

Definition loc := positive.

(** [types.Snapshot] as it lies in memory. *)
Record SnapshotCell := {
  cell_Timestamp : string;
  cell_Runtime : option loc;
  cell_Memory : option loc;
  cell_Goroutines : option loc
}.

Record Heap := {
  snapshot_cells : gmap loc SnapshotCell;
  runtime_cells : gmap loc RuntimeInfo;
  memory_cells : gmap loc MemoryInfo;
  goroutine_cells : gmap loc GoroutineInfo
}.

Record BoundedMemoryStorage := {
  snapshots : list loc;
  maxSize : Z
}.

Definition NewBoundedMemoryStorage (maxSize : Z) : BoundedMemoryStorage :=
  let maxSize := if bool_decide (maxSize ≤ 0) then 1000 else maxSize in
  {| snapshots := []; maxSize := maxSize |}.

(** [snapshotCopy := *snapshot] followed by [&snapshotCopy]: a new cell
    with the fields of the old one, pointers included. *)
Definition copy_snapshot (h : Heap) (snapshot : loc) : option (loc * Heap) :=
  cell ← snapshot_cells h !! snapshot;
  let p := fresh (dom (snapshot_cells h)) in
  Some (p, {| snapshot_cells := <[p := cell]> (snapshot_cells h);
              runtime_cells := runtime_cells h;
              memory_cells := memory_cells h;
              goroutine_cells := goroutine_cells h |}).

Definition Store (h : Heap) (m : BoundedMemoryStorage) (snapshot : loc)
  : option (Heap * BoundedMemoryStorage) :=
  kept ← (if bool_decide (len (snapshots m) >= maxSize m)
          then slice_from (snapshots m) 1
          else Some (snapshots m));
  '(snapshotCopy, h) ← copy_snapshot h snapshot;
  Some (h, {| snapshots := kept ++ [snapshotCopy]; maxSize := maxSize m |}).

(** What a reader sees through a snapshot pointer: the field values,
    nested records included. *)
Definition read (h : Heap) (p : loc) : option Snapshot :=
  cell ← snapshot_cells h !! p;
  Some {| Timestamp := cell_Timestamp cell;
          Runtime := cell_Runtime cell ≫= λ r, runtime_cells h !! r;
          Memory := cell_Memory cell ≫= λ r, memory_cells h !! r;
          Goroutines := cell_Goroutines cell ≫= λ r, goroutine_cells h !! r |}.

(** Writes a caller can do through its own pointer [p]. *)

(** [p.Timestamp = ts] *)
Definition set_Timestamp (h : Heap) (p : loc) (ts : string) : option Heap :=
  cell ← snapshot_cells h !! p;
  Some {| snapshot_cells :=
            <[p := {| cell_Timestamp := ts; cell_Runtime := cell_Runtime cell;
                      cell_Memory := cell_Memory cell;
                      cell_Goroutines := cell_Goroutines cell |}]> (snapshot_cells h);
          runtime_cells := runtime_cells h;
          memory_cells := memory_cells h;
          goroutine_cells := goroutine_cells h |}.

Definition with_NumGoroutines (info : RuntimeInfo) (n : Z) : RuntimeInfo :=
  {| GoVersion := GoVersion info; NumGoroutines := n;
     GOMAXPROCS := GOMAXPROCS info; NumCPU := NumCPU info;
     UptimeSeconds := UptimeSeconds info |}.

(** [p.Runtime.NumGoroutines = n] *)
Definition set_NumGoroutines (h : Heap) (p : loc) (n : Z) : option Heap :=
  cell ← snapshot_cells h !! p;
  r ← cell_Runtime cell;
  info ← runtime_cells h !! r;
  Some {| snapshot_cells := snapshot_cells h;
          runtime_cells := <[r := with_NumGoroutines info n]> (runtime_cells h);
          memory_cells := memory_cells h;
          goroutine_cells := goroutine_cells h |}.

(** [p.Memory.HeapObjects = n] *)
Definition set_HeapObjects (h : Heap) (p : loc) (n : Z) : option Heap :=
  cell ← snapshot_cells h !! p;
  r ← cell_Memory cell;
  info ← memory_cells h !! r;
  Some {| snapshot_cells := snapshot_cells h;
          runtime_cells := runtime_cells h;
          memory_cells :=
            <[r := {| HeapInUseBytes := HeapInUseBytes info;
                      HeapAllocatedBytes := HeapAllocatedBytes info;
                      HeapObjects := n;
                      TotalAllocBytes := TotalAllocBytes info;
                      GCCycles := GCCycles info;
                      LastGCPauseSeconds := LastGCPauseSeconds info;
                      GCCPUFraction := GCCPUFraction info |}]> (memory_cells h);
          goroutine_cells := goroutine_cells h |}.

(** [p.Goroutines.TotalCount = n] *)
Definition set_TotalCount (h : Heap) (p : loc) (n : Z) : option Heap :=
  cell ← snapshot_cells h !! p;
  r ← cell_Goroutines cell;
  _ ← goroutine_cells h !! r;
  Some {| snapshot_cells := snapshot_cells h;
          runtime_cells := runtime_cells h;
          memory_cells := memory_cells h;
          goroutine_cells := <[r := {| TotalCount := n |}]> (goroutine_cells h) |}.

Section WithGoLib.
Context `{GoLib}.

(** [ParseTimestamp] through the pointer [p]; the outer [None] is a
    dangling pointer. *)
Definition ParseTimestamp_at (h : Heap) (p : loc) : option (option Time) :=
  cell ← snapshot_cells h !! p; Some (time_Parse (cell_Timestamp cell)).

Fixpoint query_loop (opts : QueryOptions) (stored : list loc) (h : Heap) (results : list loc)
  : option (Heap * list loc) :=
  match stored with
  | [] => Some (h, results)
  | snapshot :: rest =>
      parsed ← ParseTimestamp_at h snapshot;
      match parsed with
      | None => query_loop opts rest h results
      | Some timestamp =>
          if before_start opts timestamp then query_loop opts rest h results
          else if after_end opts timestamp then query_loop opts rest h results
          else
            '(snapshotCopy, h) ← copy_snapshot h snapshot;
            query_loop opts rest h (results ++ [snapshotCopy])
      end
  end.

(** The sort closure, reading the cells the result pointers lead to. *)
Definition less_at (h : Heap) (orderBy : OrderBy) (a b : loc) : bool :=
  let ti := default zeroTime (default None (ParseTimestamp_at h a)) in
  let tj := default zeroTime (default None (ParseTimestamp_at h b)) in
  if bool_decide (orderBy = OrderByTimeAsc) then Before ti tj else Before tj ti.

Definition Query (h : Heap) (m : BoundedMemoryStorage) (opts : option QueryOptions)
  : option (Heap * list loc) :=
  let opts := match opts with None => zeroQueryOptions | Some o => o end in
  '(h, results) ← query_loop opts (snapshots m) h [];
  let results := sort_Slice (less_at h (OrderBy_ opts)) results in
  results ←
    (if bool_decide (Limit opts > 0 ∧ len results > Limit opts)
     then slice_to results (Limit opts)
     else Some results);
  Some (h, results).

End WithGoLib.
End Aliasing.

(** ** A runnable standard library

    One implementation of [GoLib], to run the model on concrete inputs.
    - [sort.Slice] is Go's [insertionSortLessFunc], the algorithm the
      library picks for slices of at most 12 elements.
    - [time.Parse] reads the profile [YYYY-MM-DDTHH:MM:SS[.f{1,9}]Z] of
      RFC 3339 and rejects everything else; on that profile it yields the
      instant Go yields.
    - [encoding/json] covers snapshots whose three pointers are [nil] and
      whose timestamp needs no escaping, in the two layouts Go prints
      (compact and two-space indented); outside it reports an error. *)

Module GoLibImpl.

(** The inner loop of the insertion sort, on the sorted part in reverse
    ([data[j-1]] first): swap while [less(data[j], data[j-1])]. *)
Fixpoint sift_down {A} (less : A → A → bool) (x : A) (sorted_rev : list A) : list A :=
  match sorted_rev with
  | [] => [x]
  | y :: rest => if less x y then y :: sift_down less x rest else x :: sorted_rev
  end.

Definition insertionSort {A} (less : A → A → bool) (xs : list A) : list A :=
  rev (foldl (λ sorted_rev x, sift_down less x sorted_rev) [] xs).

Definition digit (c : ascii) : option Z :=
  let n := Z.of_N (N_of_ascii c) in
  if bool_decide (48 ≤ n ∧ n ≤ 57) then Some (n - 48) else None.

(** [n] decimal digits from the front of [s]: their value and the rest. *)
Fixpoint digits (n : nat) (acc : Z) (s : list ascii) : option (Z * list ascii) :=
  match n with
  | O => Some (acc, s)
  | S n' =>
      match s with
      | c :: rest => d ← digit c; digits n' (10 * acc + d) rest
      | [] => None
      end
  end.

Definition expect (c : ascii) (s : list ascii) : option (list ascii) :=
  match s with
  | c' :: rest => if bool_decide (c = c') then Some rest else None
  | [] => None
  end.

(** The fraction: one to nine digits, scaled to nanoseconds. *)
Fixpoint fraction (fuel : nat) (acc scale : Z) (s : list ascii) : option (Z * list ascii) :=
  match s with
  | c :: rest =>
      match digit c with
      | Some d =>
          match fuel with
          | O => None
          | S fuel' => fraction fuel' (acc + d * scale) (scale `div` 10) rest
          end
      | None => Some (acc, s)
      end
  | [] => Some (acc, s)
  end.

Definition is_leap (y : Z) : bool :=
  bool_decide (y `mod` 4 = 0 ∧ (y `mod` 100 ≠ 0 ∨ y `mod` 400 = 0)).

Definition days_in (y m : Z) : Z :=
  if bool_decide (m = 2) then (if is_leap y then 29 else 28)
  else if bool_decide (m = 4 ∨ m = 6 ∨ m = 9 ∨ m = 11) then 30 else 31.

(** Days from 1970-01-01 to the civil date, proleptic Gregorian. *)
Definition days_from_civil (y m d : Z) : Z :=
  let y := if bool_decide (m ≤ 2) then y - 1 else y in
  let era := y `div` 400 in
  let yoe := y - era * 400 in
  let mp := if bool_decide (m > 2) then m - 3 else m + 9 in
  let doy := (153 * mp + 2) `div` 5 + d - 1 in
  let doe := yoe * 365 + yoe `div` 4 - yoe `div` 100 + doy in
  era * 146097 + doe - 719468.

Definition parse_chars (s : list ascii) : option Time :=
  '(year, s) ← digits 4 0 s;
  s ← expect "-" s;
  '(month, s) ← digits 2 0 s;
  s ← expect "-" s;
  '(day, s) ← digits 2 0 s;
  s ← expect "T" s;
  '(hour, s) ← digits 2 0 s;
  s ← expect ":" s;
  '(minute, s) ← digits 2 0 s;
  s ← expect ":" s;
  '(sec, s) ← digits 2 0 s;
  '(nsec, s) ←
    match s with
    | c :: d :: rest =>
        if bool_decide (c = "."%char ∧ is_Some (digit d)) then fraction 9 0 100000000 (d :: rest)
        else Some (0, s)
    | _ => Some (0, s)
    end;
  s ← expect "Z" s;
  if bool_decide (s = [] ∧ 1 ≤ month ≤ 12 ∧ 1 ≤ day ≤ days_in year month
                  ∧ hour < 24 ∧ minute < 60 ∧ sec < 60)
  then Some ((((days_from_civil year month day * 24 + hour) * 60 + minute) * 60 + sec)
             * 1000000000 + nsec)
  else None.

Definition parseRFC3339Nano (s : string) : option Time :=
  parse_chars (String.list_ascii_of_string s).

(** The double quote, as a one-character string. *)
Definition dq : string := String (ascii_of_nat 34) EmptyString.

Definition plain_char (c : ascii) : bool :=
  let n := Z.of_N (N_of_ascii c) in
  bool_decide ((48 ≤ n ∧ n ≤ 58) ∨ (65 ≤ n ∧ n ≤ 90) ∨ (97 ≤ n ∧ n ≤ 122)
               ∨ n = 43 ∨ n = 45 ∨ n = 46 ∨ n = 32).

Definition in_fragment (s : Snapshot) : bool :=
  bool_decide (Runtime s = None ∧ Memory s = None ∧ Goroutines s = None)
  && forallb plain_char (String.list_ascii_of_string (Timestamp s)).

Definition compact_head : string := "{" +:+ dq +:+ "timestamp" +:+ dq +:+ ":" +:+ dq.
Definition compact_tail : string :=
  dq +:+ "," +:+ dq +:+ "runtime" +:+ dq +:+ ":null," +:+ dq +:+ "memory" +:+ dq +:+ ":null,"
     +:+ dq +:+ "goroutines" +:+ dq +:+ ":null}".

Definition indent_head : string := "{
  " +:+ dq +:+ "timestamp" +:+ dq +:+ ": " +:+ dq.
Definition indent_tail : string :=
  dq +:+ ",
  " +:+ dq +:+ "runtime" +:+ dq +:+ ": null,
  " +:+ dq +:+ "memory" +:+ dq +:+ ": null,
  " +:+ dq +:+ "goroutines" +:+ dq +:+ ": null
}".

Definition marshal (s : Snapshot) : option bytes :=
  if in_fragment s
  then Some (String.list_byte_of_string (compact_head +:+ Timestamp s +:+ compact_tail))
  else None.

Definition marshalIndent (s : Snapshot) : option bytes :=
  if in_fragment s
  then Some (String.list_byte_of_string (indent_head +:+ Timestamp s +:+ indent_tail))
  else None.

Fixpoint take_plain (s : string) : string * string :=
  match s with
  | String c rest =>
      if plain_char c then let '(t, r) := take_plain rest in (String c t, r) else (EmptyString, s)
  | EmptyString => (EmptyString, s)
  end.

Definition decode_with (head tail text : string) : option Snapshot :=
  rest ← Database.strip_phrase head text;
  let '(ts, rest) := take_plain rest in
  if String.eqb rest tail
  then Some {| Timestamp := ts; Runtime := None; Memory := None; Goroutines := None |}
  else None.

Definition unmarshal (data : bytes) : option Snapshot :=
  let text := String.string_of_list_byte data in
  match decode_with compact_head compact_tail text with
  | Some s => Some s
  | None => decode_with indent_head indent_tail text
  end.

#[export] Instance lib : GoLib := {|
  time_Parse := parseRFC3339Nano;
  sort_Slice := @insertionSort;
  json_Marshal := marshal;
  json_MarshalIndent := marshalIndent;
  json_Unmarshal := unmarshal
|}.

End GoLibImpl.

(** ** Vocabulary of the statements *)

(** A snapshot that carries a timestamp only. *)
Definition snap (ts : string) : Snapshot :=
  {| Timestamp := ts; Runtime := None; Memory := None; Goroutines := None |}.

Section Vocabulary.
Context `{GoLib}.

(** The snapshot passes the loop of [Query]: its timestamp parses and
    lies within the bounds the descriptor sets. *)
Definition keep (opts : QueryOptions) (s : Snapshot) : bool :=
  match ParseTimestamp s with
  | Some t => negb (before_start opts t) && negb (after_end opts t)
  | None => false
  end.

(** The timestamps of [xs] never decrease / never increase. *)
Definition ascending (xs : list Snapshot) : Prop :=
  StronglySorted (λ a b, ParseTimestamp_ a ≤ ParseTimestamp_ b) xs.
Definition descending (xs : list Snapshot) : Prop :=
  StronglySorted (λ a b, ParseTimestamp_ b ≤ ParseTimestamp_ a) xs.

(** The snapshots a directory listing yields: the regular [.json]
    entries that can be read and decoded, in listing order. *)
Definition dir_snapshots (entries : list DirEntry) : list Snapshot :=
  omap (λ e, if not_snapshot_file e then None else Data e ≫= FromJSON) entries.

(** The snapshots behind a list of keys: the objects that can be fetched
    and decoded. *)
Definition bucket_snapshots (F : CloudObject.Faults) (bucket : gmap string bytes)
    (keys : list string) : list Snapshot :=
  omap (λ key, CloudObject.GetObject F bucket key ≫= FromJSON) keys.

(** What a time-range query owes for the bounds [T1] and [T2]: every
    result lies within the bounds; without a limit every stored snapshot
    within the bounds (the bounds themselves included) is returned; and
    an empty range gives no result. *)
Definition range_result (limit : Z) (T1 T2 : Time) (stored r : list Snapshot) : Prop :=
  (∀ s, s ∈ r → ∃ t, ParseTimestamp s = Some t ∧ T1 ≤ t ∧ t ≤ T2)
  ∧ (limit ≤ 0 → ∀ s t, s ∈ stored → ParseTimestamp s = Some t → T1 ≤ t → t ≤ T2 → s ∈ r)
  ∧ (T2 < T1 → r = []).

(** What a query with no filter and no limit returns: the stored
    snapshots whose timestamp parses, oldest first. *)
Definition all_parseable (stored r : list Snapshot) : Prop :=
  r ≡ₚ filter (λ s, is_Some (ParseTimestamp s)) stored ∧ ascending r.

(** The snapshot files of a listing: what [cleanup] and [Stats] count. *)
Definition snapshot_files (entries : list DirEntry) : list DirEntry :=
  filter (λ e, not_snapshot_file e = false) entries.

(** The effective timestamp of a file: the parsed snapshot timestamp,
    the modification time when the file does not parse. *)
Definition effective_timestamp (entry : DirEntry) : Time :=
  match ManagedFile.parseFile entry with
  | Some snapshot => default (ModTime entry) (ParseTimestamp snapshot)
  | None => ModTime entry
  end.

Definition file_of (base : string) (entry : DirEntry) : ManagedFile.fileInfo :=
  {| ManagedFile.path := filepath_Join base (Name entry);
     ManagedFile.timestamp := effective_timestamp entry;
     ManagedFile.modTime := ModTime entry |}.

(** Retention in the words of the specification.  Age first: every file
    older than the cutoff is marked.  Then count: of the files that are
    not marked yet, the oldest are marked until the cap is met. *)
Definition age_marks (m : ManagedFile.ManagedFileStorage) (now : Time)
    (files : list ManagedFile.fileInfo) : list Path :=
  if bool_decide (ManagedFile.maxAge m > 0)
  then ManagedFile.path <$>
         filter (λ f, ManagedFile.timestamp f < Add_neg now (ManagedFile.maxAge m)) files
  else [].

Definition count_marks (m : ManagedFile.ManagedFileStorage)
    (files : list ManagedFile.fileInfo) (marked : list Path) : list Path :=
  if bool_decide (ManagedFile.maxFiles m > 0)
  then
    let remaining := filter (λ f, ManagedFile.path f ∉ marked) files in
    ManagedFile.path <$> take (Z.to_nat (len remaining - ManagedFile.maxFiles m)) remaining
  else [].

Definition retention_in_spec_words (m : ManagedFile.ManagedFileStorage) (now : Time)
    (files : list ManagedFile.fileInfo) : list Path :=
  let aged := age_marks m now files in
  aged ++ count_marks m files aged.

(** The row [StoreBatch] inserts for a snapshot; [None] when the
    timestamp does not parse or the snapshot does not serialise. *)
Definition row_of (s : Snapshot) : option Database.Row :=
  timestamp ← ParseTimestamp s;
  jsonData ← ToJSON s;
  Some {| Database.row_timestamp := timestamp; Database.row_data := jsonData |}.

Definition valid_rows (ss : list Snapshot) : list Database.Row := omap row_of ss.

End Vocabulary.

(** The value-level store [values] is what the pointers [locs] of the
    heap-level store lead to. *)
Definition holds (h : Aliasing.Heap) (locs : list Aliasing.loc) (values : list Snapshot) : Prop :=
  Forall2 (λ q v, Aliasing.read h q = Some v) locs values.

(** A table name made of name characters only (no blank, no opening
    parenthesis), so that it can be read back off a statement. *)
Fixpoint plain_name (name : string) : bool :=
  match name with
  | EmptyString => true
  | String c rest => Database.is_name_char c && plain_name rest
  end.

(** The table name [NewDatabaseStorage] creates: the configured one, the
    default when none is configured. *)
Definition created_table (config : Database.DatabaseStorageConfig) : string :=
  if String.eqb (Database.TableName config) "" then "inspectd_snapshots"%string
  else Database.TableName config.

(** The engine executes every insert of [new_rows], one after the other,
    under a transaction that already holds [pending]. *)
Fixpoint accepted (F : Database.Faults) (pending new_rows : list Database.Row) : bool :=
  match new_rows with
  | [] => true
  | row :: rest =>
      negb (Database.exec_error F pending row) && accepted F (pending ++ [row]) rest
  end.

(** Sample inputs. *)
Definition t1 : Snapshot := snap "2024-01-01T00:00:01Z".
Definition t2 : Snapshot := snap "2024-01-01T00:00:02Z".
Definition t3 : Snapshot := snap "2024-01-01T00:00:03Z".

(** The instants the three samples carry. *)
Definition time1 : Time := 1704067201000000000.
Definition time2 : Time := 1704067202000000000.
Definition time3 : Time := 1704067203000000000.

(** A snapshot whose timestamp does not parse. *)
Definition unparseable : Snapshot := snap "yesterday".

(** A caller's heap: one snapshot at address 1 whose [Runtime] pointer
    leads to a record at address 1 of the runtime cells. *)
Definition caller_runtime : RuntimeInfo :=
  {| GoVersion := "go1.24.5"; NumGoroutines := 8; GOMAXPROCS := 4; NumCPU := 4;
     UptimeSeconds := 0 |}.
Definition caller_cell : Aliasing.SnapshotCell :=
  {| Aliasing.cell_Timestamp := "2024-01-01T00:00:01Z";
     Aliasing.cell_Runtime := Some 1%positive;
     Aliasing.cell_Memory := None;
     Aliasing.cell_Goroutines := None |}.
Definition caller_heap : Aliasing.Heap :=
  {| Aliasing.snapshot_cells := {[ 1%positive := caller_cell ]};
     Aliasing.runtime_cells := {[ 1%positive := caller_runtime ]};
     Aliasing.memory_cells := ∅;
     Aliasing.goroutine_cells := ∅ |}.

(** A snapshot directory as [os.ReadDir] lists it (by file name): three
    snapshot files written by [FileStorage.Store], a file that is not a
    snapshot file, and a [.json] file that does not decode, whose
    effective timestamp is its modification time. *)
Definition file1 : DirEntry :=
  {| Name := "2024-01-01T00-00-01.000000000Z.json"; IsDir := false; ModTime := time3 + 10;
     Data := GoLibImpl.marshalIndent t1 |}.
Definition file2 : DirEntry :=
  {| Name := "2024-01-01T00-00-02.000000000Z.json"; IsDir := false; ModTime := time3 + 20;
     Data := GoLibImpl.marshalIndent t2 |}.
Definition file3 : DirEntry :=
  {| Name := "2024-01-01T00-00-03.000000000Z.json"; IsDir := false; ModTime := time3 + 30;
     Data := GoLibImpl.marshalIndent t3 |}.
Definition readme : DirEntry :=
  {| Name := "README"; IsDir := false; ModTime := 0; Data := Some [] |}.
Definition broken : DirEntry :=
  {| Name := "broken.json"; IsDir := false; ModTime := time2 + 500;
     Data := Some (String.list_byte_of_string "{") |}.
Definition sample_dir : list DirEntry := [file1; file2; file3; readme; broken].
Definition sample_fs : FileSystem := {[ "/var/lib/inspectd"%string := sample_dir ]}.
Definition keep_two : ManagedFile.ManagedFileStorage :=
  {| ManagedFile.baseDir := "/var/lib/inspectd"; ManagedFile.maxFiles := 2;
     ManagedFile.maxAge := 0 |}.

(** Database samples: an engine without faults, one that refuses the
    second insert of a transaction, and a storage on the default driver. *)
Definition no_faults : Database.Faults :=
  {| Database.open_error := false; Database.create_error := false;
     Database.begin_error := false; Database.prepare_error := false;
     Database.exec_error := λ _ _, false; Database.commit_error := false |}.
Definition second_insert_fails : Database.Faults :=
  {| Database.open_error := false; Database.create_error := false;
     Database.begin_error := false; Database.prepare_error := false;
     Database.exec_error := λ pending _, bool_decide (length pending = 1%nat);
     Database.commit_error := false |}.
Definition sqlite_storage : Database.DatabaseStorage :=
  {| Database.driver := "sqlite3"; Database.dsn := "file:inspectd.db" |}.
Definition empty_db : Database.DB := {| Database.rows := []; Database.executed := [] |}.
Definition metrics_config : Database.DatabaseStorageConfig :=
  {| Database.Driver := "postgres"; Database.DSN := "postgres://localhost/inspectd";
     Database.TableName := "metrics"; Database.MaxConnections := 0 |}.

(** Object-store samples: a bucket with an expired snapshot, a recent
    one, an undecodable object, an expired snapshot that cannot be
    fetched and an expired one that cannot be deleted. *)
Definition sample_bucket : gmap string bytes :=
  {[ "snapshots/a.json"%string := default [] (GoLibImpl.marshal t1);
     "snapshots/b.json"%string := default [] (GoLibImpl.marshal t3);
     "snapshots/c.json"%string := String.list_byte_of_string "{";
     "snapshots/d.json"%string := default [] (GoLibImpl.marshal t1);
     "snapshots/e.json"%string := default [] (GoLibImpl.marshal t1) ]}.
Definition flaky : CloudObject.Faults :=
  {| CloudObject.list_error := false;
     CloudObject.get_error := λ key, bool_decide (key = "snapshots/d.json"%string);
     CloudObject.delete_error := λ key, bool_decide (key = "snapshots/e.json"%string) |}.
Definition one_second : CloudObject.CloudObjectStorage :=
  {| CloudObject.prefix := "snapshots/"; CloudObject.maxAge := 1000000000 |}.

(** The range from the first sample to the second, no limit, order unset. *)
Definition first_two : QueryOptions :=
  {| StartTime := Some time1; EndTime := Some time2; Limit := 0; OrderBy_ := 0 |}.

(** ** bounded_memory.go: the rest of [BoundedMemoryStorage] and
    [MemoryStorage] *)

Module BoundedMemoryOps.

(** [Close]: [m.snapshots = nil]; the returned error is always [nil]. *)
Definition Close (m : BoundedMemory.BoundedMemoryStorage) : BoundedMemory.BoundedMemoryStorage :=
  {| BoundedMemory.snapshots := []; BoundedMemory.maxSize := BoundedMemory.maxSize m |}.

Definition MaxSize (m : BoundedMemory.BoundedMemoryStorage) : Z := BoundedMemory.maxSize m.

(** [Clear]: [m.snapshots = m.snapshots[:0]]. *)
Definition Clear (m : BoundedMemory.BoundedMemoryStorage)
  : option BoundedMemory.BoundedMemoryStorage :=
  kept ← slice_to (BoundedMemory.snapshots m) 0;
  Some {| BoundedMemory.snapshots := kept; BoundedMemory.maxSize := BoundedMemory.maxSize m |}.

(** A call a client can make on the store between two queries. *)
Inductive Call :=
  | CallStore (snapshot : Snapshot)
  | CallStoreBatch (batch : list Snapshot)
  | CallClear
  | CallClose.

Definition call (m : BoundedMemory.BoundedMemoryStorage) (c : Call)
  : option BoundedMemory.BoundedMemoryStorage :=
  match c with
  | CallStore snapshot => BoundedMemory.Store m snapshot
  | CallStoreBatch batch => BoundedMemory.StoreBatch m batch
  | CallClear => Clear m
  | CallClose => Some (Close m)
  end.

(** A sequence of calls, in order; [None] as soon as one panics. *)
Fixpoint calls (m : BoundedMemory.BoundedMemoryStorage) (cs : list Call)
  : option BoundedMemory.BoundedMemoryStorage :=
  match cs with
  | [] => Some m
  | c :: rest => m' ← call m c; calls m' rest
  end.

(** The batches of a call sequence are no larger than [bound]. *)
Definition batches_within (bound : Z) (cs : list Call) : Prop :=
  Forall (λ c, match c with CallStoreBatch batch => len batch ≤ bound | _ => True end) cs.

End BoundedMemoryOps.

Module MemoryOps.

(** [GetAll]: a copy of every stored snapshot, in insertion order. *)
Fixpoint GetAll_loop (stored : list Snapshot) : list Snapshot :=
  match stored with
  | [] => []
  | snapshot :: rest =>
      let snapshotCopy := snapshot in
      snapshotCopy :: GetAll_loop rest
  end.

Definition GetAll (m : Memory.MemoryStorage) : list Snapshot := GetAll_loop (Memory.snapshots m).

Definition Count (m : Memory.MemoryStorage) : Z := len (Memory.snapshots m).

End MemoryOps.

(** ** Package sdk: the client's convenience queries

    The client holds a [storage.Storage] and delegates to it; [Query] is
    the [Query] method of the backend it was built with. *)

Module Client.
Section WithStorage.
Context {R : Type} (Query : option QueryOptions → R).

Definition QueryByTimeRange (startTime endTime : Time) (limit : Z) : R :=
  let opts := {| StartTime := Some startTime; EndTime := Some endTime; Limit := limit;
                 OrderBy_ := OrderByTimeDesc |} in
  Query (Some opts).

Definition QueryRecent (limit : Z) : R :=
  let opts := {| StartTime := None; EndTime := None; Limit := limit;
                 OrderBy_ := OrderByTimeDesc |} in
  Query (Some opts).

End WithStorage.
End Client.
(** ** What a query returns, in general *)

Section ResultVocabulary.
Context `{GoLib}.

(** [xs] is in the order [orderBy] asks for: oldest first for
    [OrderByTimeAsc], newest first for every other value. *)
Definition in_order (orderBy : OrderBy) (xs : list Snapshot) : Prop :=
  if bool_decide (orderBy = OrderByTimeAsc) then ascending xs else descending xs.

(** How many of [n] results a limit lets through. *)
Definition limited (limit n : Z) : Z :=
  if bool_decide (limit > 0) then Z.min limit n else n.

(** [r] is the head of [matches] put in the order the descriptor asks
    for: [r] followed by some [rest] is a rearrangement of [matches] that
    is in order, and [r] is as long as the limit allows. *)
Definition first_matches (opts : QueryOptions) (matches r : list Snapshot) : Prop :=
  ∃ rest, r ++ rest ≡ₚ matches
        ∧ in_order (OrderBy_ opts) (r ++ rest)
        ∧ len r = limited (Limit opts) (len matches).

(** The stored snapshots whose timestamp parses. *)
Definition parseable (stored : list Snapshot) : list Snapshot :=
  filter (λ s, is_Some (ParseTimestamp s)) stored.

(** [r] is the [limit] newest of the parseable snapshots of [stored],
    newest first. *)
Definition newest (limit : Z) (stored r : list Snapshot) : Prop :=
  ∃ older, r ++ older ≡ₚ parseable stored
         ∧ descending (r ++ older)
         ∧ len r = limited limit (len (parseable stored)).

End ResultVocabulary.

(** The text [QueryRecent] has the database backend run. *)
Definition recent_sql (limit : Z) : string :=
  "SELECT data FROM inspectd_snapshots WHERE 1=1 ORDER BY timestamp DESC"
  +:+ (if bool_decide (limit > 0) then " LIMIT " +:+ pretty limit else "").

(** A store with three samples, newest in the middle. *)
Definition three_stored : BoundedMemory.BoundedMemoryStorage :=
  {| BoundedMemory.snapshots := [t1; t3; unparseable; t2]; BoundedMemory.maxSize := 1000 |}.
(** ** Retention, in every configuration *)

Section CleanupVocabulary.
Context `{GoLib}.

(** The snapshot files of a listing that the age policy lets live: all
    of them without an age limit, else those whose effective timestamp
    is not before the cutoff. *)
Definition unexpired (m : ManagedFile.ManagedFileStorage) (now : Time)
    (entries : list DirEntry) : list DirEntry :=
  filter (λ e, ¬ (ManagedFile.maxAge m > 0
                  ∧ effective_timestamp e < Add_neg now (ManagedFile.maxAge m)))
         (snapshot_files entries).

End CleanupVocabulary.

(** The files the age loop marks, and the number of files one cycle
    marks in all: the expired ones, then what still exceeds the cap. *)
Definition expired_files (m : ManagedFile.ManagedFileStorage) (now : Time)
    (files : list ManagedFile.fileInfo) : list ManagedFile.fileInfo :=
  if bool_decide (ManagedFile.maxAge m > 0)
  then filter (λ f, ManagedFile.timestamp f < Add_neg now (ManagedFile.maxAge m)) files
  else [].

Definition marked_count (m : ManagedFile.ManagedFileStorage) (now : Time)
    (files : list ManagedFile.fileInfo) : nat :=
  let aged := length (expired_files m now files) in
  let excess :=
    if bool_decide (ManagedFile.maxFiles m > 0)
    then Z.to_nat (len files - Z.of_nat aged - ManagedFile.maxFiles m)
    else O in
  (aged + excess)%nat.

Section Survivors.
Context `{GoLib}.

(** The entries one cycle leaves in the directory: those whose path is
    not among the paths of the marked files. *)
Definition survivors (m : ManagedFile.ManagedFileStorage) (now : Time)
    (entries : list DirEntry) : list DirEntry :=
  let files := ManagedFile.sorted_files m entries in
  filter (λ e, filepath_Join (ManagedFile.baseDir m) (Name e)
               ∉ (ManagedFile.path <$> take (marked_count m now files) files))
         entries.

End Survivors.

(** A storage that keeps at most one file, and none older than two
    seconds. *)
Definition one_recent : ManagedFile.ManagedFileStorage :=
  {| ManagedFile.baseDir := "/var/lib/inspectd"; ManagedFile.maxFiles := 1;
     ManagedFile.maxAge := 2000000000 |}.
(** ** The database backend, end to end *)

(** An engine that answers every query with the payload of every stored
    row, in insertion order, and reports no error. *)
Definition every_row (db : Database.DB) (query : string) (args : list Time)
  : option (list (option bytes) * option string) :=
  Some (Some ∘ Database.row_data <$> Database.rows db, None).

Section DatabaseVocabulary.
Context `{GoLib}.



End DatabaseVocabulary.
(** ** Writing snapshots: file names, [os.WriteFile] and [PutObject]

    [FileStorage.Store] and [CloudObjectStorage.Store] name what they
    write after the snapshot's timestamp:
    [timestamp.Format("2006-01-02T15-04-05.000000000Z")].  The layout
    prints the wall clock of [timestamp] in the location the value
    carries (date, [T], time of day with dashes, nine digits of fraction)
    and then the letter [Z], which is no zone element of a layout.  The
    value comes from [time.Parse(time.RFC3339Nano, s)], whose location
    is the zone offset written in [s]; the instant alone does not
    determine the text.  The two library calls are taken as an
    interface, as in [GoLib]. *)
Class GoTime := {
  (** the zone offset, in seconds east of UTC, of the value
      [time.Parse(time.RFC3339Nano, s)] yields *)
  time_Parse_offset : string → Z;
  (** [t.Format("2006-01-02T15-04-05.000000000Z")] for the instant [t]
      in a location at the given offset *)
  time_Format : Time → Z → string
}.

(** [os.MkdirAll(dir, 0755)] is a call into the operating system, taken
    as an interface like the calls of [GoLib]: the file system
    afterwards, or [None] for an error. *)
Class GoOS := {
  os_MkdirAll : FileSystem → string → option FileSystem
}.


(** The entry of a regular file just written. *)
Definition written (name : string) (now : Time) (data : bytes) : DirEntry :=
  {| Name := name; IsDir := false; ModTime := now; Data := Some data |}.

(** [os.ReadDir] lists a directory sorted by file name: a new entry takes
    its place before the first entry with a greater name. *)
Fixpoint insert_by_name (x : DirEntry) (entries : list DirEntry) : list DirEntry :=
  match entries with
  | [] => [x]
  | e :: rest =>
      if String.ltb (Name x) (Name e) then x :: e :: rest else e :: insert_by_name x rest
  end.

(** [os.WriteFile(path, data, 0644)]: creates the file or replaces its
    content.  [None] is an error: the system refuses the write
    ([refused], for permissions or a full disk), the directory does not
    exist, or the name is taken by a directory.  [now] is the
    modification time the system stamps on the file. *)
Definition os_WriteFile (refused : Path → bool) (now : Time) (fs : FileSystem) (path : Path)
    (data : bytes) : option FileSystem :=
  if refused path then None
  else
    match fs !! path.1 with
    | None => None
    | Some entries =>
        if existsb (λ e, String.eqb (Name e) path.2 && IsDir e) entries then None
        else
          let others := filter (λ e, Name e ≠ path.2) entries in
          Some (<[path.1 := insert_by_name (written path.2 now data) others]> fs)
    end.

(** ** pkg/sdk/storage/file.go: NewFileStorage, Store, StoreBatch *)

Module FileStore.

Section WithGoOS.
Context `{GoOS}.

(** [NewFileStorage]: [inl] is the returned error. *)
Definition NewFileStorage (baseDir : string) (fs : FileSystem)
  : string + (File.FileStorage * FileSystem) :=
  match os_MkdirAll fs baseDir with
  | None => inl "failed to create base directory"%string
  | Some fs => inr ({| File.baseDir := baseDir |}, fs)
  end.

End WithGoOS.

Section WithGoLib.
Context `{GoLib} `{GoTime}.

(** [timestamp.Format("2006-01-02T15-04-05.000000000Z") + ".json"], for
    the [timestamp] parsed from [snapshot]. *)
Definition filename_of (snapshot : Snapshot) (timestamp : Time) : string :=
  time_Format timestamp (time_Parse_offset (Timestamp snapshot)) +:+ ".json".

(** [Store]: the file system afterwards and the returned error. *)
Definition Store (f : File.FileStorage) (refused : Path → bool) (now : Time) (fs : FileSystem)
    (snapshot : Snapshot) : FileSystem * option string :=
  match ParseTimestamp snapshot with
  | None => (fs, Some "invalid timestamp"%string)
  | Some timestamp =>
      let filename := filename_of snapshot timestamp in
      let filePath := filepath_Join (File.baseDir f) filename in
      match json_MarshalIndent snapshot with
      | None => (fs, Some "failed to marshal snapshot"%string)
      | Some data =>
          match os_WriteFile refused now fs filePath data with
          | None => (fs, Some "failed to write file"%string)
          | Some fs => (fs, None)
          end
      end
  end.

(** [StoreBatch]: the loop returns at the first error. *)
Fixpoint StoreBatch (f : File.FileStorage) (refused : Path → bool) (now : Time)
    (fs : FileSystem) (snapshots : list Snapshot) : FileSystem * option string :=
  match snapshots with
  | [] => (fs, None)
  | snapshot :: rest =>
      match Store f refused now fs snapshot with
      | (fs, Some err) => (fs, Some err)
      | (fs, None) => StoreBatch f refused now fs rest
      end
  end.

End WithGoLib.
End FileStore.

(** ** sdk/storage: CloudObjectStorage.Store, StoreBatch *)

Module CloudObjectStore.

(** [PutObject]: [None] is an error; [put_error] says which uploads the
    remote side refuses. *)
Definition PutObject (put_error : string → bool) (bucket : gmap string bytes) (key : string)
    (data : bytes) : option (gmap string bytes) :=
  if put_error key then None else Some (<[key := data]> bucket).

Section WithGoLib.
Context `{GoLib} `{GoTime}.

(** [c.prefix + timestamp.Format("2006-01-02T15-04-05.000000000Z") + ".json"] *)
Definition key_of (c : CloudObject.CloudObjectStorage) (snapshot : Snapshot) (timestamp : Time)
  : string :=
  CloudObject.prefix c +:+ time_Format timestamp (time_Parse_offset (Timestamp snapshot))
                       +:+ ".json".

Definition Store (c : CloudObject.CloudObjectStorage) (put_error : string → bool)
    (bucket : gmap string bytes) (snapshot : Snapshot) : gmap string bytes * option string :=
  match ParseTimestamp snapshot with
  | None => (bucket, Some "invalid timestamp"%string)
  | Some timestamp =>
      let key := key_of c snapshot timestamp in
      match ToJSON snapshot with
      | None => (bucket, Some "failed to marshal snapshot"%string)
      | Some jsonData =>
          match PutObject put_error bucket key jsonData with
          | None => (bucket, Some "failed to upload snapshot"%string)
          | Some bucket => (bucket, None)
          end
      end
  end.

(** [StoreBatch]: the loop returns at the first error. *)
Fixpoint StoreBatch (c : CloudObject.CloudObjectStorage) (put_error : string → bool)
    (bucket : gmap string bytes) (snapshots : list Snapshot)
  : gmap string bytes * option string :=
  match snapshots with
  | [] => (bucket, None)
  | snapshot :: rest =>
      match Store c put_error bucket snapshot with
      | (bucket, Some err) => (bucket, Some err)
      | (bucket, None) => StoreBatch c put_error bucket rest
      end
  end.

End WithGoLib.
End CloudObjectStore.

(** ** A runnable [GoTime]

    For the timestamps [GoLibImpl] parses, which all end in [Z]: the
    location is UTC, and the text is the civil date and time of the
    instant. *)

Module GoTimeImpl.

(** The civil date of a day count from 1970-01-01, proleptic Gregorian
    (the inverse of [GoLibImpl.days_from_civil]). *)
Definition civil_from_days (z : Z) : Z * Z * Z :=
  let z := z + 719468 in
  let era := z `div` 146097 in
  let doe := z - era * 146097 in
  let yoe := (doe - doe `div` 1460 + doe `div` 36524 - doe `div` 146096) `div` 365 in
  let y := yoe + era * 400 in
  let doy := doe - (365 * yoe + yoe `div` 4 - yoe `div` 100) in
  let mp := (5 * doy + 2) `div` 153 in
  let d := doy - (153 * mp + 2) `div` 5 + 1 in
  let m := if bool_decide (mp < 10) then mp + 3 else mp - 9 in
  (if bool_decide (m ≤ 2) then y + 1 else y, m, d).

(** [z] in [n] decimal digits, zero-padded. *)
Fixpoint pad (n : nat) (z : Z) : string :=
  match n with
  | O => EmptyString
  | S n' => pad n' (z `div` 10) +:+ String (ascii_of_nat (48 + Z.to_nat (z `mod` 10))) EmptyString
  end.

Definition format (t : Time) (offset : Z) : string :=
  let wall := t + offset * 1000000000 in
  let secs := wall `div` 1000000000 in
  let nsec := wall `mod` 1000000000 in
  let days := secs `div` 86400 in
  let rem := secs `mod` 86400 in
  let '(y, m, d) := civil_from_days days in
  pad 4 y +:+ "-" +:+ pad 2 m +:+ "-" +:+ pad 2 d +:+ "T"
    +:+ pad 2 (rem `div` 3600) +:+ "-" +:+ pad 2 ((rem `mod` 3600) `div` 60)
    +:+ "-" +:+ pad 2 (rem `mod` 60) +:+ "." +:+ pad 9 nsec +:+ "Z".

#[export] Instance lib : GoTime := {|
  time_Parse_offset := λ _, 0;
  time_Format := format
|}.

End GoTimeImpl.

(** ** A runnable [GoOS]

    For clean absolute paths ([/a/b]: no trailing separator, no [.] or
    [..] element): a missing directory is made after its parent, as an
    empty listing of its own and an entry in the listing of the parent.
    A path of another form, a path with no directory at its root and a
    path through a name that is taken are errors. *)
Module GoOSImpl.

(** The text before the last separator of a path read backwards, and the
    text after it. *)
Fixpoint split_scan (rev_path : list ascii) (base : list ascii)
  : option (list ascii * list ascii) :=
  match rev_path with
  | [] => None
  | c :: rest =>
      if bool_decide (c = "/"%char) then Some (rev rest, base)
      else split_scan rest (c :: base)
  end.

(** The parent and the last element of [/a/b]; the parent of [/a] is the
    root. *)
Definition split (path : string) : option (string * string) :=
  '(parent, base) ← split_scan (rev (String.list_ascii_of_string path)) [];
  match base with
  | [] => None
  | _ =>
      Some (match parent with
            | [] => "/"%string
            | _ => String.string_of_list_ascii parent
            end,
            String.string_of_list_ascii base)
  end.

Definition made (name : string) (now : Time) : DirEntry :=
  {| Name := name; IsDir := true; ModTime := now; Data := None |}.

(** [depth] bounds the number of ancestors looked at. *)
Fixpoint mkdir_all (depth : nat) (now : Time) (fs : FileSystem) (path : string)
  : option FileSystem :=
  match fs !! path with
  | Some _ => Some fs
  | None =>
      match depth with
      | O => None
      | S depth =>
          '(parent, base) ← split path;
          fs ← mkdir_all depth now fs parent;
          entries ← fs !! parent;
          if existsb (λ e, String.eqb (Name e) base) entries then None
          else Some (<[path := []]>
                       (<[parent := insert_by_name (made base now) entries]> fs))
      end
  end.

(** [now] is the modification time the system stamps on what it makes. *)
Definition lib (now : Time) : GoOS := {|
  os_MkdirAll := λ fs path, mkdir_all (String.length path) now fs path
|}.

End GoOSImpl.

(** Samples for the writing side: a system that refuses no write, a
    remote side that refuses no call, a storage on the sample directory,
    and a second spelling of the first sample's instant. *)
Definition no_refusal : Path → bool := λ _, false.
Definition sample_storage : File.FileStorage := {| File.baseDir := "/var/lib/inspectd" |}.
Definition reliable : CloudObject.Faults :=
  {| CloudObject.list_error := false;
     CloudObject.get_error := λ _, false;
     CloudObject.delete_error := λ _, false |}.
Definition t1_millis : Snapshot := snap "2024-01-01T00:00:01.000Z".
Definition t4 : Snapshot := snap "2024-01-01T00:00:04Z".
Definition time4 : Time := 1704067204000000000.
(** ** Successive [Store] calls through pointers *)

Module AliasingOps.

(** [Store] on each of the caller's pointers in turn. *)
Fixpoint StoreAll (h : Aliasing.Heap) (m : Aliasing.BoundedMemoryStorage)
    (ps : list Aliasing.loc) : option (Aliasing.Heap * Aliasing.BoundedMemoryStorage) :=
  match ps with
  | [] => Some (h, m)
  | p :: rest => '(h, m) ← Aliasing.Store h m p; StoreAll h m rest
  end.

End AliasingOps.

(** The caller's heap with a second snapshot, at address 2, that shares
    the runtime record of the first. *)
Definition second_cell : Aliasing.SnapshotCell :=
  {| Aliasing.cell_Timestamp := "2024-01-01T00:00:02Z";
     Aliasing.cell_Runtime := Some 1%positive;
     Aliasing.cell_Memory := None;
     Aliasing.cell_Goroutines := None |}.
Definition two_cells : Aliasing.Heap :=
  {| Aliasing.snapshot_cells := {[ 1%positive := caller_cell; 2%positive := second_cell ]};
     Aliasing.runtime_cells := {[ 1%positive := caller_runtime ]};
     Aliasing.memory_cells := ∅;
     Aliasing.goroutine_cells := ∅ |}.

(** ** The engine's side of [DatabaseStorage.Query]

    [Query] filters nothing itself: it writes the bounds into the
    statement and decodes whatever rows the engine answers with.  What
    it returns is therefore the engine's evaluation of that statement.
    [SQL.run] is such an evaluation for the statements [Query] can
    build, over [Database.rows], the content of the table
    [inspectd_snapshots]:
    the [timestamp] column holds the instant [Store] passed and is
    compared exactly (an engine whose column keeps fewer digits than the
    instant has is not this one); [ORDER BY] sorts on it and [LIMIT]
    cuts the sorted rows.  Any other text is an error of the engine. *)

Module SQL.

(** A statement as the engine reads it. *)
Record Select := {
  lower : option Time;
  upper : option Time;
  descending : bool;
  limit : option Z
}.

Definition digit (c : ascii) : option Z :=
  let n := Z.of_N (N_of_ascii c) in
  if bool_decide (48 ≤ n ∧ n ≤ 57) then Some (n - 48) else None.

(** The decimal number at the head of [s], continuing [acc], and the
    text after it. *)
Fixpoint digits (s : string) (acc : Z) : Z * string :=
  match s with
  | String c rest =>
      match digit c with
      | Some d => digits rest (10 * acc + d)
      | None => (acc, s)
      end
  | EmptyString => (acc, s)
  end.

Definition number (s : string) : option (Z * string) :=
  match s with
  | String c _ => if digit c is Some _ then Some (digits s 0) else None
  | EmptyString => None
  end.

(** A placeholder and the argument bound to it: [?] stands for the next
    argument in order, [$n] for the [n]-th.  [used] counts the
    placeholders read so far. *)
Definition placeholder (args : list Time) (used : nat) (s : string)
  : option (Time * string) :=
  match s with
  | String "?" rest => arg ← args !! used; Some (arg, rest)
  | String "$" rest =>
      '(n, rest) ← number rest;
      if bool_decide (1 ≤ n) then arg ← args !! Z.to_nat (n - 1); Some (arg, rest) else None
  | _ => None
  end.

(** An optional comparison of the [timestamp] column with a
    placeholder. *)
Definition comparison (phrase : string) (args : list Time) (used : nat) (s : string)
  : option (option Time * nat * string) :=
  match Database.strip_phrase phrase s with
  | Some rest => '(arg, rest) ← placeholder args used rest; Some (Some arg, S used, rest)
  | None => Some (None, used, s)
  end.

Definition ordering (s : string) : option (bool * string) :=
  match Database.strip_phrase " ORDER BY timestamp ASC" s with
  | Some rest => Some (false, rest)
  | None => rest ← Database.strip_phrase " ORDER BY timestamp DESC" s; Some (true, rest)
  end.

(** The end of the statement: nothing, or a [LIMIT] with its count. *)
Definition limit_clause (s : string) : option (option Z) :=
  match s with
  | EmptyString => Some None
  | _ =>
      rest ← Database.strip_phrase " LIMIT " s;
      '(n, rest) ← number rest;
      match rest with EmptyString => Some (Some n) | _ => None end
  end.

(** The statement up to its ordering, and the text left. *)
Definition parse_head (query : string) (args : list Time) : option (Select * string) :=
  rest ← Database.strip_phrase "SELECT data FROM inspectd_snapshots WHERE 1=1" query;
  '(lo, used, rest) ← comparison " AND timestamp >= " args 0 rest;
  '(hi, used, rest) ← comparison " AND timestamp <= " args used rest;
  '(desc, rest) ← ordering rest;
  if bool_decide (length args = used)
  then Some ({| lower := lo; upper := hi; descending := desc; limit := None |}, rest)
  else None.

Definition parse (query : string) (args : list Time) : option Select :=
  '(q, rest) ← parse_head query args;
  n ← limit_clause rest;
  Some {| lower := lower q; upper := upper q; descending := descending q; limit := n |}.

(** The comparisons of the statement, on the instant of a row. *)
Definition within (q : Select) (t : Time) : bool :=
  match lower q with Some lo => bool_decide (lo ≤ t) | None => true end
  && match upper q with Some hi => bool_decide (t ≤ hi) | None => true end.

Definition older (a b : Database.Row) : Prop :=
  Database.row_timestamp a ≤ Database.row_timestamp b.
Definition newer (a b : Database.Row) : Prop :=
  Database.row_timestamp b ≤ Database.row_timestamp a.

#[global] Instance older_dec : RelDecision older :=
  λ a b, decide (Database.row_timestamp a ≤ Database.row_timestamp b).
#[global] Instance newer_dec : RelDecision newer :=
  λ a b, decide (Database.row_timestamp b ≤ Database.row_timestamp a).

Definition eval (q : Select) (rows : list Database.Row) : list Database.Row :=
  let hits := filter (λ row, within q (Database.row_timestamp row)) rows in
  let sorted := if descending q then merge_sort newer hits else merge_sort older hits in
  match limit q with
  | Some n => take (Z.to_nat n) sorted
  | None => sorted
  end.

(** The engine's [QueryContext]: the [data] column of the selected rows;
    every row scans and [rows.Err()] is [nil]. *)
Definition run (db : Database.DB) (query : string) (args : list Time)
  : option (list (option bytes) * option string) :=
  q ← parse query args;
  Some (Some ∘ Database.row_data <$> eval q (Database.rows db), None).


End SQL.



(** The database the samples are stored in: one batch on an empty
    table. *)
Definition stored_db : Database.DB :=
  (@Database.StoreBatch GoLibImpl.lib sqlite_storage no_faults empty_db
     [t3; unparseable; t2; t1]).1.

(** ** Table names as the engine compares them

    A regular identifier is made of letters, digits and underscores; an
    engine compares two of them without regard to letter case at most
    (others compare them as written). *)
Definition is_identifier_char (c : ascii) : bool :=
  let n := Z.of_N (N_of_ascii c) in
  bool_decide (48 ≤ n ∧ n ≤ 57) || bool_decide (65 ≤ n ∧ n ≤ 90)
  || bool_decide (97 ≤ n ∧ n ≤ 122) || bool_decide (n = 95).

Fixpoint all_identifier_chars (name : string) : bool :=
  match name with
  | EmptyString => true
  | String c rest => is_identifier_char c && all_identifier_chars rest
  end.

Definition regular_name (name : string) : bool :=
  negb (String.eqb name "") && all_identifier_chars name.

Definition fold_letter (c : ascii) : ascii :=
  let n := N_of_ascii c in
  if bool_decide (65 ≤ Z.of_N n ∧ Z.of_N n ≤ 90) then ascii_of_N (n + 32) else c.

Fixpoint fold_case (name : string) : string :=
  match name with
  | EmptyString => EmptyString
  | String c rest => String (fold_letter c) (fold_case rest)
  end.

(** Two statements name different tables: each names one, and the two
    names differ even when letter case is disregarded. *)
Definition different_tables (a b : option string) : Prop :=
  ∃ x y, a = Some x ∧ b = Some y ∧ fold_case x ≠ fold_case y.

(** A configuration whose table name is the default followed by a
    blank. *)
Definition trailing_blank_config : Database.DatabaseStorageConfig :=
  {| Database.Driver := "mysql"; Database.DSN := "inspectd@/inspectd";
     Database.TableName := "inspectd_snapshots "; Database.MaxConnections := 0 |}.

(** * Properties *)

(** ** Lengths and slices *)

Lemma len_app {A} (xs ys : list A) : len (xs ++ ys) = len xs + len ys.
Proof. unfold len. rewrite length_app. lia. Qed.

Lemma len_nonneg {A} (xs : list A) : 0 ≤ len xs.
Proof. unfold len. lia. Qed.

Lemma slice_from_in_range {A} (s : list A) (k : Z) :
  0 ≤ k ≤ len s → slice_from s k = Some (drop (Z.to_nat k) s).
Proof. intros Hk. unfold slice_from. rewrite bool_decide_eq_true_2; [done | lia]. Qed.

Lemma slice_to_in_range {A} (s : list A) (k : Z) :
  0 ≤ k ≤ len s → slice_to s k = Some (take (Z.to_nat k) s).
Proof. intros Hk. unfold slice_to. rewrite bool_decide_eq_true_2; [done | lia]. Qed.

Lemma len_drop {A} (s : list A) (k : Z) :
  0 ≤ k ≤ len s → len (drop (Z.to_nat k) s) = len s - k.
Proof. unfold len. intros Hk. rewrite length_drop. lia. Qed.

Lemma string_app_assoc (a b c : string) : (a +:+ b) +:+ c = a +:+ b +:+ c.
Proof.
  induction a as [|ch a IH]; [done|].
  change (String ch ((a +:+ b) +:+ c) = String ch (a +:+ b +:+ c)). by rewrite IH.
Qed.

Lemma string_app_nil_r (a : string) : a +:+ "" = a.
Proof.
  induction a as [|ch a IH]; [done|].
  change (String ch (a +:+ "") = String ch a). by rewrite IH.
Qed.

Lemma drop_len {A} (s : list A) : drop (Z.to_nat (len s)) s = [].
Proof. unfold len. by rewrite Nat2Z.id, drop_all. Qed.

(** ** BoundedMemoryStorage: eviction *)

Lemma append_copies_app (stored batch : list Snapshot) :
  BoundedMemory.append_copies stored batch = stored ++ batch.
Proof.
  revert stored. induction batch as [|s batch IH]; intros stored; simpl.
  - by rewrite app_nil_r.
  - rewrite IH. by rewrite <- app_assoc.
Qed.

(** [StoreBatch] never panics, and its effect in closed form: the number
    of evicted entries is the overflow, capped by what the store holds. *)
Lemma StoreBatch_closed_form (m : BoundedMemory.BoundedMemoryStorage) (batch : list Snapshot) :
  BoundedMemory.StoreBatch m batch =
    Some {| BoundedMemory.snapshots :=
              drop (Z.to_nat (Z.min (len (BoundedMemory.snapshots m))
                                    (len (BoundedMemory.snapshots m) + len batch
                                     - BoundedMemory.maxSize m)))
                   (BoundedMemory.snapshots m) ++ batch;
            BoundedMemory.maxSize := BoundedMemory.maxSize m |}.
Proof.
  unfold BoundedMemory.StoreBatch.
  pose proof (len_nonneg (BoundedMemory.snapshots m)) as HM.
  pose proof (len_nonneg batch) as HK.
  remember (len (BoundedMemory.snapshots m)) as M eqn:EM.
  remember (len batch) as K eqn:EK.
  remember (BoundedMemory.maxSize m) as N eqn:EN.
  destruct (bool_decide (M + K > N)) eqn:Hover; simpl.
  - apply bool_decide_eq_true_1 in Hover.
    destruct (bool_decide (M + K - N > M)) eqn:Hclamp.
    + apply bool_decide_eq_true_1 in Hclamp.
      rewrite slice_from_in_range by (split; lia). simpl.
      rewrite append_copies_app.
      by replace (Z.min M (M + K - N)) with M by lia.
    + apply bool_decide_eq_false_1 in Hclamp.
      rewrite slice_from_in_range by (split; lia). simpl.
      rewrite append_copies_app.
      by replace (Z.min M (M + K - N)) with (M + K - N) by lia.
  - apply bool_decide_eq_false_1 in Hover.
    rewrite append_copies_app.
    replace (Z.to_nat (Z.min M (M + K - N))) with O by lia.
    by rewrite drop_0.
Qed.

(** A batch that fits the capacity: the overflow [M+K-N] is evicted from
    the front, the batch is appended in order, and exactly [N] snapshots
    remain, the last [N] of everything inserted. *)
Lemma StoreBatch_evicts_overflow (m : BoundedMemory.BoundedMemoryStorage) (batch : list Snapshot) :
  let M := len (BoundedMemory.snapshots m) in
  let K := len batch in
  let N := BoundedMemory.maxSize m in
  M + K > N → K ≤ N →
  ∃ m', BoundedMemory.StoreBatch m batch = Some m'
    ∧ BoundedMemory.snapshots m'
        = drop (Z.to_nat (M + K - N)) (BoundedMemory.snapshots m) ++ batch
    ∧ BoundedMemory.snapshots m'
        = drop (Z.to_nat (M + K - N)) (BoundedMemory.snapshots m ++ batch)
    ∧ BoundedMemory.Count m' = N.
Proof.
  intros M K N Hover Hfit. eexists. split; [apply StoreBatch_closed_form|].
  simpl.
  pose proof (len_nonneg (BoundedMemory.snapshots m)) as HM.
  assert (EM : M = len (BoundedMemory.snapshots m)) by done.
  assert (EK : K = len batch) by done.
  assert (EN : N = BoundedMemory.maxSize m) by done.
  clearbody M K N. rewrite <- EM, <- EK, <- EN in *.
  replace (Z.min M (M + K - N)) with (M + K - N) by lia.
  split; [done|]. split.
  - rewrite drop_app_le; [done|]. unfold len in EM. lia.
  - unfold BoundedMemory.Count. simpl. rewrite len_app, len_drop by (split; lia). lia.
Qed.

(** C1. [StoreBatch] with a batch larger than the capacity: the code caps
    the eviction at what the store holds and then appends the whole
    batch, so the store ends up holding the [K > N] snapshots of the
    batch, more than its capacity, instead of the last [N] inserted. *)
Theorem StoreBatch_oversized_batch (m : BoundedMemory.BoundedMemoryStorage) (batch : list Snapshot) :
  len batch > BoundedMemory.maxSize m →
  ∃ m', BoundedMemory.StoreBatch m batch = Some m'
    ∧ BoundedMemory.snapshots m' = batch
    ∧ BoundedMemory.maxSize m' = BoundedMemory.maxSize m
    ∧ BoundedMemory.Count m' > BoundedMemory.maxSize m'.
Proof.
  intros Hbig. eexists. split; [apply StoreBatch_closed_form|]. simpl.
  pose proof (len_nonneg (BoundedMemory.snapshots m)) as HM.
  rewrite Z.min_l by lia. rewrite drop_len. simpl.
  split; [done|]. split; [done|]. exact Hbig.
Qed.

Lemma StoreBatch_oversized_batch_witness :
  ∃ m', BoundedMemory.StoreBatch (BoundedMemory.NewBoundedMemoryStorage 2)
          [t1; t2; t3]
        = Some m'
    ∧ BoundedMemory.snapshots m'
        = [t1; t2; t3]
    ∧ BoundedMemory.maxSize m' = 2
    ∧ BoundedMemory.Count m' > BoundedMemory.maxSize m'.
Proof.
  apply (StoreBatch_oversized_batch (BoundedMemory.NewBoundedMemoryStorage 2)
           [t1; t2; t3]).
  vm_compute. reflexivity.
Defined.

(** ** The common tail of every [Query]: sort, then limit *)

Section QueryFacts.
Context `{GoLib} `{!GoLibSpec}.

Lemma apply_limit_total (opts : QueryOptions) (results : list Snapshot) :
  apply_limit opts results =
    Some (if bool_decide (Limit opts > 0 ∧ len results > Limit opts)
          then take (Z.to_nat (Limit opts)) results else results).
Proof.
  unfold apply_limit. case_bool_decide as Hl; [|done].
  apply slice_to_in_range. lia.
Qed.

Lemma apply_limit_unbounded (opts : QueryOptions) (results : list Snapshot) :
  Limit opts ≤ 0 → apply_limit opts results = Some results.
Proof.
  intros Hl. rewrite apply_limit_total. rewrite bool_decide_eq_false_2; [done|lia].
Qed.

Lemma apply_limit_subseteq (opts : QueryOptions) (results r : list Snapshot) :
  apply_limit opts results = Some r → r ⊆ results.
Proof.
  rewrite apply_limit_total. intros [= <-]. case_bool_decide; [|done].
  apply subseteq_take.
Qed.

Lemma apply_limit_bound (opts : QueryOptions) (results r : list Snapshot) :
  apply_limit opts results = Some r → Limit opts > 0 → len r ≤ Limit opts.
Proof.
  rewrite apply_limit_total. intros [= <-] Hpos. case_bool_decide as Hl.
  - unfold len. rewrite length_take. lia.
  - lia.
Qed.

Lemma less_by_swo (orderBy : OrderBy) : strict_weak_order (less_by orderBy).
Proof.
  unfold less_by, Before. split; intros; repeat case_bool_decide; try done; lia.
Qed.

Lemma before_start_spec (opts : QueryOptions) (t : Time) :
  before_start opts t = false ↔ ∀ T1, StartTime opts = Some T1 → T1 ≤ t.
Proof.
  unfold before_start, Before. destruct (StartTime opts) as [T1|].
  - rewrite bool_decide_eq_false. split.
    + intros Hle ? [= <-]. lia.
    + intros Hle. specialize (Hle _ eq_refl). lia.
  - split; [by intros _ ? [=]|done].
Qed.

Lemma after_end_spec (opts : QueryOptions) (t : Time) :
  after_end opts t = false ↔ ∀ T2, EndTime opts = Some T2 → t ≤ T2.
Proof.
  unfold after_end, After. destruct (EndTime opts) as [T2|].
  - rewrite bool_decide_eq_false. split.
    + intros Hle ? [= <-]. lia.
    + intros Hle. specialize (Hle _ eq_refl). lia.
  - split; [by intros _ ? [=]|done].
Qed.

Lemma keep_spec (opts : QueryOptions) (s : Snapshot) :
  keep opts s = true ↔
    ∃ t, ParseTimestamp s = Some t
       ∧ (∀ T1, StartTime opts = Some T1 → T1 ≤ t)
       ∧ (∀ T2, EndTime opts = Some T2 → t ≤ T2).
Proof.
  unfold keep. destruct (ParseTimestamp s) as [t|].
  - rewrite andb_true_iff, !negb_true_iff, before_start_spec, after_end_spec.
    split.
    + intros [? ?]. by exists t.
    + intros (? & [= <-] & ? & ?). done.
  - split; [done|]. by intros (? & [=] & _).
Qed.

(** The memory loops are a filter. *)
Lemma BoundedMemory_query_loop_step (opts : QueryOptions) (s : Snapshot) (stored results : list Snapshot) :
  BoundedMemory.query_loop opts (s :: stored) results
  = BoundedMemory.query_loop opts stored (if keep opts s then results ++ [s] else results).
Proof.
  simpl. unfold keep. destruct (ParseTimestamp s) as [t|]; [|done].
  destruct (before_start opts t); [done|]. by destruct (after_end opts t).
Qed.

Lemma BoundedMemory_query_loop_filter (opts : QueryOptions) (stored results : list Snapshot) :
  BoundedMemory.query_loop opts stored results = results ++ filter (keep opts) stored.
Proof.
  revert results. induction stored as [|s stored IH]; intros results.
  - simpl. by rewrite app_nil_r.
  - rewrite BoundedMemory_query_loop_step, IH, filter_cons.
    destruct (keep opts s); simpl; [|done]. by rewrite <- app_assoc.
Qed.

Lemma Memory_query_loop_step (opts : QueryOptions) (s : Snapshot) (stored results : list Snapshot) :
  Memory.query_loop opts (s :: stored) results
  = Memory.query_loop opts stored (if keep opts s then results ++ [s] else results).
Proof.
  simpl. unfold keep. destruct (ParseTimestamp s) as [t|]; [|done].
  destruct (before_start opts t); [done|]. by destruct (after_end opts t).
Qed.

Lemma Memory_query_loop_filter (opts : QueryOptions) (stored results : list Snapshot) :
  Memory.query_loop opts stored results = results ++ filter (keep opts) stored.
Proof.
  revert results. induction stored as [|s stored IH]; intros results.
  - simpl. by rewrite app_nil_r.
  - rewrite Memory_query_loop_step, IH, filter_cons.
    destruct (keep opts s); simpl; [|done]. by rewrite <- app_assoc.
Qed.

End QueryFacts.

(** ** The runnable library meets the contract *)

Section InsertionSort.
Context {A : Type} (less : A → A → bool).

Lemma sift_down_perm (x : A) (sorted_rev : list A) :
  GoLibImpl.sift_down less x sorted_rev ≡ₚ x :: sorted_rev.
Proof.
  induction sorted_rev as [|y rest IH]; simpl; [done|].
  destruct (less x y); [|done]. rewrite IH. apply Permutation_swap.
Qed.

Lemma insertion_fold_perm (xs acc : list A) :
  foldl (λ sorted_rev x, GoLibImpl.sift_down less x sorted_rev) acc xs ≡ₚ xs ++ acc.
Proof.
  revert acc. induction xs as [|x xs IH]; intros acc; simpl; [done|].
  rewrite IH, sift_down_perm. by rewrite Permutation_middle.
Qed.

Lemma insertionSort_perm (xs : list A) : GoLibImpl.insertionSort less xs ≡ₚ xs.
Proof.
  unfold GoLibImpl.insertionSort. rewrite <- Permutation_rev, insertion_fold_perm.
  by rewrite app_nil_r.
Qed.

Hypothesis Hswo : strict_weak_order less.

Lemma less_asym (a b : A) : less a b = true → less b a = false.
Proof.
  intros Hab. destruct (less b a) eqn:Hba; [|done].
  pose proof (swo_trans less Hswo a b a Hab Hba) as Haa.
  by rewrite (swo_irrefl less Hswo) in Haa.
Qed.

(** The sorted part, read backwards, has its largest element first. *)
Lemma sift_down_sorted (x : A) (sorted_rev : list A) :
  StronglySorted (λ a b, less a b = false) sorted_rev →
  StronglySorted (λ a b, less a b = false) (GoLibImpl.sift_down less x sorted_rev).
Proof.
  induction sorted_rev as [|y rest IH]; simpl; intros Hs.
  - repeat constructor.
  - apply StronglySorted_cons in Hs as [Hy Hrest].
    destruct (less x y) eqn:Hxy.
    + apply StronglySorted_cons. split; [|by apply IH].
      rewrite Forall_forall. intros z Hz.
      rewrite sift_down_perm in Hz. apply elem_of_cons in Hz as [->|Hz].
      * by apply less_asym.
      * rewrite Forall_forall in Hy. by apply Hy.
    + apply StronglySorted_cons. split; [|by apply StronglySorted_cons].
      rewrite Forall_forall. intros z Hz. apply elem_of_cons in Hz as [->|Hz]; [done|].
      rewrite Forall_forall in Hy. eapply (swo_incomp less Hswo); [exact Hxy|by apply Hy].
Qed.

Lemma insertion_fold_sorted (xs acc : list A) :
  StronglySorted (λ a b, less a b = false) acc →
  StronglySorted (λ a b, less a b = false)
    (foldl (λ sorted_rev x, GoLibImpl.sift_down less x sorted_rev) acc xs).
Proof.
  revert acc. induction xs as [|x xs IH]; intros acc Hacc; simpl; [done|].
  apply IH. by apply sift_down_sorted.
Qed.

Lemma StronglySorted_rev_flip (R : relation A) (l : list A) :
  StronglySorted R l → StronglySorted (λ a b, R b a) (rev l).
Proof.
  induction l as [|x l IH]; simpl; intros Hs; [constructor|].
  apply StronglySorted_cons in Hs as [Hx Hl].
  apply StronglySorted_app_2; [|by apply IH|repeat constructor].
  intros a b Ha Hb. apply list_elem_of_singleton in Hb as ->.
  rewrite Forall_forall in Hx. apply Hx.
  apply list_elem_of_In in Ha. apply in_rev in Ha. by apply list_elem_of_In.
Qed.

Lemma insertionSort_sorted (xs : list A) : sorted_by less (GoLibImpl.insertionSort less xs).
Proof.
  unfold sorted_by, GoLibImpl.insertionSort.
  apply (StronglySorted_rev_flip (λ a b, less a b = false)).
  apply insertion_fold_sorted. constructor.
Qed.

End InsertionSort.

Lemma GoLibImpl_spec : @GoLibSpec GoLibImpl.lib.
Proof.
  split.
  - intros A less xs. apply insertionSort_perm.
  - intros A less xs Hswo. by apply insertionSort_sorted.
Qed.

(** ** BoundedMemoryStorage: successive stores *)

Lemma Store_below_capacity (m : BoundedMemory.BoundedMemoryStorage) (s : Snapshot) :
  len (BoundedMemory.snapshots m) < BoundedMemory.maxSize m →
  BoundedMemory.Store m s =
    Some {| BoundedMemory.snapshots := BoundedMemory.snapshots m ++ [s];
            BoundedMemory.maxSize := BoundedMemory.maxSize m |}.
Proof.
  intros Hlt. unfold BoundedMemory.Store.
  rewrite bool_decide_eq_false_2 by lia. done.
Qed.

Lemma Store_at_capacity (m : BoundedMemory.BoundedMemoryStorage) (s oldest : Snapshot)
    (others : list Snapshot) :
  BoundedMemory.snapshots m = oldest :: others →
  len (BoundedMemory.snapshots m) >= BoundedMemory.maxSize m →
  BoundedMemory.Store m s =
    Some {| BoundedMemory.snapshots := others ++ [s];
            BoundedMemory.maxSize := BoundedMemory.maxSize m |}.
Proof.
  intros Hm Hge. unfold BoundedMemory.Store.
  rewrite bool_decide_eq_true_2 by done.
  rewrite Hm. unfold slice_from, len. simpl.
  rewrite bool_decide_eq_true_2 by lia. done.
Qed.

Lemma StoreAll_app (m : BoundedMemory.BoundedMemoryStorage) (xs ys : list Snapshot) :
  BoundedMemory.StoreAll m (xs ++ ys)
  = BoundedMemory.StoreAll m xs ≫= λ m', BoundedMemory.StoreAll m' ys.
Proof.
  revert m. induction xs as [|x xs IH]; intros m; simpl; [done|].
  destruct (BoundedMemory.Store m x) as [m'|]; simpl; [apply IH|done].
Qed.

(** While there is room nothing is evicted. *)
Lemma StoreAll_fill (m : BoundedMemory.BoundedMemoryStorage) (xs : list Snapshot) :
  len (BoundedMemory.snapshots m) + len xs ≤ BoundedMemory.maxSize m →
  BoundedMemory.StoreAll m xs =
    Some {| BoundedMemory.snapshots := BoundedMemory.snapshots m ++ xs;
            BoundedMemory.maxSize := BoundedMemory.maxSize m |}.
Proof.
  revert m. induction xs as [|x xs IH]; intros m Hroom; simpl.
  - rewrite app_nil_r. by destruct m.
  - unfold len in Hroom. simpl in Hroom.
    rewrite Store_below_capacity by (unfold len; lia). simpl.
    rewrite IH; simpl.
    + by rewrite <- app_assoc.
    + rewrite len_app. unfold len. simpl. lia.
Qed.

Lemma NewBoundedMemoryStorage_positive (N : Z) :
  0 < N →
  BoundedMemory.NewBoundedMemoryStorage N
  = {| BoundedMemory.snapshots := []; BoundedMemory.maxSize := N |}.
Proof.
  intros HN. unfold BoundedMemory.NewBoundedMemoryStorage.
  by rewrite bool_decide_eq_false_2 by lia.
Qed.

(** [N+1] stores into a fresh store of capacity [N]: the first snapshot
    is evicted by the last store, the other [N] stay, in order. *)
Lemma StoreAll_one_too_many (N : Z) (first : Snapshot) (others : list Snapshot) :
  0 < N → len others = N →
  BoundedMemory.StoreAll (BoundedMemory.NewBoundedMemoryStorage N) (first :: others)
  = Some {| BoundedMemory.snapshots := others; BoundedMemory.maxSize := N |}.
Proof.
  intros HN Hlen. rewrite NewBoundedMemoryStorage_positive by done.
  destruct (decide (others = [])) as [->|Hne]; [unfold len in Hlen; simpl in Hlen; lia|].
  destruct (exists_last Hne) as (init & final & ->).
  rewrite len_app in Hlen. unfold len in Hlen. simpl in Hlen.
  change (first :: init ++ [final]) with ((first :: init) ++ [final]).
  rewrite StoreAll_app, StoreAll_fill; simpl.
  - erewrite Store_at_capacity; [done|done|]. simpl. unfold len. simpl. lia.
  - unfold len. simpl. lia.
Qed.

(** ** Order of the results *)

Lemma StronglySorted_weaken {A} (R R' : relation A) (xs : list A) :
  (∀ a b, R a b → R' a b) → StronglySorted R xs → StronglySorted R' xs.
Proof.
  intros HR. induction 1 as [|x xs Hxs IH Hall]; constructor; [done|].
  eapply Forall_impl; [exact Hall|]. intros b. apply HR.
Qed.

Section OrderFacts.
Context `{GoLib} `{!GoLibSpec}.

Lemma sortSnapshots_perm (xs : list Snapshot) (orderBy : OrderBy) :
  sort_Slice (less_by orderBy) xs ≡ₚ xs.
Proof. apply sort_Slice_perm. Qed.

(** The comparison only tests [orderBy == OrderByTimeAsc]: the value [0]
    sorts oldest first, every other value newest first. *)
Lemma sort_ascending (xs : list Snapshot) (orderBy : OrderBy) :
  orderBy = OrderByTimeAsc → ascending (sort_Slice (less_by orderBy) xs).
Proof.
  intros ->. pose proof (sort_Slice_sorted _ _ xs (less_by_swo OrderByTimeAsc)) as Hs.
  unfold ascending. unfold sorted_by in Hs.
  eapply StronglySorted_weaken; [|exact Hs].
  intros a b. unfold less_by, Before. simpl. rewrite bool_decide_eq_false. lia.
Qed.

Lemma sort_descending (xs : list Snapshot) (orderBy : OrderBy) :
  orderBy ≠ OrderByTimeAsc → descending (sort_Slice (less_by orderBy) xs).
Proof.
  intros Hne. pose proof (sort_Slice_sorted _ _ xs (less_by_swo orderBy)) as Hs.
  unfold descending. unfold sorted_by in Hs.
  eapply StronglySorted_weaken; [|exact Hs].
  intros a b. unfold less_by, Before. rewrite (bool_decide_eq_false_2 _ Hne).
  rewrite bool_decide_eq_false. lia.
Qed.

Lemma StronglySorted_take {A} (R : relation A) (n : nat) (xs : list A) :
  StronglySorted R xs → StronglySorted R (take n xs).
Proof.
  intros Hs. rewrite <- (take_drop n xs) in Hs. by apply StronglySorted_app_1_l in Hs.
Qed.

Lemma apply_limit_sorted (R : relation Snapshot) (opts : QueryOptions) (xs r : list Snapshot) :
  StronglySorted R xs → apply_limit opts xs = Some r → StronglySorted R r.
Proof.
  rewrite apply_limit_total. intros Hs [= <-]. case_bool_decide; [|done].
  by apply StronglySorted_take.
Qed.

(** Two snapshots with distinct parsed times have one sorted order. *)
Lemma sort_pair (orderBy : OrderBy) (a b : Snapshot) :
  less_by orderBy b a = true → sort_Slice (less_by orderBy) [a; b] = [b; a].
Proof.
  intros Hba.
  pose proof (sort_Slice_perm _ (less_by orderBy) [a; b]) as Hp.
  pose proof (sort_Slice_sorted _ _ [a; b] (less_by_swo orderBy)) as Hs.
  symmetry in Hp. apply Permutation_length_2_inv in Hp as [Hp|Hp]; [|done].
  rewrite Hp in Hs. unfold sorted_by in Hs.
  apply StronglySorted_cons in Hs as [Hab _].
  apply Forall_cons in Hab as [Hab _]. congruence.
Qed.

Lemma sort_pair_sorted (orderBy : OrderBy) (a b : Snapshot) :
  less_by orderBy a b = true → sort_Slice (less_by orderBy) [a; b] = [a; b].
Proof.
  intros Hab.
  pose proof (sort_Slice_perm _ (less_by orderBy) [a; b]) as Hp.
  pose proof (sort_Slice_sorted _ _ [a; b] (less_by_swo orderBy)) as Hs.
  symmetry in Hp. apply Permutation_length_2_inv in Hp as [Hp|Hp]; [done|].
  rewrite Hp in Hs. unfold sorted_by in Hs.
  apply StronglySorted_cons in Hs as [Hba _].
  apply Forall_cons in Hba as [Hba _]. congruence.
Qed.

Lemma BoundedMemory_Query_closed_form (m : BoundedMemory.BoundedMemoryStorage)
    (opts : option QueryOptions) :
  let o := default zeroQueryOptions opts in
  BoundedMemory.Query m opts
  = apply_limit o (sort_Slice (less_by (OrderBy_ o)) (filter (keep o) (BoundedMemory.snapshots m))).
Proof.
  unfold BoundedMemory.Query. destruct opts as [o|]; simpl;
    by rewrite BoundedMemory_query_loop_filter.
Qed.

Lemma Memory_Query_closed_form (m : Memory.MemoryStorage) (opts : option QueryOptions) :
  let o := default zeroQueryOptions opts in
  Memory.Query m opts
  = apply_limit o (sort_Slice (less_by (OrderBy_ o)) (filter (keep o) (Memory.snapshots m))).
Proof.
  unfold Memory.Query. destruct opts as [o|]; simpl; by rewrite Memory_query_loop_filter.
Qed.

End OrderFacts.

(** ** The file and object loops are filters too *)

Section LoopFacts.
Context `{GoLib} `{!GoLibSpec}.

Lemma keep_step (opts : QueryOptions) (s : Snapshot) (results rest : list Snapshot) :
  (if keep opts s then results ++ [s] else results) ++ filter (keep opts) rest
  = results ++ filter (keep opts) (s :: rest).
Proof.
  rewrite filter_cons. destruct (keep opts s); simpl; [|done]. by rewrite <- app_assoc.
Qed.

Lemma File_query_loop_step (opts : QueryOptions) (e : DirEntry) (entries : list DirEntry)
    (results : list Snapshot) :
  File.query_loop opts (e :: entries) results
  = File.query_loop opts entries
      match (if not_snapshot_file e then None else Data e ≫= FromJSON) with
      | Some s => if keep opts s then results ++ [s] else results
      | None => results
      end.
Proof.
  simpl. destruct (not_snapshot_file e); [done|].
  destruct (Data e) as [data|]; simpl; [|done].
  destruct (FromJSON data) as [s|]; simpl; [|done].
  unfold keep. destruct (ParseTimestamp s) as [t|]; [|done].
  destruct (before_start opts t); [done|]. by destruct (after_end opts t).
Qed.

Lemma File_query_loop_filter (opts : QueryOptions) (entries : list DirEntry)
    (results : list Snapshot) :
  File.query_loop opts entries results = results ++ filter (keep opts) (dir_snapshots entries).
Proof.
  revert results. induction entries as [|e entries IH]; intros results.
  - simpl. by rewrite app_nil_r.
  - rewrite File_query_loop_step, IH. unfold dir_snapshots. simpl.
    destruct (if not_snapshot_file e then None else Data e ≫= FromJSON) as [s|]; [|done].
    apply keep_step.
Qed.

Lemma CloudObject_query_loop_step (F : CloudObject.Faults) (bucket : gmap string bytes)
    (opts : QueryOptions) (k : string) (keys : list string) (results : list Snapshot) :
  CloudObject.query_loop F bucket opts (k :: keys) results
  = CloudObject.query_loop F bucket opts keys
      match CloudObject.GetObject F bucket k ≫= FromJSON with
      | Some s => if keep opts s then results ++ [s] else results
      | None => results
      end.
Proof.
  simpl. destruct (CloudObject.GetObject F bucket k) as [data|]; simpl; [|done].
  destruct (FromJSON data) as [s|]; simpl; [|done].
  unfold keep. destruct (ParseTimestamp s) as [t|]; [|done].
  destruct (before_start opts t); [done|]. by destruct (after_end opts t).
Qed.

Lemma CloudObject_query_loop_filter (F : CloudObject.Faults) (bucket : gmap string bytes)
    (opts : QueryOptions) (keys : list string) (results : list Snapshot) :
  CloudObject.query_loop F bucket opts keys results
  = results ++ filter (keep opts) (bucket_snapshots F bucket keys).
Proof.
  revert results. induction keys as [|k keys IH]; intros results.
  - simpl. by rewrite app_nil_r.
  - rewrite CloudObject_query_loop_step, IH. unfold bucket_snapshots. simpl.
    destruct (CloudObject.GetObject F bucket k ≫= FromJSON) as [s|]; [|done].
    apply keep_step.
Qed.

Lemma File_Query_closed_form (f : File.FileStorage) (fs : FileSystem)
    (opts : option QueryOptions) (entries : list DirEntry) :
  os_ReadDir fs (File.baseDir f) = Some entries →
  let o := default zeroQueryOptions opts in
  File.Query f fs opts
  = inr <$> apply_limit o (sort_Slice (less_by (OrderBy_ o))
                             (filter (keep o) (dir_snapshots entries))).
Proof.
  intros Hdir. unfold File.Query. rewrite Hdir. unfold sortSnapshots.
  destruct opts as [o|]; simpl; by rewrite File_query_loop_filter.
Qed.

Lemma CloudObject_Query_closed_form (c : CloudObject.CloudObjectStorage)
    (F : CloudObject.Faults) (bucket : gmap string bytes) (opts : option QueryOptions)
    (keys : list string) :
  CloudObject.ListObjects F bucket (CloudObject.prefix c) = Some keys →
  let o := default zeroQueryOptions opts in
  CloudObject.Query c F bucket opts
  = inr <$> apply_limit o (sort_Slice (less_by (OrderBy_ o))
                             (filter (keep o) (bucket_snapshots F bucket keys))).
Proof.
  intros Hkeys. unfold CloudObject.Query. rewrite Hkeys. unfold sortSnapshots.
  destruct opts as [o|]; simpl; by rewrite CloudObject_query_loop_filter.
Qed.

End LoopFacts.

(** ** The bounded store keeps the newest; the order of results *)

(** C5. A fresh [BoundedMemoryStorage] of capacity [N > 0] that receives
    [N+1] distinct snapshots through successive [Store] calls holds
    exactly [N] of them afterwards, and the first one inserted is gone.
    With capacity 2 and three snapshots whose times are [ta < tb < tc],
    [Query] with descending order and limit 0 returns the third and the
    second, in this order. *)
Theorem Store_keeps_the_newest `{GoLib} `{!GoLibSpec} :
  (∀ (N : Z) (first : Snapshot) (others : list Snapshot),
     0 < N → len others = N → NoDup (first :: others) →
     ∃ m', BoundedMemory.StoreAll (BoundedMemory.NewBoundedMemoryStorage N) (first :: others)
           = Some m'
         ∧ BoundedMemory.Count m' = N
         ∧ BoundedMemory.snapshots m' = others
         ∧ first ∉ BoundedMemory.snapshots m')
  ∧ (∀ (s1 s2 s3 : Snapshot) (ta tb tc : Time),
       ParseTimestamp s1 = Some ta → ParseTimestamp s2 = Some tb →
       ParseTimestamp s3 = Some tc → ta < tb → tb < tc →
       ∃ m', BoundedMemory.StoreAll (BoundedMemory.NewBoundedMemoryStorage 2) [s1; s2; s3]
             = Some m'
           ∧ BoundedMemory.Query m'
               (Some {| StartTime := None; EndTime := None; Limit := 0;
                        OrderBy_ := OrderByTimeDesc |})
             = Some [s3; s2]).
Proof.
  split.
  - intros N first others HN Hlen Hnd. eexists.
    split; [by apply StoreAll_one_too_many|]. simpl.
    split; [done|]. split; [done|]. by apply NoDup_cons in Hnd as [? _].
  - intros s1 s2 s3 ta tb tc H1 H2 H3 Hab Hbc. eexists.
    split; [by apply StoreAll_one_too_many|].
    rewrite BoundedMemory_Query_closed_form. simpl.
    rewrite !filter_cons, filter_nil. unfold keep. rewrite H2, H3. simpl.
    rewrite apply_limit_unbounded by (simpl; lia).
    f_equal. apply sort_pair.
    unfold less_by, ParseTimestamp_, Before. rewrite H2, H3. simpl.
    apply bool_decide_eq_true_2. lia.
Qed.

Lemma Store_keeps_the_newest_witness :
  (∃ m', BoundedMemory.StoreAll (BoundedMemory.NewBoundedMemoryStorage 2) [t1; t2; t3] = Some m'
       ∧ BoundedMemory.Count m' = 2
       ∧ BoundedMemory.snapshots m' = [t2; t3]
       ∧ t1 ∉ BoundedMemory.snapshots m')
  ∧ (∃ m', BoundedMemory.StoreAll (BoundedMemory.NewBoundedMemoryStorage 2) [t1; t2; t3] = Some m'
         ∧ @BoundedMemory.Query GoLibImpl.lib m'
             (Some {| StartTime := None; EndTime := None; Limit := 0;
                      OrderBy_ := OrderByTimeDesc |})
           = Some [t3; t2]).
Proof.
  destruct (@Store_keeps_the_newest GoLibImpl.lib GoLibImpl_spec) as [Hcount Hquery].
  split.
  - apply (Hcount 2 t1 [t2; t3]); [lia|reflexivity|].
    repeat (apply NoDup_cons_2;
            [rewrite ?elem_of_cons, elem_of_nil; intros Hin; decompose [or] Hin;
             done || discriminate|]).
    apply NoDup_nil_2.
  - apply (Hquery t1 t2 t3 1704067201000000000 1704067202000000000 1704067203000000000);
      [vm_compute; reflexivity..|lia|lia].
Defined.

(** C3. A descriptor whose order field is left unset carries the zero
    value of [OrderBy], which is [OrderByTimeAsc]: every backend then
    returns the results oldest first (the database backend asks the
    engine for [ORDER BY timestamp ASC]), not newest first as the
    specification and the comment on the field say. *)
Theorem Query_unset_order_is_ascending `{GoLib} `{!GoLibSpec} (opts : QueryOptions) :
  OrderBy_ opts = OrderBy_ zeroQueryOptions →
  (∀ m, ∃ r, BoundedMemory.Query m (Some opts) = Some r ∧ ascending r)
  ∧ (∀ m, ∃ r, Memory.Query m (Some opts) = Some r ∧ ascending r)
  ∧ (∀ f fs r, File.Query f fs (Some opts) = Some (inr r) → ascending r)
  ∧ (∀ c F bucket r, CloudObject.Query c F bucket (Some opts) = Some (inr r) → ascending r)
  ∧ (∀ d, ∃ before after,
       (Database.Query_sql d (Some opts)).1 = before +:+ " ORDER BY timestamp ASC" +:+ after).
Proof.
  intros Hunset. change (OrderBy_ zeroQueryOptions) with OrderByTimeAsc in Hunset.
  assert (Hcore : ∀ xs r,
            apply_limit opts (sort_Slice (less_by (OrderBy_ opts)) xs) = Some r → ascending r).
  { intros xs r Hr. eapply apply_limit_sorted; [|exact Hr]. by apply sort_ascending. }
  repeat split.
  - intros m. rewrite BoundedMemory_Query_closed_form. simpl.
    rewrite apply_limit_total. eexists. split; [done|].
    eapply Hcore. apply apply_limit_total.
  - intros m. rewrite Memory_Query_closed_form. simpl.
    rewrite apply_limit_total. eexists. split; [done|].
    eapply Hcore. apply apply_limit_total.
  - intros f fs r. unfold File.Query.
    destruct (os_ReadDir fs (File.baseDir f)) as [entries|]; [|done].
    unfold sortSnapshots. simpl.
    destruct (apply_limit _ _) as [r'|] eqn:Hr; [|done].
    intros [= <-]. by eapply Hcore.
  - intros c F bucket r. unfold CloudObject.Query.
    destruct (CloudObject.ListObjects F bucket (CloudObject.prefix c)) as [keys|]; [|done].
    unfold sortSnapshots. simpl.
    destruct (apply_limit _ _) as [r'|] eqn:Hr; [|done].
    intros [= <-]. by eapply Hcore.
  - intros d. unfold Database.Query_sql.
    destruct (StartTime opts), (EndTime opts); cbv beta iota zeta;
      rewrite (bool_decide_eq_true_2 _ Hunset); cbv beta iota zeta;
      (destruct (bool_decide (Limit opts > 0)); cbv beta iota zeta;
       [eexists _, _; apply string_app_assoc
       |eexists _, ""; by rewrite string_app_nil_r]).
Qed.

Lemma Query_unset_order_is_ascending_witness :
  ∃ m, BoundedMemory.StoreAll (BoundedMemory.NewBoundedMemoryStorage 1000) [t2; t1] = Some m
     ∧ @BoundedMemory.Query GoLibImpl.lib m (Some zeroQueryOptions) = Some [t1; t2]
     ∧ @ascending GoLibImpl.lib [t1; t2].
Proof.
  destruct (@Query_unset_order_is_ascending GoLibImpl.lib GoLibImpl_spec
              zeroQueryOptions eq_refl) as (Hbounded & _).
  eexists. split; [vm_compute; reflexivity|].
  destruct (Hbounded {| BoundedMemory.snapshots := [t2; t1]; BoundedMemory.maxSize := 1000 |})
    as (r & Hq & Hasc).
  assert (Hr : r = [t1; t2]).
  { vm_compute in Hq. by injection Hq as <-. }
  rewrite Hr in Hq, Hasc. split; [exact Hq|exact Hasc].
Defined.

(** ** Time filters and the [nil] descriptor *)

Section RangeFacts.
Context `{GoLib} `{!GoLibSpec}.

Lemma range_core (opts : QueryOptions) (T1 T2 : Time) (stored r : list Snapshot) :
  StartTime opts = Some T1 → EndTime opts = Some T2 →
  apply_limit opts (sort_Slice (less_by (OrderBy_ opts)) (filter (keep opts) stored)) = Some r →
  range_result (Limit opts) T1 T2 stored r.
Proof.
  intros Hs He Hr.
  assert (Hin : ∀ s, s ∈ r → s ∈ stored ∧ keep opts s = true).
  { intros s Hs'. apply (apply_limit_subseteq _ _ _ Hr) in Hs'.
    rewrite sort_Slice_perm in Hs'. apply list_elem_of_filter in Hs' as [Hk ?].
    split; [done|]. by apply Is_true_eq_true. }
  split; [|split].
  - intros s Hs'. apply Hin in Hs' as [_ Hk]. apply keep_spec in Hk as (t & Ht & H1 & H2).
    exists t. split; [done|]. split; [by apply H1|by apply H2].
  - intros Hl s t Hst Ht H1 H2. rewrite apply_limit_unbounded in Hr by done.
    injection Hr as <-. rewrite sort_Slice_perm. apply list_elem_of_filter. split; [|done].
    apply Is_true_eq_left. apply keep_spec. exists t. split; [done|].
    split; intros ? ?; simplify_eq; done.
  - intros Hempty. destruct r as [|s r]; [done|].
    destruct (Hin s) as [_ Hk]; [by left|].
    apply keep_spec in Hk as (t & _ & H1 & H2).
    specialize (H1 _ Hs). specialize (H2 _ He). lia.
Qed.

Lemma keep_zero (s : Snapshot) : keep zeroQueryOptions s ↔ is_Some (ParseTimestamp s).
Proof.
  unfold keep. destruct (ParseTimestamp s) as [t|]; simpl.
  - split; [by eexists|done].
  - split; [done|]. by intros [? ?].
Qed.

Lemma zero_core (stored : list Snapshot) :
  ∃ r, apply_limit zeroQueryOptions
         (sort_Slice (less_by (OrderBy_ zeroQueryOptions)) (filter (keep zeroQueryOptions) stored))
       = Some r
     ∧ all_parseable stored r.
Proof.
  rewrite apply_limit_unbounded by done. eexists. split; [done|]. split.
  - rewrite sort_Slice_perm. erewrite list_filter_iff; [done|]. apply keep_zero.
  - by apply sort_ascending.
Qed.

End RangeFacts.

(** C9. For the bounded memory, memory, file and object-store backends,
    [Query] with a [nil] descriptor behaves exactly as [Query] with the
    zero-valued descriptor; it raises no error of its own (the memory
    backends always succeed, the file and object backends succeed
    whenever the listing does), and it returns every stored snapshot
    whose timestamp parses, in the order of the zero-valued [OrderBy],
    oldest first. *)
Theorem Query_nil_descriptor `{GoLib} `{!GoLibSpec} :
  (∀ m, BoundedMemory.Query m None = BoundedMemory.Query m (Some zeroQueryOptions)
      ∧ ∃ r, BoundedMemory.Query m None = Some r
           ∧ all_parseable (BoundedMemory.snapshots m) r)
  ∧ (∀ m, Memory.Query m None = Memory.Query m (Some zeroQueryOptions)
        ∧ ∃ r, Memory.Query m None = Some r ∧ all_parseable (Memory.snapshots m) r)
  ∧ (∀ f fs, File.Query f fs None = File.Query f fs (Some zeroQueryOptions)
        ∧ ∀ entries, os_ReadDir fs (File.baseDir f) = Some entries →
            ∃ r, File.Query f fs None = Some (inr r)
               ∧ all_parseable (dir_snapshots entries) r)
  ∧ (∀ c F bucket,
        CloudObject.Query c F bucket None = CloudObject.Query c F bucket (Some zeroQueryOptions)
        ∧ ∀ keys, CloudObject.ListObjects F bucket (CloudObject.prefix c) = Some keys →
            ∃ r, CloudObject.Query c F bucket None = Some (inr r)
               ∧ all_parseable (bucket_snapshots F bucket keys) r).
Proof.
  split; [|split; [|split]].
  - intros m. split; [done|]. rewrite BoundedMemory_Query_closed_form. apply zero_core.
  - intros m. split; [done|]. rewrite Memory_Query_closed_form. apply zero_core.
  - intros f fs. split; [done|]. intros entries Hdir.
    rewrite (File_Query_closed_form _ _ _ _ Hdir). cbv zeta.
    change (default zeroQueryOptions None) with zeroQueryOptions.
    destruct (zero_core (dir_snapshots entries)) as (r & -> & Hr). by exists r.
  - intros c F bucket. split; [done|]. intros keys Hkeys.
    rewrite (CloudObject_Query_closed_form _ _ _ _ _ Hkeys). cbv zeta.
    change (default zeroQueryOptions None) with zeroQueryOptions.
    destruct (zero_core (bucket_snapshots F bucket keys)) as (r & -> & Hr). by exists r.
Qed.

Lemma Query_nil_descriptor_witness :
  @BoundedMemory.Query GoLibImpl.lib
     {| BoundedMemory.snapshots := [t3; unparseable; t1]; BoundedMemory.maxSize := 1000 |} None
  = Some [t1; t3]
  ∧ @all_parseable GoLibImpl.lib [t3; unparseable; t1] [t1; t3].
Proof.
  destruct (@Query_nil_descriptor GoLibImpl.lib GoLibImpl_spec) as (Hbounded & _).
  destruct (Hbounded {| BoundedMemory.snapshots := [t3; unparseable; t1];
                        BoundedMemory.maxSize := 1000 |}) as (_ & r & Hq & Hall).
  assert (Hr : r = [t1; t3]).
  { vm_compute in Hq. by injection Hq as <-. }
  rewrite Hr in Hq, Hall. split; [exact Hq|exact Hall].
Defined.

(** ** The memory backend and its caller share the nested records *)

Lemma copy_snapshot_spec (h : Aliasing.Heap) (p : Aliasing.loc) (cell : Aliasing.SnapshotCell) :
  Aliasing.snapshot_cells h !! p = Some cell →
  ∃ q h', Aliasing.copy_snapshot h p = Some (q, h')
    ∧ q ≠ p
    ∧ Aliasing.snapshot_cells h !! q = None
    ∧ Aliasing.snapshot_cells h' = <[q := cell]> (Aliasing.snapshot_cells h)
    ∧ Aliasing.runtime_cells h' = Aliasing.runtime_cells h
    ∧ Aliasing.memory_cells h' = Aliasing.memory_cells h
    ∧ Aliasing.goroutine_cells h' = Aliasing.goroutine_cells h.
Proof.
  intros Hp. unfold Aliasing.copy_snapshot. rewrite Hp. simpl.
  set (q := fresh (dom (Aliasing.snapshot_cells h))).
  assert (Hfresh : Aliasing.snapshot_cells h !! q = None).
  { apply not_elem_of_dom. apply is_fresh. }
  exists q. eexists. split; [done|]. split; [|done]. intros ->. congruence.
Qed.

(** A fresh bounded store never has to evict on its first [Store]. *)
Lemma Aliasing_first_Store (h : Aliasing.Heap) (N : Z) (p : Aliasing.loc)
    (cell : Aliasing.SnapshotCell) :
  Aliasing.snapshot_cells h !! p = Some cell →
  ∃ q h1, Aliasing.Store h (Aliasing.NewBoundedMemoryStorage N) p
          = Some (h1, {| Aliasing.snapshots := [q];
                         Aliasing.maxSize := Aliasing.maxSize (Aliasing.NewBoundedMemoryStorage N) |})
    ∧ q ≠ p
    ∧ Aliasing.snapshot_cells h1 = <[q := cell]> (Aliasing.snapshot_cells h)
    ∧ Aliasing.runtime_cells h1 = Aliasing.runtime_cells h
    ∧ Aliasing.memory_cells h1 = Aliasing.memory_cells h
    ∧ Aliasing.goroutine_cells h1 = Aliasing.goroutine_cells h.
Proof.
  intros Hp. destruct (copy_snapshot_spec h p cell Hp) as (q & h1 & Hcopy & Hne & _ & Hcells).
  exists q, h1. split; [|done].
  unfold Aliasing.Store. rewrite bool_decide_eq_false_2.
  - simpl. rewrite Hcopy. done.
  - unfold Aliasing.NewBoundedMemoryStorage, len. simpl. case_bool_decide; lia.
Qed.

Lemma sort_Slice_singleton `{GoLib} `{!GoLibSpec} {A} (less : A → A → bool) (x : A) :
  sort_Slice less [x] = [x].
Proof. apply Permutation_singleton_r. apply sort_Slice_perm. Qed.

(** C2. [Store] copies the snapshot cell only: the copy holds the same
    three pointers, so the nested records stay shared with the caller.
    After [Store] returns, a caller's write through its own pointer,
    [p.Runtime.NumGoroutines = n], is what a later [Query] returns;
    the persisted state does not keep the value it had when [Store]
    was called.  (A write to the top-level field is not seen, see
    [Store_owns_its_cell].) *)
Theorem Store_shares_nested_records `{GoLib} `{!GoLibSpec}
    (h : Aliasing.Heap) (N : Z) (p r : Aliasing.loc) (cell : Aliasing.SnapshotCell)
    (info : RuntimeInfo) (n : Z) (t : Time) :
  Aliasing.snapshot_cells h !! p = Some cell →
  Aliasing.cell_Runtime cell = Some r →
  Aliasing.runtime_cells h !! r = Some info →
  time_Parse (Aliasing.cell_Timestamp cell) = Some t →
  ∃ h1 m1 stored at_store h2 h3 q seen,
    Aliasing.Store h (Aliasing.NewBoundedMemoryStorage N) p = Some (h1, m1)
    ∧ Aliasing.snapshots m1 = [stored]
    ∧ Aliasing.read h1 stored = Some at_store
    ∧ Runtime at_store = Some info
    ∧ Aliasing.set_NumGoroutines h1 p n = Some h2
    ∧ Aliasing.Query h2 m1 None = Some (h3, [q])
    ∧ Aliasing.read h3 q = Some seen
    ∧ Timestamp seen = Timestamp at_store
    ∧ Runtime seen = Some (Aliasing.with_NumGoroutines info n)
    ∧ (n ≠ NumGoroutines info → seen ≠ at_store).
Proof.
  intros Hp Hrt Hinfo Ht.
  destruct (Aliasing_first_Store h N p cell Hp)
    as (q0 & h1 & HStore & Hne & Hc1 & Hr1 & Hm1 & Hg1).
  assert (Hq0 : Aliasing.snapshot_cells h1 !! q0 = Some cell).
  { rewrite Hc1. apply lookup_insert_eq. }
  assert (Hp1 : Aliasing.snapshot_cells h1 !! p = Some cell).
  { rewrite Hc1. by rewrite lookup_insert_ne. }
  assert (Hinfo1 : Aliasing.runtime_cells h1 !! r = Some info) by by rewrite Hr1.
  clear Hr1 Hm1 Hg1 Hc1.
  set (h2 := {| Aliasing.snapshot_cells := Aliasing.snapshot_cells h1;
                Aliasing.runtime_cells :=
                  <[r := Aliasing.with_NumGoroutines info n]> (Aliasing.runtime_cells h1);
                Aliasing.memory_cells := Aliasing.memory_cells h1;
                Aliasing.goroutine_cells := Aliasing.goroutine_cells h1 |}).
  destruct (copy_snapshot_spec h2 q0 cell Hq0)
    as (q1 & h3 & Hcopy & _ & _ & Hc3 & Hr3 & Hm3 & Hg3).
  eexists h1, _, q0, _, h2, h3, q1, _.
  split; [exact HStore|]. split; [done|].
  split. { unfold Aliasing.read. rewrite Hq0. simpl. done. }
  simpl. rewrite Hrt. simpl.
  split; [done|].
  split. { unfold Aliasing.set_NumGoroutines. rewrite Hp1. simpl. rewrite Hrt. simpl.
           rewrite Hinfo1. done. }
  split. { unfold Aliasing.Query. simpl. unfold Aliasing.ParseTimestamp_at. simpl.
           rewrite Hq0. simpl. rewrite Ht. simpl. rewrite Hcopy. simpl.
           rewrite sort_Slice_singleton. done. }
  split. { unfold Aliasing.read. rewrite Hc3, lookup_insert_eq. simpl. done. }
  simpl. split; [done|]. rewrite Hrt. simpl. rewrite Hr3. simpl.
  rewrite lookup_insert_eq, Hinfo1. split; [done|].
  intros Hn [= Heq]. apply Hn. by rewrite <- Heq.
Qed.

Lemma Store_shares_nested_records_witness :
  ∃ h1 m1 stored at_store h2 h3 q seen,
    Aliasing.Store caller_heap (Aliasing.NewBoundedMemoryStorage 2) 1%positive = Some (h1, m1)
    ∧ Aliasing.snapshots m1 = [stored]
    ∧ Aliasing.read h1 stored = Some at_store
    ∧ Runtime at_store = Some caller_runtime
    ∧ Aliasing.set_NumGoroutines h1 1%positive 99 = Some h2
    ∧ @Aliasing.Query GoLibImpl.lib h2 m1 None = Some (h3, [q])
    ∧ Aliasing.read h3 q = Some seen
    ∧ Timestamp seen = Timestamp at_store
    ∧ Runtime seen = Some (Aliasing.with_NumGoroutines caller_runtime 99)
    ∧ (99 ≠ NumGoroutines caller_runtime → seen ≠ at_store).
Proof.
  apply (@Store_shares_nested_records GoLibImpl.lib GoLibImpl_spec
           caller_heap 2 1%positive 1%positive caller_cell caller_runtime 99 time1);
    reflexivity.
Defined.

(** As long as nobody writes to the heap the two readings of [Store]
    agree: the heap-level [Store] succeeds exactly when the value-level
    one does, and the pointers it keeps lead to the snapshots the
    value-level store keeps. *)
Lemma Aliasing_Store_agrees (h : Aliasing.Heap) (m : Aliasing.BoundedMemoryStorage)
    (p : Aliasing.loc) (s : Snapshot) (values : list Snapshot) :
  holds h (Aliasing.snapshots m) values →
  Aliasing.read h p = Some s →
  match Aliasing.Store h m p,
        BoundedMemory.Store {| BoundedMemory.snapshots := values;
                               BoundedMemory.maxSize := Aliasing.maxSize m |} s with
  | Some (h', m'), Some vm' =>
      holds h' (Aliasing.snapshots m') (BoundedMemory.snapshots vm')
      ∧ Aliasing.maxSize m' = BoundedMemory.maxSize vm'
  | None, None => True
  | _, _ => False
  end.
Proof.
  intros Hholds Hread.
  assert (Hlen : len (Aliasing.snapshots m) = len values).
  { unfold len. by rewrite (Forall2_length _ _ _ Hholds). }
  destruct (Aliasing.snapshot_cells h !! p) as [cell|] eqn:Hp;
    [|by unfold Aliasing.read in Hread; rewrite Hp in Hread].
  destruct (copy_snapshot_spec h p cell Hp)
    as (q & h' & Hcopy & _ & Hfresh & Hc & Hr & Hm & Hg).
  assert (Hold : ∀ q0 v, Aliasing.read h q0 = Some v → Aliasing.read h' q0 = Some v).
  { intros q0 v Hq0. unfold Aliasing.read in *. rewrite Hc, Hr, Hm, Hg.
    destruct (decide (q0 = q)) as [->|Hne]; [by rewrite Hfresh in Hq0|].
    by rewrite lookup_insert_ne. }
  assert (Hnew : Aliasing.read h' q = Some s).
  { unfold Aliasing.read in *. rewrite Hc, Hr, Hm, Hg, lookup_insert_eq.
    by rewrite Hp in Hread. }
  unfold Aliasing.Store, BoundedMemory.Store. simpl. rewrite Hlen.
  destruct (bool_decide (len values >= Aliasing.maxSize m)); simpl.
  - unfold slice_from. rewrite Hlen.
    destruct (bool_decide (0 ≤ 1 ∧ 1 ≤ len values)); simpl; [|done].
    rewrite Hcopy. simpl. split; [|done].
    apply Forall2_app; [|by repeat constructor].
    apply Forall2_drop. eapply Forall2_impl; [exact Hholds|]. apply Hold.
  - rewrite Hcopy. simpl. split; [|done].
    apply Forall2_app; [|by repeat constructor].
    eapply Forall2_impl; [exact Hholds|]. apply Hold.
Qed.

(** The snapshot cell itself is the store's own: a caller's write to the
    top-level field after [Store] is not seen through the stored
    pointer. *)
Lemma Store_owns_its_cell (h : Aliasing.Heap) (N : Z) (p : Aliasing.loc)
    (cell : Aliasing.SnapshotCell) (ts : string) :
  Aliasing.snapshot_cells h !! p = Some cell →
  ∃ h1 m1 stored h2,
    Aliasing.Store h (Aliasing.NewBoundedMemoryStorage N) p = Some (h1, m1)
    ∧ Aliasing.snapshots m1 = [stored]
    ∧ Aliasing.set_Timestamp h1 p ts = Some h2
    ∧ Aliasing.read h2 stored = Aliasing.read h1 stored.
Proof.
  intros Hp.
  destruct (Aliasing_first_Store h N p cell Hp)
    as (q0 & h1 & HStore & Hne & Hc1 & Hr1 & Hm1 & Hg1).
  assert (Hp1 : Aliasing.snapshot_cells h1 !! p = Some cell).
  { rewrite Hc1. by rewrite lookup_insert_ne. }
  eexists h1, _, q0, _. split; [exact HStore|]. split; [done|].
  unfold Aliasing.set_Timestamp. rewrite Hp1. simpl. split; [done|].
  unfold Aliasing.read. simpl. by rewrite lookup_insert_ne.
Qed.

(** ** ManagedFileStorage: one reclamation cycle *)

Section CleanupFacts.
Context `{GoLib} `{!GoLibSpec}.

Lemma snapshot_files_cons (e : DirEntry) (entries : list DirEntry) :
  snapshot_files (e :: entries)
  = if not_snapshot_file e then snapshot_files entries else e :: snapshot_files entries.
Proof.
  unfold snapshot_files. rewrite filter_cons.
  destruct (not_snapshot_file e); case_decide; done.
Qed.

Lemma collect_map (base : string) (entries : list DirEntry) (files : list ManagedFile.fileInfo) :
  ManagedFile.collect base entries files = files ++ (file_of base <$> snapshot_files entries).
Proof.
  revert files. induction entries as [|e entries IH]; intros files.
  - simpl. by rewrite app_nil_r.
  - rewrite snapshot_files_cons. simpl.
    destruct (not_snapshot_file e) eqn:He; [apply IH|].
    rewrite IH. rewrite <- app_assoc. simpl. do 2 f_equal.
Qed.

Lemma mark_old_filter (cutoff : Time) (files : list ManagedFile.fileInfo) (toDelete : list Path) :
  ManagedFile.mark_old cutoff files toDelete
  = toDelete ++ (ManagedFile.path <$> filter (λ f, ManagedFile.timestamp f < cutoff) files).
Proof.
  revert toDelete. induction files as [|f files IH]; intros toDelete; simpl.
  - by rewrite app_nil_r.
  - rewrite filter_cons. unfold Before. case_bool_decide as Hold.
    + rewrite decide_True by done. rewrite IH. simpl. by rewrite <- app_assoc.
    + rewrite decide_False by done. apply IH.
Qed.

Lemma alreadyMarked_spec (toDelete : list Path) (p : Path) :
  ManagedFile.alreadyMarked toDelete p = true ↔ p ∈ toDelete.
Proof.
  induction toDelete as [|d toDelete IH]; simpl.
  - split; [done|]. by intros ?%elem_of_nil.
  - rewrite elem_of_cons. case_bool_decide as Hd.
    + split; [|done]. intros _. by left.
    + rewrite IH. split; [by right|]. intros [->|?]; done.
Qed.

(** The count loop marks the first [deleteCount] files that the age
    loop left unmarked. *)
Lemma mark_excess_take (aged : list Path) (files : list ManagedFile.fileInfo) :
  ∀ (deleteCount : Z) (toDelete : list Path),
    NoDup (ManagedFile.path <$> files) →
    aged ⊆ toDelete →
    (∀ f, f ∈ files → ManagedFile.path f ∈ toDelete → ManagedFile.path f ∈ aged) →
    ManagedFile.mark_excess deleteCount files toDelete
    = toDelete ++ (ManagedFile.path <$>
                     take (Z.to_nat deleteCount)
                          (filter (λ f, ManagedFile.path f ∉ aged) files)).
Proof.
  induction files as [|f files IH]; intros k toDelete Hnd Hsub Hnew; simpl.
  - rewrite filter_nil, take_nil. simpl. by rewrite app_nil_r.
  - rewrite fmap_cons in Hnd. apply NoDup_cons in Hnd as [Hf Hnd].
    case_bool_decide as Hk.
    + replace (Z.to_nat k) with O by lia. rewrite take_0. simpl. by rewrite app_nil_r.
    + rewrite filter_cons.
      destruct (ManagedFile.alreadyMarked toDelete (ManagedFile.path f)) eqn:Hm.
      * apply alreadyMarked_spec in Hm.
        rewrite decide_False by (intros Hn; apply Hn, Hnew; [by left|done]).
        apply IH; [done|done|]. intros g Hg. apply Hnew. by right.
      * assert (Hnot : ManagedFile.path f ∉ toDelete).
        { intros Hin. apply alreadyMarked_spec in Hin. congruence. }
        rewrite decide_True by (intros Hin; apply Hnot; by apply Hsub).
        replace (Z.to_nat k) with (S (Z.to_nat (k - 1))) by lia. simpl.
        rewrite IH; [by rewrite <- app_assoc|done| |].
        -- intros p Hp. apply elem_of_app. left. by apply Hsub.
        -- intros g Hg Hin. apply elem_of_app in Hin as [Hin|Hin].
           ++ apply Hnew; [by right|done].
           ++ apply list_elem_of_singleton in Hin. exfalso. apply Hf.
              rewrite <- Hin. apply list_elem_of_fmap. by exists g.
Qed.

End CleanupFacts.

(** *** Lists without duplicate keys *)

Lemma NoDup_fmap_inj_on {A B} (f : A → B) (l : list A) (x y : A) :
  NoDup (f <$> l) → x ∈ l → y ∈ l → f x = f y → x = y.
Proof.
  induction l as [|a l IH]; simpl; intros Hnd Hx Hy Hxy.
  - by apply elem_of_nil in Hx.
  - apply NoDup_cons in Hnd as [Ha Hnd].
    apply elem_of_cons in Hx as [->|Hx]; apply elem_of_cons in Hy as [->|Hy].
    + done.
    + exfalso. apply Ha. rewrite Hxy. apply list_elem_of_fmap. by exists y.
    + exfalso. apply Ha. rewrite <- Hxy. apply list_elem_of_fmap. by exists x.
    + by apply IH.
Qed.

Lemma filter_ext_in {A} (P Q : A → Prop) `{∀ x, Decision (P x)} `{∀ x, Decision (Q x)}
    (l : list A) :
  (∀ x, x ∈ l → P x ↔ Q x) → filter P l = filter Q l.
Proof.
  induction l as [|a l IH]; intros Hpq; [done|].
  rewrite !filter_cons.
  rewrite IH by (intros x Hx; apply Hpq; by right).
  destruct (decide (P a)) as [Hp|Hp], (decide (Q a)) as [Hq|Hq]; try done.
  - exfalso. apply Hq. apply Hpq; [by left|done].
  - exfalso. apply Hp. apply Hpq; [by left|done].
Qed.

Lemma len_filter_complement {A} (P : A → Prop) `{∀ x, Decision (P x)} (l : list A) :
  len (filter (λ x, ¬ P x) l) = len l - len (filter P l).
Proof.
  pose proof (Permutation_length (filter_app_complement P l)) as Hlen.
  rewrite length_app in Hlen. unfold len. lia.
Qed.

Lemma filter_none {A} (P : A → Prop) `{∀ x, Decision (P x)} (l : list A) :
  (∀ x, x ∈ l → ¬ P x) → filter P l = [].
Proof.
  induction l as [|a l IH]; intros Hno; [done|].
  rewrite filter_cons_False by (apply Hno; by left). apply IH. intros x Hx. apply Hno. by right.
Qed.

Lemma filter_all {A} (P : A → Prop) `{∀ x, Decision (P x)} (l : list A) :
  (∀ x, x ∈ l → P x) → filter P l = l.
Proof.
  induction l as [|a l IH]; intros Hall; [done|].
  rewrite filter_cons_True by (apply Hall; by left). f_equal. apply IH.
  intros x Hx. apply Hall. by right.
Qed.

(** With distinct keys, filtering out the keys of a prefix leaves the
    rest of the list. *)
Lemma filter_out_prefix {A B} `{EqDecision B} (key : A → B) (l1 l2 : list A) :
  NoDup (key <$> (l1 ++ l2)) →
  filter (λ x, key x ∉ (key <$> l1)) (l1 ++ l2) = l2.
Proof.
  intros Hnd. rewrite fmap_app in Hnd. apply NoDup_app in Hnd as (_ & Hdisj & _).
  rewrite filter_app, filter_none, filter_all; [done| |].
  - intros x Hx Hin. apply (Hdisj _ Hin). apply list_elem_of_fmap. by exists x.
  - intros x Hx Hnot. apply Hnot. apply list_elem_of_fmap. by exists x.
Qed.

Section RetentionFacts.
Context `{GoLib} `{!GoLibSpec}.

Lemma age_marks_member (m : ManagedFile.ManagedFileStorage) (now : Time)
    (files : list ManagedFile.fileInfo) (f : ManagedFile.fileInfo) :
  NoDup (ManagedFile.path <$> files) → f ∈ files →
  ManagedFile.path f ∈ age_marks m now files
  ↔ ManagedFile.maxAge m > 0
    ∧ ManagedFile.timestamp f < Add_neg now (ManagedFile.maxAge m).
Proof.
  intros Hnd Hf. unfold age_marks. case_bool_decide as Hage.
  - rewrite list_elem_of_fmap. split.
    + intros (g & Hpath & Hg). apply list_elem_of_filter in Hg as [Hold Hg].
      by rewrite (NoDup_fmap_inj_on ManagedFile.path files f g Hnd Hf Hg Hpath).
    + intros [_ Hold]. exists f. split; [done|]. by apply list_elem_of_filter.
  - split; [by intros ?%elem_of_nil|]. by intros [? _].
Qed.

(** The number of files the age loop left unmarked is what the code
    computes as [len(files) - len(toDelete)]. *)
Lemma len_unmarked (m : ManagedFile.ManagedFileStorage) (now : Time)
    (files : list ManagedFile.fileInfo) :
  NoDup (ManagedFile.path <$> files) →
  len (filter (λ f, ManagedFile.path f ∉ age_marks m now files) files)
  = len files - len (age_marks m now files).
Proof.
  intros Hnd.
  rewrite (filter_ext_in _
             (λ f, ¬ (ManagedFile.maxAge m > 0
                      ∧ ManagedFile.timestamp f < Add_neg now (ManagedFile.maxAge m)))).
  2:{ intros f Hf. by rewrite age_marks_member. }
  rewrite len_filter_complement. f_equal.
  unfold age_marks. case_bool_decide as Hage.
  - unfold len. rewrite length_fmap. do 2 f_equal.
    apply filter_ext_in. intros f _. split; [by intros [_ ?]|done].
  - rewrite filter_none; [done|]. intros f _ [? _]. done.
Qed.

(** The marks the code computes are the marks of the specification: age
    first, then count over the files that are not marked yet. *)
Lemma retention_refines_spec (m : ManagedFile.ManagedFileStorage) (now : Time)
    (files : list ManagedFile.fileInfo) :
  NoDup (ManagedFile.path <$> files) →
  ManagedFile.retention m now files = retention_in_spec_words m now files.
Proof.
  intros Hnd. unfold ManagedFile.retention, retention_in_spec_words, count_marks.
  cbv zeta.
  assert (Haged : (if bool_decide (ManagedFile.maxAge m > 0)
                   then ManagedFile.mark_old (Add_neg now (ManagedFile.maxAge m)) files []
                   else []) = age_marks m now files).
  { unfold age_marks. case_bool_decide; [|done]. by rewrite mark_old_filter. }
  rewrite Haged. clear Haged.
  destruct (bool_decide (ManagedFile.maxFiles m > 0)); [|by rewrite app_nil_r].
  rewrite len_unmarked by done.
  destruct (bool_decide (len files - len (age_marks m now files) > ManagedFile.maxFiles m))
    eqn:Hover.
  - apply mark_excess_take; [done|done|done].
  - apply bool_decide_eq_false_1 in Hover.
    replace (Z.to_nat (len files - len (age_marks m now files) - ManagedFile.maxFiles m))
      with O by lia.
    rewrite take_0. simpl. by rewrite app_nil_r.
Qed.

Lemma os_Remove_all (base : string) (toDelete : list Path) :
  ∀ (fs : FileSystem) (entries : list DirEntry),
    fs !! base = Some entries →
    (∀ p, p ∈ toDelete → p.1 = base) →
    foldl os_Remove fs toDelete
    = <[base := filter (λ e, filepath_Join base (Name e) ∉ toDelete) entries]> fs.
Proof.
  induction toDelete as [|[dir name] toDelete IH]; intros fs entries Hdir Hbase; simpl.
  - rewrite filter_all by (intros ? _ ?%elem_of_nil; done). symmetry. by apply insert_id.
  - assert (dir = base) as -> by (apply (Hbase (dir, name)); by left).
    unfold os_Remove at 2. simpl. rewrite Hdir.
    erewrite IH; [|apply lookup_insert_eq|intros p Hp; apply Hbase; by right].
    rewrite insert_insert_eq. f_equal.
    rewrite list_filter_filter. apply list_filter_iff. intros e.
    unfold filepath_Join. rewrite elem_of_cons. split.
    + intros [Hrest Hne] [Heq|Hin]; [|done]. injection Heq as Hname. done.
    + intros Hnot. split; [by intros ?; apply Hnot; right|].
      intros Heq. apply Hnot. left. by rewrite Heq.
Qed.

End RetentionFacts.

Lemma filter_fmap {A B} (f : A → B) (P : B → Prop) `{∀ y, Decision (P y)} (l : list A) :
  filter P (f <$> l) = f <$> filter (λ x, P (f x)) l.
Proof.
  induction l as [|a l IH]; [done|].
  rewrite fmap_cons, !filter_cons, IH. by destruct (decide (P (f a))).
Qed.

Section CleanupCycle.
Context `{GoLib} `{!GoLibSpec}.

Lemma file_less_swo :
  strict_weak_order
    (λ fi fj : ManagedFile.fileInfo, Before (ManagedFile.timestamp fi) (ManagedFile.timestamp fj)).
Proof. unfold Before. split; intros; repeat case_bool_decide; try done; lia. Qed.

Lemma sorted_files_perm (m : ManagedFile.ManagedFileStorage) (entries : list DirEntry) :
  ManagedFile.sorted_files m entries
  ≡ₚ file_of (ManagedFile.baseDir m) <$> snapshot_files entries.
Proof.
  unfold ManagedFile.sorted_files. rewrite sort_Slice_perm, collect_map. done.
Qed.

Lemma sorted_files_ascending (m : ManagedFile.ManagedFileStorage) (entries : list DirEntry) :
  StronglySorted (λ a b, ManagedFile.timestamp a ≤ ManagedFile.timestamp b)
    (ManagedFile.sorted_files m entries).
Proof.
  unfold ManagedFile.sorted_files.
  eapply StronglySorted_weaken; [|apply sort_Slice_sorted, file_less_swo].
  intros a b. unfold Before. simpl. rewrite bool_decide_eq_false. lia.
Qed.

Lemma sorted_files_NoDup (m : ManagedFile.ManagedFileStorage) (entries : list DirEntry) :
  NoDup (Name <$> entries) →
  NoDup (ManagedFile.path <$> ManagedFile.sorted_files m entries).
Proof.
  intros Hnd. rewrite sorted_files_perm, <- list_fmap_compose.
  apply NoDup_fmap_2_strong.
  - intros x y Hx Hy Hxy. unfold snapshot_files in Hx, Hy.
    apply list_elem_of_filter in Hx as [_ Hx]. apply list_elem_of_filter in Hy as [_ Hy].
    injection Hxy as Hname. by eapply (NoDup_fmap_inj_on Name entries).
  - apply NoDup_filter. by apply NoDup_fmap_1 in Hnd.
Qed.

(** With a file cap and no age limit the marks are the paths of the
    [n - C] oldest files. *)
Lemma retention_count_only (m : ManagedFile.ManagedFileStorage) (now : Time)
    (files : list ManagedFile.fileInfo) :
  NoDup (ManagedFile.path <$> files) →
  ManagedFile.maxAge m ≤ 0 → 0 < ManagedFile.maxFiles m →
  ManagedFile.retention m now files
  = ManagedFile.path <$> take (Z.to_nat (len files - ManagedFile.maxFiles m)) files.
Proof.
  intros Hnd Hage Hcap. rewrite retention_refines_spec by done.
  unfold retention_in_spec_words, age_marks, count_marks.
  rewrite bool_decide_eq_false_2 by lia. rewrite bool_decide_eq_true_2 by lia.
  simpl. rewrite filter_all; [done|]. intros f _ Hin. by apply elem_of_nil in Hin.
Qed.

End CleanupCycle.

(** C4. One reclamation cycle of [ManagedFileStorage] with a file cap
    [C > 0] and no age limit, over a directory with distinct entry
    names: at most [C] snapshot files survive (exactly [min C n] of the
    [n] present, which is what [Stats] reports afterwards), every
    survivor is at least as recent as every deleted file by effective
    timestamp, and nothing but snapshot files is touched.  In every configuration the marks are computed as the
    specification words it: age marks first, then count marks over the
    files that are not marked yet. *)
Theorem cleanup_keeps_most_recent `{GoLib} `{!GoLibSpec}
    (m : ManagedFile.ManagedFileStorage) (now : Time) (fs : FileSystem)
    (entries : list DirEntry) :
  os_ReadDir fs (ManagedFile.baseDir m) = Some entries →
  NoDup (Name <$> entries) →
  (ManagedFile.maxAge m ≤ 0 → 0 < ManagedFile.maxFiles m →
     ∃ entries',
       ManagedFile.cleanup m now fs = (<[ManagedFile.baseDir m := entries']> fs, None)
       ∧ sublist entries' entries
       ∧ len (snapshot_files entries')
         = Z.min (ManagedFile.maxFiles m) (len (snapshot_files entries))
       ∧ (∀ kept gone,
            kept ∈ snapshot_files entries' → gone ∈ snapshot_files entries → gone ∉ entries' →
            effective_timestamp gone ≤ effective_timestamp kept)
       ∧ (∀ e, e ∈ entries → not_snapshot_file e = true → e ∈ entries')
       ∧ ManagedFile.Stats m (ManagedFile.cleanup m now fs).1
         = Some (Z.min (ManagedFile.maxFiles m) (len (snapshot_files entries))))
  ∧ ManagedFile.retention m now (ManagedFile.sorted_files m entries)
    = retention_in_spec_words m now (ManagedFile.sorted_files m entries).
Proof.
  intros Hdir Hnames.
  pose proof (sorted_files_NoDup m entries Hnames) as Hnd.
  pose proof (sorted_files_perm m entries) as Hperm.
  pose proof (sorted_files_ascending m entries) as Hsorted.
  split; [|by apply retention_refines_spec].
  intros Hage Hcap.
  set (base := ManagedFile.baseDir m) in *.
  set (files := ManagedFile.sorted_files m entries) in *.
  set (k := Z.to_nat (len files - ManagedFile.maxFiles m)).
  set (Q := λ e : DirEntry, filepath_Join base (Name e) ∉ (ManagedFile.path <$> take k files)).
  assert (Hmember : ∀ e, e ∈ snapshot_files entries → file_of base e ∈ files).
  { intros e He. rewrite Hperm. apply list_elem_of_fmap. by exists e. }
  assert (Hsf : ∀ e, e ∈ snapshot_files entries → e ∈ entries ∧ not_snapshot_file e = false).
  { intros e He. apply list_elem_of_filter in He as [? ?]. done. }
  assert (Hmarked : ∀ e, e ∈ snapshot_files entries → ¬ Q e → file_of base e ∈ take k files).
  { intros e He HQ. apply dec_stable in HQ.
    apply list_elem_of_fmap in HQ as (f & Hpath & Hf).
    assert (f = file_of base e) as <-; [|done].
    eapply (NoDup_fmap_inj_on ManagedFile.path files); [done| |by apply Hmember|done].
    eapply subseteq_take. exact Hf. }
  assert (Hcleanup : ManagedFile.cleanup m now fs = (<[base := filter Q entries]> fs, None)).
  { unfold ManagedFile.cleanup. fold base. unfold os_ReadDir in Hdir. unfold os_ReadDir.
    rewrite Hdir. fold files. rewrite retention_count_only by done. fold k.
    rewrite (os_Remove_all base _ fs entries Hdir); [done|].
    intros p Hp. apply list_elem_of_fmap in Hp as (f & -> & Hf).
    apply subseteq_take in Hf. rewrite Hperm in Hf.
    apply list_elem_of_fmap in Hf as (e & -> & _). done. }
  assert (Hcount : len (snapshot_files (filter Q entries))
                   = Z.min (ManagedFile.maxFiles m) (len (snapshot_files entries))).
  { assert (Hkept : file_of base <$> snapshot_files (filter Q entries) ≡ₚ drop k files).
    { unfold snapshot_files at 1. rewrite list_filter_filter.
      rewrite (list_filter_iff _ (λ e, Q e ∧ not_snapshot_file e = false)) by (intros e; tauto).
      rewrite <- list_filter_filter. fold (snapshot_files entries).
      set (P := λ f : ManagedFile.fileInfo,
                  ManagedFile.path f ∉ (ManagedFile.path <$> take k files)).
      assert (Hff : file_of base <$> filter Q (snapshot_files entries)
                    = filter P (file_of base <$> snapshot_files entries)).
      { subst P Q. by rewrite filter_fmap. }
      rewrite Hff, <- Hperm.
      apply reflexive_eq.
      pose proof (filter_out_prefix ManagedFile.path (take k files) (drop k files)) as Hpre.
      rewrite take_drop in Hpre. by apply Hpre. }
    apply Permutation_length in Hkept. rewrite length_fmap, length_drop in Hkept.
    pose proof (Permutation_length Hperm) as Hn. rewrite length_fmap in Hn.
    unfold len in *. lia. }
  exists (filter Q entries). split; [exact Hcleanup|]. split; [|split; [|split; [|split]]].
  - apply sublist_filter.
  - exact Hcount.
  - intros kept gone Hkept Hgone Hnot.
    assert (Hk : file_of base kept ∈ drop k files).
    { unfold snapshot_files in Hkept. apply list_elem_of_filter in Hkept as [Hsnap Hkept].
      apply list_elem_of_filter in Hkept as [HQ Hkept].
      assert (Hin : file_of base kept ∈ files).
      { apply Hmember. by apply list_elem_of_filter. }
      rewrite <- (take_drop k files) in Hin. apply elem_of_app in Hin as [Hin|Hin]; [|done].
      exfalso. apply HQ. apply list_elem_of_fmap. by exists (file_of base kept). }
    assert (Hg : file_of base gone ∈ take k files).
    { apply Hmarked; [done|]. intros HQ. apply Hnot. apply list_elem_of_filter.
      split; [done|]. by apply Hsf. }
    rewrite <- (take_drop k files) in Hsorted.
    apply (StronglySorted_app_1_elem_of _ _ _ _ _ Hsorted Hg Hk).
  - intros e He Hdirlike. apply list_elem_of_filter. split; [|done].
    intros Hin. apply list_elem_of_fmap in Hin as (f & Hpath & Hf).
    apply subseteq_take in Hf. rewrite Hperm in Hf.
    apply list_elem_of_fmap in Hf as (e' & -> & He').
    apply Hsf in He' as [He' Hsnap]. injection Hpath as Hname.
    assert (e = e') as -> by by eapply (NoDup_fmap_inj_on Name entries).
    congruence.
  - rewrite Hcleanup. unfold ManagedFile.Stats, os_ReadDir. cbn [fst]. fold base.
    rewrite lookup_insert_eq. simpl. f_equal. exact Hcount.
Qed.

Lemma cleanup_keeps_most_recent_witness :
  (∃ entries',
     @ManagedFile.cleanup GoLibImpl.lib keep_two (time3 + 1000) sample_fs
     = (<["/var/lib/inspectd"%string := entries']> sample_fs, None)
     ∧ sublist entries' sample_dir
     ∧ len (snapshot_files entries') = Z.min 2 (len (snapshot_files sample_dir))
     ∧ (∀ kept gone,
          kept ∈ snapshot_files entries' → gone ∈ snapshot_files sample_dir → gone ∉ entries' →
          @effective_timestamp GoLibImpl.lib gone ≤ @effective_timestamp GoLibImpl.lib kept)
     ∧ (∀ e, e ∈ sample_dir → not_snapshot_file e = true → e ∈ entries')
     ∧ ManagedFile.Stats keep_two
         (@ManagedFile.cleanup GoLibImpl.lib keep_two (time3 + 1000) sample_fs).1
       = Some (Z.min 2 (len (snapshot_files sample_dir))))
  ∧ ManagedFile.retention keep_two (time3 + 1000)
      (@ManagedFile.sorted_files GoLibImpl.lib keep_two sample_dir)
    = retention_in_spec_words keep_two (time3 + 1000)
        (@ManagedFile.sorted_files GoLibImpl.lib keep_two sample_dir).
Proof.
  assert (Hnames : NoDup (Name <$> sample_dir)).
  { repeat (apply NoDup_cons_2;
            [rewrite ?elem_of_cons, elem_of_nil; intros Hin; decompose [or] Hin;
             done || discriminate|]).
    apply NoDup_nil_2. }
  destruct (@cleanup_keeps_most_recent GoLibImpl.lib GoLibImpl_spec keep_two (time3 + 1000)
              sample_fs sample_dir eq_refl Hnames) as [Hcap Hmarks].
  split; [|exact Hmarks].
  apply Hcap; simpl; lia.
Defined.

(** The cycle on the sample directory: the two oldest snapshot files go,
    the newest one and the undecodable one (dated by its modification
    time) stay, and so does the file that is not a snapshot file. *)
Example cleanup_sample :
  @ManagedFile.cleanup GoLibImpl.lib keep_two (time3 + 1000) sample_fs
  = ({[ "/var/lib/inspectd"%string := [file3; readme; broken] ]}, None).
Proof. vm_compute. reflexivity. Qed.

(** ** DatabaseStorage: the batch transaction *)

Section BatchFacts.
Context `{GoLib}.

Lemma batch_loop_step (F : Database.Faults) (s : Snapshot) (ss : list Snapshot)
    (pending : list Database.Row) :
  Database.batch_loop F (s :: ss) pending
  = match row_of s with
    | None => Database.batch_loop F ss pending
    | Some row =>
        if Database.exec_error F pending row then inl "failed to insert snapshot"%string
        else Database.batch_loop F ss (pending ++ [row])
    end.
Proof.
  simpl. unfold row_of. destruct (ParseTimestamp s) as [t|]; simpl; [|done].
  by destruct (ToJSON s).
Qed.

Lemma batch_loop_spec (F : Database.Faults) (ss : list Snapshot) (pending : list Database.Row) :
  Database.batch_loop F ss pending
  = if accepted F pending (valid_rows ss)
    then inr (pending ++ valid_rows ss)
    else inl "failed to insert snapshot"%string.
Proof.
  revert pending. induction ss as [|s ss IH]; intros pending.
  - simpl. by rewrite app_nil_r.
  - rewrite batch_loop_step. unfold valid_rows in *. simpl.
    destruct (row_of s) as [row|]; [|apply IH]. simpl.
    destruct (Database.exec_error F pending row); simpl; [done|].
    rewrite IH. by rewrite <- app_assoc.
Qed.

Lemma valid_rows_skip (before after : list Snapshot) (bad : Snapshot) :
  row_of bad = None → valid_rows (before ++ bad :: after) = valid_rows (before ++ after).
Proof.
  intros Hbad. unfold valid_rows. rewrite !omap_app. simpl. by rewrite Hbad.
Qed.

End BatchFacts.

(** C6. [DatabaseStorage.StoreBatch], once the transaction is begun and
    the statement prepared: a snapshot whose timestamp does not parse or
    that does not serialise is skipped, the batch goes on as if it were
    not there; an execution error on any insert ends the batch with an
    error and the transaction is rolled back, no row of the batch is
    stored; with no execution error the transaction is committed, and
    once the commit succeeds the rows of the valid snapshots are stored,
    in order, after the rows that were there. *)
Theorem StoreBatch_transaction `{GoLib} (d : Database.DatabaseStorage) (F : Database.Faults)
    (db : Database.DB) (ss : list Snapshot) :
  Database.begin_error F = false → Database.prepare_error F = false →
  (∀ before after bad, ss = before ++ bad :: after →
     ParseTimestamp bad = None ∨ ToJSON bad = None →
     Database.StoreBatch d F db ss = Database.StoreBatch d F db (before ++ after))
  ∧ (accepted F [] (valid_rows ss) = false →
       ∃ db' err, Database.StoreBatch d F db ss = (db', Some err)
                ∧ Database.rows db' = Database.rows db)
  ∧ (accepted F [] (valid_rows ss) = true →
       Database.StoreBatch d F db ss
       = Database.tx_Commit F (Database.handed (Database.insert_query (Database.driver d)) db)
           (valid_rows ss)
       ∧ (Database.commit_error F = false →
            ∃ db', Database.StoreBatch d F db ss = (db', None)
                 ∧ Database.rows db' = Database.rows db ++ valid_rows ss)).
Proof.
  intros Hbegin Hprepare.
  assert (Hform : ∀ xs, Database.StoreBatch d F db xs
                        = match Database.batch_loop F xs [] with
                          | inl err =>
                              (Database.tx_Rollback
                                 (Database.handed (Database.insert_query (Database.driver d)) db)
                                 [], Some err)
                          | inr pending =>
                              Database.tx_Commit F
                                (Database.handed (Database.insert_query (Database.driver d)) db)
                                pending
                          end).
  { intros xs. unfold Database.StoreBatch. by rewrite Hbegin, Hprepare. }
  split; [|split].
  - intros before after bad -> Hbad. rewrite !Hform, !batch_loop_spec.
    rewrite valid_rows_skip; [done|]. unfold row_of.
    destruct Hbad as [-> | Hjson]; [done|]. destruct (ParseTimestamp bad); simpl; [|done].
    by rewrite Hjson.
  - intros Hrefused. rewrite Hform, batch_loop_spec, Hrefused. by eexists _, _.
  - intros Hok. rewrite Hform, batch_loop_spec, Hok. simpl. split; [done|].
    intros Hcommit. unfold Database.tx_Commit. rewrite Hcommit. by eexists.
Qed.

Lemma StoreBatch_transaction_witness :
  (∀ before after bad, [t1; unparseable; t2] = before ++ bad :: after →
     @ParseTimestamp GoLibImpl.lib bad = None ∨ @ToJSON GoLibImpl.lib bad = None →
     @Database.StoreBatch GoLibImpl.lib sqlite_storage no_faults empty_db [t1; unparseable; t2]
     = @Database.StoreBatch GoLibImpl.lib sqlite_storage no_faults empty_db (before ++ after))
  ∧ (∃ db', @Database.StoreBatch GoLibImpl.lib sqlite_storage no_faults empty_db
               [t1; unparseable; t2] = (db', None)
          ∧ Database.rows db'
            = Database.rows empty_db ++ @valid_rows GoLibImpl.lib [t1; unparseable; t2]).
Proof.
  destruct (@StoreBatch_transaction GoLibImpl.lib sqlite_storage no_faults empty_db
              [t1; unparseable; t2] eq_refl eq_refl) as (Hskip & _ & Hcommit).
  split; [exact Hskip|].
  destruct Hcommit as [_ Hdone]; [by vm_compute|]. by apply Hdone.
Defined.

(** The second insert is refused: the batch ends with an error and the
    row of the first snapshot is not stored either. *)
Example StoreBatch_rolls_back :
  @Database.StoreBatch GoLibImpl.lib sqlite_storage second_insert_fails empty_db [t1; t2; t3]
  = ({| Database.rows := [];
        Database.executed :=
          ["INSERT INTO inspectd_snapshots (timestamp, data) VALUES (?, ?)"%string] |},
     Some "failed to insert snapshot"%string).
Proof. by vm_compute. Qed.

(** ** A time range in every backend *)











Section EngineFacts.
Context `{GoLib}.




End EngineFacts.

Section AgreeFacts.
Context `{GoLib}.






End AgreeFacts.



(** The engine on the stored samples: the range from the first to the
    second sample selects these two, oldest first; the bounds are
    included. *)
Example Database_Query_range_sample :
  (@Database.Query GoLibImpl.lib sqlite_storage SQL.run stored_db (Some first_two)).2
  = inr ([t1; t2], None)
  ∧ (@Database.Query GoLibImpl.lib
       {| Database.driver := "postgres"; Database.dsn := "postgres://localhost/inspectd" |}
       SQL.run stored_db
       (Some {| StartTime := Some time2; EndTime := Some time3; Limit := 1;
                OrderBy_ := OrderByTimeDesc |})).2
    = inr ([t3], None).
Proof. split; vm_compute; reflexivity. Qed.

(** ** CloudObjectStorage: one cleanup pass *)

Lemma Add_neg_sub (now : Time) (d : Duration) :
  0 < d < 2 ^ 63 → Add_neg now d = now - d.
Proof.
  intros Hd. unfold Add_neg, int64_wrap.
  replace ((- d + 2 ^ 63) `mod` 2 ^ 64) with (- d + 2 ^ 63); [lia|].
  symmetry. apply Z.mod_small. lia.
Qed.

Section CloudFacts.
Context `{GoLib}.

(** The decision on a key reads the bucket at that key only. *)
Lemma shouldDeleteObject_local (F : CloudObject.Faults) (b1 b2 : gmap string bytes)
    (key : string) (cutoff : Time) :
  b1 !! key = b2 !! key →
  CloudObject.shouldDeleteObject F b1 key cutoff = CloudObject.shouldDeleteObject F b2 key cutoff.
Proof.
  intros Heq. unfold CloudObject.shouldDeleteObject, CloudObject.GetObject. by rewrite Heq.
Qed.

Lemma shouldDeleteObject_true (F : CloudObject.Faults) (bucket : gmap string bytes)
    (key : string) (cutoff : Time) :
  CloudObject.shouldDeleteObject F bucket key cutoff = Some true ↔
  ∃ data s t, CloudObject.GetObject F bucket key = Some data
            ∧ FromJSON data = Some s ∧ ParseTimestamp s = Some t ∧ t < cutoff.
Proof.
  unfold CloudObject.shouldDeleteObject.
  destruct (CloudObject.GetObject F bucket key) as [data|].
  2:{ split; [done|]. by intros (? & ? & ? & [=] & _). }
  destruct (FromJSON data) as [s|] eqn:Hs.
  2:{ split; [done|]. intros (? & ? & ? & [= <-] & ? & _). congruence. }
  destruct (ParseTimestamp s) as [t|] eqn:Ht.
  2:{ split; [done|]. intros (? & ? & ? & [= <-] & ? & ? & _). congruence. }
  unfold Before. split.
  - intros [= Hlt%bool_decide_eq_true]. by exists data, s, t.
  - intros (? & ? & ? & [= <-] & ? & ? & ?). simplify_eq. f_equal.
    by apply bool_decide_eq_true.
Qed.

Lemma shouldDeleteObject_error (F : CloudObject.Faults) (bucket : gmap string bytes)
    (key : string) (cutoff : Time) :
  (CloudObject.GetObject F bucket key = None
   ∨ ∃ data, CloudObject.GetObject F bucket key = Some data
           ∧ (FromJSON data = None
              ∨ ∃ s, FromJSON data = Some s ∧ ParseTimestamp s = None)) →
  CloudObject.shouldDeleteObject F bucket key cutoff = None.
Proof.
  unfold CloudObject.shouldDeleteObject.
  intros [-> | (data & -> & [-> | (s & -> & ->)])]; done.
Qed.

(** The loop deletes exactly the listed keys for which the decision is
    "delete" and the delete call goes through; every other key keeps
    what it had. *)
Lemma cleanup_loop_lookup (F : CloudObject.Faults) (cutoff : Time) (bucket : gmap string bytes)
    (keys : list string) :
  ∀ (current : gmap string bytes),
    NoDup keys →
    (∀ k, k ∈ keys → current !! k = bucket !! k) →
    ∀ key,
      CloudObject.cleanup_loop F cutoff keys current !! key
      = if bool_decide (key ∈ keys
                        ∧ CloudObject.shouldDeleteObject F bucket key cutoff = Some true
                        ∧ CloudObject.delete_error F key = false)
        then None else current !! key.
Proof.
  induction keys as [|k keys IH]; intros current Hnd Hsame key;
    cbn [CloudObject.cleanup_loop].
  - rewrite bool_decide_eq_false_2; [done|]. by intros [?%elem_of_nil _].
  - apply NoDup_cons in Hnd as [Hk Hnd].
    rewrite (shouldDeleteObject_local F current bucket k) by (apply Hsame; by left).
    assert (Hstep : ∀ next : gmap string bytes,
              (∀ k', k' ≠ k → next !! k' = current !! k') →
              (∀ k', k' ∈ keys → next !! k' = bucket !! k')).
    { intros next Hnext k' Hk'. rewrite Hnext by (intros ->; done). apply Hsame. by right. }
    assert (Hskip : CloudObject.shouldDeleteObject F bucket k cutoff ≠ Some true
                    ∨ CloudObject.delete_error F k = true →
            (if bool_decide (key ∈ keys
                             ∧ CloudObject.shouldDeleteObject F bucket key cutoff = Some true
                             ∧ CloudObject.delete_error F key = false)
             then None else current !! key)
            = (if bool_decide (key ∈ k :: keys
                               ∧ CloudObject.shouldDeleteObject F bucket key cutoff = Some true
                               ∧ CloudObject.delete_error F key = false)
               then None else current !! key)).
    { intros Hno. erewrite bool_decide_ext; [done|]. rewrite elem_of_cons. split.
      - intros (? & ? & ?). split; [by right|done].
      - intros ([->|?] & ? & ?); [|done]. destruct Hno; congruence. }
    destruct (CloudObject.shouldDeleteObject F bucket k cutoff) as [[|]|] eqn:Hdecide.
    + unfold CloudObject.DeleteObject.
      destruct (CloudObject.delete_error F k) eqn:Hdel; cbn [fst].
      * rewrite IH; [|done|by apply Hstep]. apply Hskip. by right.
      * rewrite IH; [|done|apply Hstep; intros ? ?; by apply lookup_delete_ne].
        destruct (decide (key = k)) as [->|Hne].
        -- rewrite bool_decide_eq_false_2 by (by intros [? _]).
           rewrite bool_decide_eq_true_2 by (split; [by left|done]).
           apply lookup_delete_eq.
        -- rewrite lookup_delete_ne by done.
           erewrite bool_decide_ext; [done|]. rewrite elem_of_cons.
           split; [intros (? & ? & ?); split; [by right|done]|].
           intros ([->|?] & ? & ?); done.
    + rewrite IH; [|done|by apply Hstep]. apply Hskip. by left.
    + rewrite IH; [|done|by apply Hstep]. apply Hskip. by left.
Qed.

End CloudFacts.

(** C8. One cleanup pass of [CloudObjectStorage] with a max age
    configured (and the listing successful): objects are only ever
    deleted, never altered; an object is deleted only if it was fetched,
    its payload decoded as a snapshot, its timestamp parsed, and that
    timestamp is before [now - max_age]; an object whose fetch or decode
    or timestamp parse fails is left in place; and a failure on one key
    does not end the pass: every listed object that meets the conditions
    and whose delete call succeeds is gone afterwards. *)
Theorem cleanup_deletes_only_expired `{GoLib} (c : CloudObject.CloudObjectStorage)
    (F : CloudObject.Faults) (now : Time) (bucket : gmap string bytes) :
  0 < CloudObject.maxAge c < 2 ^ 63 → CloudObject.list_error F = false →
  ∃ bucket', CloudObject.cleanup c F now bucket = (bucket', None) ∧ ∀ key,
    (bucket' !! key = None ∨ bucket' !! key = bucket !! key)
    ∧ (is_Some (bucket !! key) → bucket' !! key = None →
         ∃ data s t, CloudObject.GetObject F bucket key = Some data
                   ∧ FromJSON data = Some s ∧ ParseTimestamp s = Some t
                   ∧ t < now - CloudObject.maxAge c)
    ∧ (CloudObject.GetObject F bucket key = None
       ∨ (∃ data, CloudObject.GetObject F bucket key = Some data
                ∧ (FromJSON data = None
                   ∨ ∃ s, FromJSON data = Some s ∧ ParseTimestamp s = None)) →
       bucket' !! key = bucket !! key)
    ∧ (String.prefix (CloudObject.prefix c) key = true →
       (∃ data s t, CloudObject.GetObject F bucket key = Some data
                  ∧ FromJSON data = Some s ∧ ParseTimestamp s = Some t
                  ∧ t < now - CloudObject.maxAge c) →
       CloudObject.delete_error F key = false →
       bucket' !! key = None).
Proof.
  intros Hage Hlist. unfold CloudObject.cleanup, CloudObject.ListObjects.
  rewrite bool_decide_eq_false_2 by lia. rewrite Hlist.
  rewrite Add_neg_sub by done.
  set (keys := filter (λ key, String.prefix (CloudObject.prefix c) key = true)
                 (elements (dom bucket))).
  set (cutoff := now - CloudObject.maxAge c).
  eexists. split; [done|]. intros key.
  assert (Hnd : NoDup keys) by apply NoDup_filter, NoDup_elements.
  rewrite (cleanup_loop_lookup F cutoff bucket keys bucket Hnd) by done.
  split; [|split; [|split]].
  - case_bool_decide; [by left|by right].
  - intros Hsome. case_bool_decide as Hdel.
    + intros _. destruct Hdel as (_ & Hdecide & _). by apply shouldDeleteObject_true.
    + intros Hnone. rewrite Hnone in Hsome. by destruct Hsome.
  - intros Herr. apply (shouldDeleteObject_error F bucket key cutoff) in Herr.
    rewrite bool_decide_eq_false_2; [done|]. intros (_ & Hdecide & _). congruence.
  - intros Hprefix Hexpired Hdel. rewrite bool_decide_eq_true_2; [done|].
    split; [|split; [by apply shouldDeleteObject_true|done]].
    apply list_elem_of_filter. split; [done|]. apply elem_of_elements, elem_of_dom.
    destruct Hexpired as (data & _ & _ & Hget & _).
    unfold CloudObject.GetObject in Hget. destruct (CloudObject.get_error F key); [done|].
    by exists data.
Qed.

Lemma cleanup_deletes_only_expired_witness :
  ∃ bucket', @CloudObject.cleanup GoLibImpl.lib one_second flaky time3 sample_bucket
             = (bucket', None) ∧ ∀ key,
    (bucket' !! key = None ∨ bucket' !! key = sample_bucket !! key)
    ∧ (is_Some (sample_bucket !! key) → bucket' !! key = None →
         ∃ data s t, CloudObject.GetObject flaky sample_bucket key = Some data
                   ∧ @FromJSON GoLibImpl.lib data = Some s
                   ∧ @ParseTimestamp GoLibImpl.lib s = Some t
                   ∧ t < time3 - CloudObject.maxAge one_second)
    ∧ (CloudObject.GetObject flaky sample_bucket key = None
       ∨ (∃ data, CloudObject.GetObject flaky sample_bucket key = Some data
                ∧ (@FromJSON GoLibImpl.lib data = None
                   ∨ ∃ s, @FromJSON GoLibImpl.lib data = Some s
                        ∧ @ParseTimestamp GoLibImpl.lib s = None)) →
       bucket' !! key = sample_bucket !! key)
    ∧ (String.prefix (CloudObject.prefix one_second) key = true →
       (∃ data s t, CloudObject.GetObject flaky sample_bucket key = Some data
                  ∧ @FromJSON GoLibImpl.lib data = Some s
                  ∧ @ParseTimestamp GoLibImpl.lib s = Some t
                  ∧ t < time3 - CloudObject.maxAge one_second) →
       CloudObject.delete_error flaky key = false →
       bucket' !! key = None).
Proof.
  apply (@cleanup_deletes_only_expired GoLibImpl.lib one_second flaky time3 sample_bucket).
  - simpl. lia.
  - reflexivity.
Defined.

(** The pass on the sample bucket: only the expired snapshot that could
    be fetched and deleted is gone; the recent one, the undecodable one,
    the one whose fetch failed and the one whose delete failed remain. *)
Example cleanup_pass_sample :
  (@CloudObject.cleanup GoLibImpl.lib one_second flaky time3 sample_bucket).1
  = delete "snapshots/a.json"%string sample_bucket.
Proof. vm_compute. reflexivity. Qed.

(** ** DatabaseStorage: the table the statements name *)

Lemma take_name_stops (name rest : string) :
  plain_name name = true →
  match rest with String c _ => Database.is_name_char c | EmptyString => false end = false →
  Database.take_name (name +:+ rest) = name.
Proof.
  intros Hplain Hc. induction name as [|a name IH].
  - change (Database.take_name rest = ""%string). destruct rest as [|c rest]; [done|].
    simpl. by rewrite Hc.
  - change (Database.take_name (String a (name +:+ rest)) = String a name).
    simpl in Hplain. apply andb_true_iff in Hplain as [Ha Hplain]. simpl.
    rewrite Ha. f_equal. by apply IH.
Qed.

Lemma createSQL_table (driver name : string) :
  plain_name name = true →
  Database.table_after "CREATE TABLE IF NOT EXISTS " (Database.createSQL driver name)
  = Some name.
Proof.
  intros Hplain. unfold Database.createSQL.
  destruct (String.eqb driver "postgres"); [|destruct (String.eqb driver "mysql")];
    match goal with
    | |- Database.table_after _ (_ +:+ name +:+ ?rest) = _ =>
        transitivity (Some (Database.take_name (name +:+ rest))); [reflexivity|];
        f_equal; by apply take_name_stops
    end.
Qed.

Lemma insert_query_table (driver : string) :
  Database.table_after "INSERT INTO " (Database.insert_query driver)
  = Some "inspectd_snapshots"%string.
Proof.
  unfold Database.insert_query.
  destruct (String.eqb driver "postgres"); [|destruct (String.eqb driver "mysql")];
    by vm_compute.
Qed.

Lemma Query_sql_prefix (d : Database.DatabaseStorage) (opts : option QueryOptions) :
  ∃ tail, (Database.Query_sql d opts).1
          = "SELECT data FROM inspectd_snapshots WHERE 1=1" +:+ tail.
Proof.
  unfold Database.Query_sql.
  destruct (StartTime _), (EndTime _); cbv beta iota zeta;
    destruct (String.eqb (Database.driver d) "postgres");
    destruct (bool_decide (OrderBy_ _ = OrderByTimeAsc));
    destruct (bool_decide (Limit _ > 0)); cbv beta iota zeta;
    rewrite ?string_app_assoc; by eexists.
Qed.

Lemma Query_sql_table (d : Database.DatabaseStorage) (opts : option QueryOptions) :
  Database.table_after "SELECT data FROM " (Database.Query_sql d opts).1
  = Some "inspectd_snapshots"%string.
Proof. destruct (Query_sql_prefix d opts) as [tail ->]. reflexivity. Qed.

Lemma identifier_char_is_name_char (c : ascii) :
  is_identifier_char c = true → Database.is_name_char c = true.
Proof. destruct c as [[] [] [] [] [] [] [] []]; by vm_compute. Qed.

Lemma regular_name_plain (name : string) :
  regular_name name = true → plain_name name = true ∧ name ≠ ""%string.
Proof.
  unfold regular_name. intros [Hne Hall]%andb_true_iff. split.
  - clear Hne. induction name as [|c name IH]; [done|]. simpl in *.
    apply andb_true_iff in Hall as [Hc Hall].
    by rewrite identifier_char_is_name_char, IH.
  - intros ->. done.
Qed.

Section TableFacts.
Context `{GoLib}.

Lemma Store_hands (d : Database.DatabaseStorage) (F : Database.Faults) (db : Database.DB)
    (s : Snapshot) :
  Database.executed (Database.Store d F db s).1
  = Database.executed db
    ++ (if row_of s is Some _ then [Database.insert_query (Database.driver d)] else []).
Proof.
  unfold Database.Store, row_of.
  destruct (ParseTimestamp s); simpl; [|by rewrite app_nil_r].
  destruct (ToJSON s); simpl; [|by rewrite app_nil_r].
  by destruct (Database.exec_error F _ _).
Qed.

Lemma StoreBatch_hands (d : Database.DatabaseStorage) (F : Database.Faults)
    (db : Database.DB) (ss : list Snapshot) :
  Database.executed (Database.StoreBatch d F db ss).1
  = Database.executed db
    ++ (if Database.begin_error F then [] else [Database.insert_query (Database.driver d)]).
Proof.
  unfold Database.StoreBatch, Database.tx_Commit, Database.tx_Rollback.
  destruct (Database.begin_error F); [by rewrite app_nil_r|].
  destruct (Database.prepare_error F); [done|].
  destruct (Database.batch_loop F ss []); [done|].
  by destruct (Database.commit_error F).
Qed.

Lemma Query_hands (d : Database.DatabaseStorage)
    (run : Database.DB → string → list Time → option (list (option bytes) * option string))
    (db : Database.DB) (opts : option QueryOptions) :
  Database.executed (Database.Query d run db opts).1
  = Database.executed db ++ [(Database.Query_sql d opts).1].
Proof.
  unfold Database.Query. destruct (Database.Query_sql d opts) as [query args]. simpl.
  by destruct (run db query args) as [[scanned rows_err]|].
Qed.

End TableFacts.

(** C10. Whatever [TableName] the configuration carries, the statements
    [Store], [StoreBatch] and [Query] hand to the engine name the table
    [inspectd_snapshots]: [Store] hands its insert whenever the snapshot
    has a timestamp that parses and an encoding, [StoreBatch] prepares
    the same insert whenever its transaction begins, [Query] always
    hands its select.  The configured name only reaches the
    [CREATE TABLE] statement of [NewDatabaseStorage]; the storage value
    does not keep it.  So with a configured name that is a regular
    identifier other than [inspectd_snapshots] in any letter case, the
    table that is created is not the table that is written and read. *)
Theorem table_name_is_fixed `{GoLib} (config : Database.DatabaseStorageConfig)
    (F : Database.Faults) (db db1 : Database.DB) (d : Database.DatabaseStorage) :
  Database.NewDatabaseStorage config F db = inr (d, db1) →
  d = {| Database.driver := Database.Driver config; Database.dsn := Database.DSN config |}
  ∧ Database.executed db1
    = Database.executed db ++ [Database.createSQL (Database.Driver config) (created_table config)]
  ∧ (plain_name (created_table config) = true →
       Database.table_after "CREATE TABLE IF NOT EXISTS "
         (Database.createSQL (Database.Driver config) (created_table config))
       = Some (created_table config))
  ∧ (∀ F' db' s,
       Database.executed (Database.Store d F' db' s).1
       = Database.executed db'
         ++ (if row_of s is Some _ then [Database.insert_query (Database.driver d)] else []))
  ∧ (∀ F' db' ss,
       Database.executed (Database.StoreBatch d F' db' ss).1
       = Database.executed db'
         ++ (if Database.begin_error F' then []
             else [Database.insert_query (Database.driver d)]))
  ∧ (∀ run db' opts,
       Database.executed (Database.Query d run db' opts).1
       = Database.executed db' ++ [(Database.Query_sql d opts).1])
  ∧ Database.table_after "INSERT INTO " (Database.insert_query (Database.driver d))
    = Some "inspectd_snapshots"%string
  ∧ (∀ opts, Database.table_after "SELECT data FROM " (Database.Query_sql d opts).1
             = Some "inspectd_snapshots"%string)
  ∧ (regular_name (Database.TableName config) = true →
     fold_case (Database.TableName config) ≠ "inspectd_snapshots"%string →
       Database.table_after "CREATE TABLE IF NOT EXISTS "
         (Database.createSQL (Database.Driver config) (created_table config))
       = Some (Database.TableName config)
       ∧ different_tables
           (Database.table_after "CREATE TABLE IF NOT EXISTS "
              (Database.createSQL (Database.Driver config) (created_table config)))
           (Database.table_after "INSERT INTO " (Database.insert_query (Database.driver d)))
       ∧ ∀ opts, different_tables
                   (Database.table_after "CREATE TABLE IF NOT EXISTS "
                      (Database.createSQL (Database.Driver config) (created_table config)))
                   (Database.table_after "SELECT data FROM " (Database.Query_sql d opts).1)).
Proof.
  intros Hnew. unfold Database.NewDatabaseStorage in Hnew.
  destruct (String.eqb (Database.Driver config) ""); [done|].
  destruct (String.eqb (Database.DSN config) ""); [done|].
  destruct (Database.open_error F); [done|].
  unfold Database.createTable in Hnew. simpl in Hnew.
  destruct (Database.create_error F); [done|].
  injection Hnew as <- <-. fold (created_table config).
  split; [done|]. split; [done|].
  split; [apply createSQL_table|].
  split; [intros; apply Store_hands|].
  split; [intros; apply StoreBatch_hands|].
  split; [intros; apply Query_hands|].
  split; [apply insert_query_table|].
  split; [intros; apply Query_sql_table|].
  intros Hregular Hother. apply regular_name_plain in Hregular as [Hplain Hnonempty].
  assert (Hcreated : created_table config = Database.TableName config).
  { unfold created_table. destruct (String.eqb_spec (Database.TableName config) ""); done. }
  rewrite Hcreated, createSQL_table by done.
  split; [done|]. split.
  - eexists _, _. split; [done|]. split; [apply insert_query_table|done].
  - intros opts. eexists _, _. split; [done|]. split; [apply Query_sql_table|done].
Qed.

Lemma table_name_is_fixed_witness :
  ∃ d db1,
    Database.NewDatabaseStorage metrics_config no_faults empty_db = inr (d, db1)
    ∧ Database.executed db1 = [Database.createSQL "postgres" "metrics"]
    ∧ Database.table_after "CREATE TABLE IF NOT EXISTS " (Database.createSQL "postgres" "metrics")
      = Some "metrics"%string
    ∧ Database.executed (@Database.Store GoLibImpl.lib d no_faults db1 t1).1
      = [Database.createSQL "postgres" "metrics";
         "INSERT INTO inspectd_snapshots (timestamp, data) VALUES ($1, $2::jsonb)"%string]
    ∧ different_tables
        (Database.table_after "CREATE TABLE IF NOT EXISTS "
           (Database.createSQL "postgres" "metrics"))
        (Database.table_after "INSERT INTO " (Database.insert_query (Database.driver d))).
Proof.
  eexists _, _. split; [reflexivity|].
  destruct (@table_name_is_fixed GoLibImpl.lib metrics_config no_faults empty_db _ _ eq_refl)
    as (_ & Hcreate & _ & Hstore & _ & _ & _ & _ & Hdiffer).
  destruct Hdiffer as (Hname & Hinsert & _); [reflexivity|by vm_compute|].
  split; [exact Hcreate|]. split; [exact Hname|]. split; [|exact Hinsert].
  rewrite Hstore. reflexivity.
Defined.

(** A configured name that is not the default and yet creates the table
    that is read and written: the default followed by a blank, under the
    [mysql] driver, whose statement of construction holds the name once
    and reads [CREATE TABLE IF NOT EXISTS inspectd_snapshots  (...]. *)
Lemma table_name_with_trailing_blank :
  Database.TableName trailing_blank_config ≠ ""%string
  ∧ Database.TableName trailing_blank_config ≠ "inspectd_snapshots"%string
  ∧ ∃ d db1 rest,
      Database.NewDatabaseStorage trailing_blank_config no_faults empty_db = inr (d, db1)
      ∧ Database.executed db1
        = [Database.createSQL "mysql" (Database.TableName trailing_blank_config)]
      ∧ Database.createSQL "mysql" (Database.TableName trailing_blank_config)
        = ("
			CREATE TABLE IF NOT EXISTS inspectd_snapshots  (" +:+ rest)%string
      ∧ Database.table_after "CREATE TABLE IF NOT EXISTS "
          (Database.createSQL "mysql" (Database.TableName trailing_blank_config))
        = Some "inspectd_snapshots"%string
      ∧ Database.table_after "INSERT INTO " (Database.insert_query (Database.driver d))
        = Some "inspectd_snapshots"%string
      ∧ Database.table_after "SELECT data FROM " (Database.Query_sql d None).1
        = Some "inspectd_snapshots"%string.
Proof.
  split; [done|]. split; [done|].
  eexists _, _, _. split; [reflexivity|]. split; [reflexivity|].
  split; [vm_compute; reflexivity|]. split; [by vm_compute|]. split; by vm_compute.
Qed.

(** With the table name [metrics] configured: the statement of
    construction creates [metrics], the statement of [Store] inserts
    into [inspectd_snapshots]. *)
Example Store_writes_default_table :
  Database.table_after "CREATE TABLE IF NOT EXISTS "
    (Database.createSQL "postgres" "metrics") = Some "metrics"%string
  ∧ Database.executed
      (@Database.Store GoLibImpl.lib
         {| Database.driver := "postgres"; Database.dsn := "postgres://localhost/inspectd" |}
         no_faults empty_db t1).1
    = ["INSERT INTO inspectd_snapshots (timestamp, data) VALUES ($1, $2::jsonb)"%string].
Proof. split; by vm_compute. Qed.

(** * Further properties of the storage layer *)

(** ** BoundedMemoryStorage: the ring *)

Lemma drop_app_short {A} (n : nat) (xs ys : list A) :
  (n ≤ length xs)%nat → drop n (xs ++ ys) = drop n xs ++ ys.
Proof. intros Hn. by rewrite drop_app, (proj2 (Nat.sub_0_le _ _) Hn). Qed.

(** One [Store]: the oldest snapshot goes when the store is full. *)
Lemma Store_last (m : BoundedMemory.BoundedMemoryStorage) (s : Snapshot) :
  0 < BoundedMemory.maxSize m →
  BoundedMemory.Store m s =
    Some {| BoundedMemory.snapshots :=
              drop (Z.to_nat (if bool_decide (len (BoundedMemory.snapshots m)
                                               >= BoundedMemory.maxSize m) then 1 else 0))
                   (BoundedMemory.snapshots m) ++ [s];
            BoundedMemory.maxSize := BoundedMemory.maxSize m |}.
Proof.
  intros Hpos. unfold BoundedMemory.Store.
  destruct (bool_decide (len (BoundedMemory.snapshots m) >= BoundedMemory.maxSize m)) eqn:Hfull.
  - apply bool_decide_eq_true in Hfull.
    rewrite slice_from_in_range by lia. done.
  - done.
Qed.

Lemma StoreAll_last (m : BoundedMemory.BoundedMemoryStorage) (ss : list Snapshot) :
  0 < BoundedMemory.maxSize m →
  len (BoundedMemory.snapshots m) ≤ BoundedMemory.maxSize m →
  BoundedMemory.StoreAll m ss =
    Some {| BoundedMemory.snapshots :=
              drop (Z.to_nat (len (BoundedMemory.snapshots m ++ ss) - BoundedMemory.maxSize m))
                   (BoundedMemory.snapshots m ++ ss);
            BoundedMemory.maxSize := BoundedMemory.maxSize m |}.
Proof.
  intros Hpos Hwf. induction ss as [|s ss IH] using rev_ind.
  - simpl. rewrite app_nil_r.
    replace (Z.to_nat _) with 0%nat by lia. by destruct m.
  - rewrite StoreAll_app, IH. simpl.
    set (all := BoundedMemory.snapshots m ++ ss) in *.
    set (N := BoundedMemory.maxSize m) in *.
    assert (Hall : 0 ≤ len all) by apply len_nonneg.
    rewrite Store_last by done. simpl. f_equal. f_equal.
    rewrite app_assoc. fold all. rewrite len_app. change (len [s]) with 1.
    assert (Hd : len (drop (Z.to_nat (len all - N)) all) = Z.min (len all) N).
    { unfold len in *. rewrite length_drop. lia. }
    rewrite Hd.
    destruct (bool_decide (Z.min (len all) N >= N)) eqn:Hfull.
    + apply bool_decide_eq_true in Hfull.
      rewrite drop_drop, drop_app_short by (unfold len in *; lia).
      do 2 f_equal. lia.
    + apply bool_decide_eq_false in Hfull.
      replace (Z.to_nat (len all - N)) with 0%nat by lia.
      replace (Z.to_nat (len all + 1 - N)) with 0%nat by lia. done.
Qed.

Lemma StoreAll_count (m m' : BoundedMemory.BoundedMemoryStorage) (ss : list Snapshot) :
  0 < BoundedMemory.maxSize m →
  BoundedMemory.Count m ≤ BoundedMemory.maxSize m →
  BoundedMemory.StoreAll m ss = Some m' →
  BoundedMemory.maxSize m' = BoundedMemory.maxSize m
  ∧ BoundedMemory.Count m' = Z.min (BoundedMemory.maxSize m) (BoundedMemory.Count m + len ss).
Proof.
  intros Hpos Hwf. rewrite StoreAll_last by done. intros [= <-]. split; [done|].
  unfold BoundedMemory.Count in *. simpl.
  pose proof (len_nonneg (BoundedMemory.snapshots m)).
  pose proof (len_nonneg ss).
  rewrite <- len_app. unfold len in *. rewrite length_drop. lia.
Qed.

Lemma StoreBatch_fits (m : BoundedMemory.BoundedMemoryStorage) (batch : list Snapshot) :
  0 < BoundedMemory.maxSize m →
  BoundedMemory.Count m ≤ BoundedMemory.maxSize m →
  len batch ≤ BoundedMemory.maxSize m →
  BoundedMemory.StoreBatch m batch = BoundedMemory.StoreAll m batch.
Proof.
  unfold BoundedMemory.Count. intros Hpos Hwf Hfit.
  rewrite StoreBatch_closed_form, StoreAll_last by done. do 2 f_equal.
  pose proof (len_nonneg (BoundedMemory.snapshots m)).
  pose proof (len_nonneg batch).
  rewrite len_app, drop_app_short by (unfold len in *; lia).
  do 2 f_equal. lia.
Qed.

(** X1. [BoundedMemoryStorage.Store] is first in, first out: on a store
    that holds at most [maxSize] snapshots, any number of successive
    [Store] calls succeed and leave the last [maxSize] of everything
    stored so far (the old content, then the new snapshots), in
    insertion order. *)
Theorem Store_is_fifo (m : BoundedMemory.BoundedMemoryStorage) (ss : list Snapshot) :
  0 < BoundedMemory.maxSize m →
  BoundedMemory.Count m ≤ BoundedMemory.maxSize m →
  ∃ m', BoundedMemory.StoreAll m ss = Some m'
    ∧ BoundedMemory.maxSize m' = BoundedMemory.maxSize m
    ∧ BoundedMemory.snapshots m'
      = drop (Z.to_nat (len (BoundedMemory.snapshots m ++ ss) - BoundedMemory.maxSize m))
             (BoundedMemory.snapshots m ++ ss)
    ∧ BoundedMemory.Count m'
      = Z.min (BoundedMemory.maxSize m) (BoundedMemory.Count m + len ss).
Proof.
  intros Hpos Hwf. eexists. split; [by apply StoreAll_last|].
  split; [done|]. split; [done|].
  eapply StoreAll_count; [done..|by apply StoreAll_last].
Qed.

Lemma Store_is_fifo_witness :
  ∃ m', BoundedMemory.StoreAll
          {| BoundedMemory.snapshots := [t1]; BoundedMemory.maxSize := 2 |} [t2; t3; unparseable]
        = Some m'
    ∧ BoundedMemory.maxSize m' = 2
    ∧ BoundedMemory.snapshots m' = [t3; unparseable]
    ∧ BoundedMemory.Count m' = 2.
Proof.
  apply (Store_is_fifo {| BoundedMemory.snapshots := [t1]; BoundedMemory.maxSize := 2 |}
           [t2; t3; unparseable]); [by vm_compute | by vm_compute].
Defined.

(** X2. A batch that fits the capacity is stored exactly as its
    snapshots stored one by one: on a store that holds at most [maxSize]
    snapshots, [StoreBatch] with [len(batch) <= maxSize] succeeds and
    gives the store that successive [Store] calls give, which holds
    [min(maxSize, count + len(batch))] snapshots. *)
Theorem StoreBatch_is_successive_Store (m : BoundedMemory.BoundedMemoryStorage)
    (batch : list Snapshot) :
  0 < BoundedMemory.maxSize m →
  BoundedMemory.Count m ≤ BoundedMemory.maxSize m →
  len batch ≤ BoundedMemory.maxSize m →
  ∃ m', BoundedMemory.StoreBatch m batch = Some m'
    ∧ BoundedMemory.StoreAll m batch = Some m'
    ∧ BoundedMemory.Count m'
      = Z.min (BoundedMemory.maxSize m) (BoundedMemory.Count m + len batch).
Proof.
  intros Hpos Hwf Hfit. rewrite StoreBatch_fits by done.
  eexists. split; [by apply StoreAll_last|]. split; [by apply StoreAll_last|].
  eapply StoreAll_count; [done..|by apply StoreAll_last].
Qed.

Lemma StoreBatch_is_successive_Store_witness :
  ∃ m', BoundedMemory.StoreBatch
          {| BoundedMemory.snapshots := [t1; t2]; BoundedMemory.maxSize := 3 |} [t3; unparseable]
        = Some m'
    ∧ BoundedMemory.StoreAll
          {| BoundedMemory.snapshots := [t1; t2]; BoundedMemory.maxSize := 3 |} [t3; unparseable]
      = Some m'
    ∧ BoundedMemory.Count m' = Z.min 3 (2 + 2).
Proof.
  apply (StoreBatch_is_successive_Store
           {| BoundedMemory.snapshots := [t1; t2]; BoundedMemory.maxSize := 3 |}
           [t3; unparseable]); [by vm_compute | by vm_compute | by vm_compute].
Defined.

Lemma call_invariant (m : BoundedMemory.BoundedMemoryStorage) (c : BoundedMemoryOps.Call) :
  0 < BoundedMemory.maxSize m →
  BoundedMemory.Count m ≤ BoundedMemory.maxSize m →
  match c with
  | BoundedMemoryOps.CallStoreBatch batch => len batch ≤ BoundedMemory.maxSize m
  | _ => True
  end →
  ∃ m', BoundedMemoryOps.call m c = Some m'
    ∧ BoundedMemory.maxSize m' = BoundedMemory.maxSize m
    ∧ BoundedMemory.Count m' ≤ BoundedMemory.maxSize m.
Proof.
  intros Hpos Hwf Hc.
  destruct c as [s|batch| |]; simpl.
  - pose proof (StoreAll_last m [s] Hpos Hwf) as HS. simpl in HS.
    destruct (BoundedMemory.Store m s) as [m1|] eqn:HStore; [|done].
    exists m1. split; [done|].
    destruct (StoreAll_count m m1 [s] Hpos Hwf) as [Hmax Hcount]; [by simpl; rewrite HStore|].
    split; [done|]. lia.
  - rewrite StoreBatch_fits by done.
    rewrite StoreAll_last by done. eexists. split; [done|].
    edestruct (StoreAll_count m) as [Hmax Hcount]; [done..|by apply StoreAll_last|].
    split; [done|]. rewrite Hcount. lia.
  - unfold BoundedMemoryOps.Clear.
    rewrite slice_to_in_range by (pose proof (len_nonneg (BoundedMemory.snapshots m)); lia).
    simpl. eexists. split; [done|]. split; [done|].
    unfold BoundedMemory.Count, len. simpl. lia.
  - eexists. split; [done|]. split; [done|].
    unfold BoundedMemory.Count, len. simpl. lia.
Qed.

Lemma calls_invariant (cs : list BoundedMemoryOps.Call) :
  ∀ m : BoundedMemory.BoundedMemoryStorage,
    0 < BoundedMemory.maxSize m →
    BoundedMemory.Count m ≤ BoundedMemory.maxSize m →
    BoundedMemoryOps.batches_within (BoundedMemory.maxSize m) cs →
    ∃ m', BoundedMemoryOps.calls m cs = Some m'
      ∧ BoundedMemory.maxSize m' = BoundedMemory.maxSize m
      ∧ BoundedMemory.Count m' ≤ BoundedMemory.maxSize m.
Proof.
  induction cs as [|c cs IH]; intros m Hpos Hwf Hcs.
  - by exists m.
  - apply Forall_cons in Hcs as [Hc Hcs].
    destruct (call_invariant m c Hpos Hwf) as (m1 & Hcall & Hmax & Hcount).
    { by destruct c. }
    simpl. rewrite Hcall. simpl.
    destruct (IH m1) as (m' & Hcalls & Hmax' & Hcount'); [lia|lia|by rewrite Hmax|].
    exists m'. split; [done|]. split; [congruence|]. lia.
Qed.

Lemma batches_within_take (bound : Z) (cs : list BoundedMemoryOps.Call) (k : nat) :
  BoundedMemoryOps.batches_within bound cs →
  BoundedMemoryOps.batches_within bound (take k cs).
Proof. apply Forall_take. Qed.

(** X3. The capacity is an invariant of the bounded store.  On a store
    with a positive capacity that holds no more snapshots than it, at
    every point of a sequence of [Store], [StoreBatch], [Clear] and
    [Close] calls whose batches are no larger than the capacity, no
    slice expression has gone out of range, [MaxSize] is what it was and
    [Count] lies between [0] and [MaxSize].  The snapshots of the calls
    are values: a [nil] pointer is not among them. *)
Theorem calls_keep_the_capacity (m : BoundedMemory.BoundedMemoryStorage)
    (cs : list BoundedMemoryOps.Call) (k : nat) :
  0 < BoundedMemoryOps.MaxSize m →
  BoundedMemory.Count m ≤ BoundedMemoryOps.MaxSize m →
  BoundedMemoryOps.batches_within (BoundedMemoryOps.MaxSize m) cs →
  ∃ m', BoundedMemoryOps.calls m (take k cs) = Some m'
      ∧ BoundedMemoryOps.MaxSize m' = BoundedMemoryOps.MaxSize m
      ∧ 0 ≤ BoundedMemory.Count m' ≤ BoundedMemoryOps.MaxSize m'.
Proof.
  intros Hpos Hwf Hcs.
  destruct (calls_invariant (take k cs) m Hpos Hwf) as (m' & Hcalls & Hmax & Hcount).
  { by apply batches_within_take. }
  exists m'. split; [done|]. unfold BoundedMemoryOps.MaxSize in *. rewrite Hmax.
  split; [done|]. split; [apply len_nonneg|done].
Qed.

Lemma calls_keep_the_capacity_witness :
  ∃ m', BoundedMemoryOps.calls
          {| BoundedMemory.snapshots := [t1]; BoundedMemory.maxSize := 2 |}
          (take 5 [BoundedMemoryOps.CallStore t1; BoundedMemoryOps.CallStoreBatch [t2; t3];
                   BoundedMemoryOps.CallClear; BoundedMemoryOps.CallStore unparseable;
                   BoundedMemoryOps.CallClose; BoundedMemoryOps.CallStoreBatch [t1]])
        = Some m'
      ∧ BoundedMemoryOps.MaxSize m' = 2
      ∧ 0 ≤ BoundedMemory.Count m' ≤ BoundedMemoryOps.MaxSize m'.
Proof.
  apply (calls_keep_the_capacity
           {| BoundedMemory.snapshots := [t1]; BoundedMemory.maxSize := 2 |}
           [BoundedMemoryOps.CallStore t1; BoundedMemoryOps.CallStoreBatch [t2; t3];
            BoundedMemoryOps.CallClear; BoundedMemoryOps.CallStore unparseable;
            BoundedMemoryOps.CallClose; BoundedMemoryOps.CallStoreBatch [t1]] 5).
  - by vm_compute.
  - by vm_compute.
  - unfold BoundedMemoryOps.batches_within. repeat constructor; by vm_compute.
Defined.

(** ** Queries: limit and order *)

Section ResultFacts.
Context `{GoLib} `{!GoLibSpec}.

Lemma sort_in_order (orderBy : OrderBy) (xs : list Snapshot) :
  in_order orderBy (sort_Slice (less_by orderBy) xs).
Proof.
  unfold in_order. case_bool_decide.
  - by apply sort_ascending.
  - by apply sort_descending.
Qed.

Lemma len_Permutation {A} (xs ys : list A) : xs ≡ₚ ys → len xs = len ys.
Proof. intros Hp. unfold len. by rewrite Hp. Qed.

(** The part common to every backend: the limit applied to the sorted
    matches gives their head. *)
Lemma first_matches_core (opts : QueryOptions) (matches : list Snapshot) :
  ∃ r, apply_limit opts (sort_Slice (less_by (OrderBy_ opts)) matches) = Some r
     ∧ first_matches opts matches r.
Proof.
  rewrite apply_limit_total. eexists. split; [done|].
  set (sorted := sort_Slice (less_by (OrderBy_ opts)) matches).
  assert (Hperm : sorted ≡ₚ matches) by apply sort_Slice_perm.
  assert (Hlen : len sorted = len matches) by by apply len_Permutation.
  pose proof (len_nonneg matches) as Hnn.
  unfold first_matches, limited.
  destruct (bool_decide (Limit opts > 0 ∧ len sorted > Limit opts)) eqn:Hcut.
  - apply bool_decide_eq_true in Hcut as [Hpos Hmore].
    exists (drop (Z.to_nat (Limit opts)) sorted). rewrite take_drop.
    split; [done|]. split; [apply sort_in_order|].
    rewrite bool_decide_eq_true_2 by done.
    unfold len in *. rewrite length_take. lia.
  - apply bool_decide_eq_false in Hcut.
    exists []. rewrite app_nil_r. split; [done|]. split; [apply sort_in_order|].
    case_bool_decide; lia.
Qed.

Lemma keep_unbounded (opts : QueryOptions) (s : Snapshot) :
  StartTime opts = None → EndTime opts = None →
  keep opts s ↔ is_Some (ParseTimestamp s).
Proof.
  intros Hs He. unfold keep, before_start, after_end. rewrite Hs, He.
  destruct (ParseTimestamp s); simpl; [|split; [done|by intros [? ?]]].
  split; [by eexists|done].
Qed.

Lemma filter_keep_unbounded (opts : QueryOptions) (stored : list Snapshot) :
  StartTime opts = None → EndTime opts = None →
  filter (keep opts) stored = parseable stored.
Proof.
  intros Hs He. unfold parseable. apply filter_ext_in. intros s _.
  by apply keep_unbounded.
Qed.

(** The descriptor [QueryRecent] builds. *)
Lemma newest_core (limit : Z) (stored : list Snapshot) :
  let opts := {| StartTime := None; EndTime := None; Limit := limit;
                 OrderBy_ := OrderByTimeDesc |} in
  ∃ r, apply_limit opts (sort_Slice (less_by (OrderBy_ opts)) (filter (keep opts) stored))
       = Some r
     ∧ newest limit stored r.
Proof.
  intros opts.
  destruct (first_matches_core opts (filter (keep opts) stored)) as (r & Hr & rest & Hp & Ho & Hl).
  exists r. split; [done|]. exists rest.
  rewrite filter_keep_unbounded in Hp, Hl by done. done.
Qed.

End ResultFacts.

(** X4. Every in-process backend answers a query with the head of the
    matches in the requested order: the result, followed by the matches
    the limit cut off, is a rearrangement of the snapshots that pass the
    time filter (none lost, none repeated) and is in order; the result
    holds [min(Limit, matches)] snapshots when [Limit > 0] and all of
    them when [Limit <= 0]. *)
Theorem Query_returns_the_first_matches `{GoLib} `{!GoLibSpec} (opts : QueryOptions) :
  (∀ m, ∃ r, BoundedMemory.Query m (Some opts) = Some r
           ∧ first_matches opts (filter (keep opts) (BoundedMemory.snapshots m)) r)
  ∧ (∀ m, ∃ r, Memory.Query m (Some opts) = Some r
             ∧ first_matches opts (filter (keep opts) (Memory.snapshots m)) r)
  ∧ (∀ f fs entries, os_ReadDir fs (File.baseDir f) = Some entries →
       ∃ r, File.Query f fs (Some opts) = Some (inr r)
          ∧ first_matches opts (filter (keep opts) (dir_snapshots entries)) r)
  ∧ (∀ c F bucket keys, CloudObject.ListObjects F bucket (CloudObject.prefix c) = Some keys →
       ∃ r, CloudObject.Query c F bucket (Some opts) = Some (inr r)
          ∧ first_matches opts (filter (keep opts) (bucket_snapshots F bucket keys)) r).
Proof.
  split; [|split; [|split]].
  - intros m. rewrite BoundedMemory_Query_closed_form. apply first_matches_core.
  - intros m. rewrite Memory_Query_closed_form. apply first_matches_core.
  - intros f fs entries Hdir. rewrite (File_Query_closed_form _ _ _ _ Hdir). simpl.
    destruct (first_matches_core opts (filter (keep opts) (dir_snapshots entries)))
      as (r & -> & Hr).
    by exists r.
  - intros c F bucket keys Hkeys. rewrite (CloudObject_Query_closed_form _ _ _ _ _ Hkeys).
    simpl.
    destruct (first_matches_core opts (filter (keep opts) (bucket_snapshots F bucket keys)))
      as (r & -> & Hr).
    by exists r.
Qed.

Lemma Query_returns_the_first_matches_witness :
  ∃ r, @BoundedMemory.Query GoLibImpl.lib three_stored
         (Some {| StartTime := Some time2; EndTime := None; Limit := 1;
                  OrderBy_ := OrderByTimeDesc |}) = Some r
     ∧ r = [t3]
     ∧ @first_matches GoLibImpl.lib
         {| StartTime := Some time2; EndTime := None; Limit := 1; OrderBy_ := OrderByTimeDesc |}
         [t3; t2] r.
Proof.
  destruct (@Query_returns_the_first_matches GoLibImpl.lib GoLibImpl_spec
              {| StartTime := Some time2; EndTime := None; Limit := 1;
                 OrderBy_ := OrderByTimeDesc |}) as (Hbounded & _).
  destruct (Hbounded three_stored) as (r & Hq & Hfirst).
  exists r. split; [exact Hq|].
  assert (Hr : r = [t3]).
  { vm_compute in Hq. by injection Hq as <-. }
  split; [exact Hr|exact Hfirst].
Defined.

(** X5. A descriptor whose order field holds anything but
    [OrderByTimeAsc] ([OrderByTimeDesc], or any other integer) gets its
    results newest first from every backend; the database backend asks
    the engine for [ORDER BY timestamp DESC]. *)
Theorem Query_other_order_is_descending `{GoLib} `{!GoLibSpec} (opts : QueryOptions) :
  OrderBy_ opts ≠ OrderByTimeAsc →
  (∀ m, ∃ r, BoundedMemory.Query m (Some opts) = Some r ∧ descending r)
  ∧ (∀ m, ∃ r, Memory.Query m (Some opts) = Some r ∧ descending r)
  ∧ (∀ f fs r, File.Query f fs (Some opts) = Some (inr r) → descending r)
  ∧ (∀ c F bucket r, CloudObject.Query c F bucket (Some opts) = Some (inr r) → descending r)
  ∧ (∀ d, ∃ before after,
       (Database.Query_sql d (Some opts)).1 = before +:+ " ORDER BY timestamp DESC" +:+ after).
Proof.
  intros Hset.
  assert (Hcore : ∀ xs r,
            apply_limit opts (sort_Slice (less_by (OrderBy_ opts)) xs) = Some r → descending r).
  { intros xs r Hr. eapply apply_limit_sorted; [|exact Hr]. by apply sort_descending. }
  repeat split.
  - intros m. rewrite BoundedMemory_Query_closed_form. simpl.
    rewrite apply_limit_total. eexists. split; [done|].
    eapply Hcore. apply apply_limit_total.
  - intros m. rewrite Memory_Query_closed_form. simpl.
    rewrite apply_limit_total. eexists. split; [done|].
    eapply Hcore. apply apply_limit_total.
  - intros f fs r. unfold File.Query.
    destruct (os_ReadDir fs (File.baseDir f)) as [entries|]; [|done].
    unfold sortSnapshots. simpl.
    destruct (apply_limit _ _) as [r'|] eqn:Hr; [|done].
    intros [= <-]. by eapply Hcore.
  - intros c F bucket r. unfold CloudObject.Query.
    destruct (CloudObject.ListObjects F bucket (CloudObject.prefix c)) as [keys|]; [|done].
    unfold sortSnapshots. simpl.
    destruct (apply_limit _ _) as [r'|] eqn:Hr; [|done].
    intros [= <-]. by eapply Hcore.
  - intros d. unfold Database.Query_sql.
    destruct (StartTime opts), (EndTime opts); cbv beta iota zeta;
      rewrite (bool_decide_eq_false_2 _ Hset); cbv beta iota zeta;
      (destruct (bool_decide (Limit opts > 0)); cbv beta iota zeta;
       [eexists _, _; apply string_app_assoc
       |eexists _, ""; by rewrite string_app_nil_r]).
Qed.

Lemma Query_other_order_is_descending_witness :
  ∃ r, @BoundedMemory.Query GoLibImpl.lib three_stored
         (Some {| StartTime := None; EndTime := None; Limit := 0; OrderBy_ := 7 |}) = Some r
     ∧ r = [t3; t2; t1]
     ∧ @descending GoLibImpl.lib r.
Proof.
  destruct (@Query_other_order_is_descending GoLibImpl.lib GoLibImpl_spec
              {| StartTime := None; EndTime := None; Limit := 0; OrderBy_ := 7 |})
    as (Hbounded & _); [by vm_compute|].
  destruct (Hbounded three_stored) as (r & Hq & Hdesc).
  exists r. split; [exact Hq|].
  assert (Hr : r = [t3; t2; t1]).
  { vm_compute in Hq. by injection Hq as <-. }
  split; [exact Hr|exact Hdesc].
Defined.

(** ** MemoryStorage *)

Lemma Memory_StoreBatch_app (batch : list Snapshot) :
  ∀ m, Memory.snapshots (Memory.StoreBatch m batch) = Memory.snapshots m ++ batch.
Proof.
  induction batch as [|s batch IH]; intros m; simpl.
  - by rewrite app_nil_r.
  - rewrite IH. simpl. by rewrite <- app_assoc.
Qed.

Lemma GetAll_loop_id (stored : list Snapshot) : MemoryOps.GetAll_loop stored = stored.
Proof. induction stored as [|s stored IH]; simpl; [done|by rewrite IH]. Qed.

(** X6. [MemoryStorage] never drops a snapshot: [StoreBatch] is the
    same as [Store] on each snapshot of the batch in turn, and after it
    [GetAll] returns what it returned before followed by the whole
    batch, in order, with [Count] grown by the size of the batch. *)
Theorem MemoryStorage_keeps_everything (m : Memory.MemoryStorage) (batch : list Snapshot) :
  Memory.StoreBatch m batch = foldl Memory.Store m batch
  ∧ MemoryOps.GetAll (Memory.StoreBatch m batch) = MemoryOps.GetAll m ++ batch
  ∧ MemoryOps.Count (Memory.StoreBatch m batch) = MemoryOps.Count m + len batch.
Proof.
  split; [|split].
  - revert m. induction batch as [|s batch IH]; intros m; simpl; [done|]. apply IH.
  - unfold MemoryOps.GetAll. by rewrite !GetAll_loop_id, Memory_StoreBatch_app.
  - unfold MemoryOps.Count. by rewrite Memory_StoreBatch_app, len_app.
Qed.

(** ** The client's convenience queries *)

(** X7. [Client.QueryRecent(limit)] returns the [limit] newest of the
    stored snapshots whose timestamp parses, newest first, from every
    in-process backend (all of them when [limit <= 0]); on the database
    backend it runs the text [... ORDER BY timestamp DESC], with
    [LIMIT limit] appended when [limit > 0]. *)
Theorem QueryRecent_returns_the_newest `{GoLib} `{!GoLibSpec} (limit : Z) :
  (∀ m, ∃ r, Client.QueryRecent (BoundedMemory.Query m) limit = Some r
           ∧ newest limit (BoundedMemory.snapshots m) r)
  ∧ (∀ m, ∃ r, Client.QueryRecent (Memory.Query m) limit = Some r
             ∧ newest limit (Memory.snapshots m) r)
  ∧ (∀ f fs entries, os_ReadDir fs (File.baseDir f) = Some entries →
       ∃ r, Client.QueryRecent (File.Query f fs) limit = Some (inr r)
          ∧ newest limit (dir_snapshots entries) r)
  ∧ (∀ c F bucket keys, CloudObject.ListObjects F bucket (CloudObject.prefix c) = Some keys →
       ∃ r, Client.QueryRecent (CloudObject.Query c F bucket) limit = Some (inr r)
          ∧ newest limit (bucket_snapshots F bucket keys) r)
  ∧ (∀ d run db,
       Database.executed (Client.QueryRecent (Database.Query d run db) limit).1
       = Database.executed db ++ [recent_sql limit]).
Proof.
  unfold Client.QueryRecent. split; [|split; [|split; [|split]]].
  - intros m. rewrite BoundedMemory_Query_closed_form. apply newest_core.
  - intros m. rewrite Memory_Query_closed_form. apply newest_core.
  - intros f fs entries Hdir. rewrite (File_Query_closed_form _ _ _ _ Hdir). simpl.
    destruct (newest_core limit (dir_snapshots entries)) as (r & Hr & Hnew).
    simpl in Hr. rewrite Hr. by exists r.
  - intros c F bucket keys Hkeys. rewrite (CloudObject_Query_closed_form _ _ _ _ _ Hkeys).
    simpl.
    destruct (newest_core limit (bucket_snapshots F bucket keys)) as (r & Hr & Hnew).
    simpl in Hr. rewrite Hr. by exists r.
  - intros d run db. unfold Database.Query, Database.Query_sql, recent_sql.
    cbv beta iota zeta. simpl.
    destruct (bool_decide (limit > 0)); cbv beta iota zeta;
      [|rewrite string_app_nil_r]; by destruct (run db _ _) as [[? ?]|].
Qed.

Lemma QueryRecent_returns_the_newest_witness :
  ∃ r, Client.QueryRecent (@BoundedMemory.Query GoLibImpl.lib three_stored) 2 = Some r
     ∧ r = [t3; t2]
     ∧ @newest GoLibImpl.lib 2 [t1; t3; unparseable; t2] r.
Proof.
  destruct (@QueryRecent_returns_the_newest GoLibImpl.lib GoLibImpl_spec 2) as (Hbounded & _).
  destruct (Hbounded three_stored) as (r & Hq & Hnew).
  exists r. split; [exact Hq|].
  assert (Hr : r = [t3; t2]).
  { vm_compute in Hq. by injection Hq as <-. }
  split; [exact Hr|exact Hnew].
Defined.

(** X8. [Client.QueryByTimeRange(start, end, limit)] returns, newest
    first, only snapshots whose timestamp lies in [[start, end]], bounds
    included; with [limit <= 0] it returns every such snapshot, and when
    [end] is before [start] it returns nothing. *)
Theorem QueryByTimeRange_is_inclusive `{GoLib} `{!GoLibSpec} (startTime endTime : Time)
    (limit : Z) :
  (∀ m, ∃ r, Client.QueryByTimeRange (BoundedMemory.Query m) startTime endTime limit = Some r
           ∧ range_result limit startTime endTime (BoundedMemory.snapshots m) r
           ∧ descending r)
  ∧ (∀ m, ∃ r, Client.QueryByTimeRange (Memory.Query m) startTime endTime limit = Some r
             ∧ range_result limit startTime endTime (Memory.snapshots m) r
             ∧ descending r)
  ∧ (∀ f fs entries, os_ReadDir fs (File.baseDir f) = Some entries →
       ∃ r, Client.QueryByTimeRange (File.Query f fs) startTime endTime limit = Some (inr r)
          ∧ range_result limit startTime endTime (dir_snapshots entries) r
          ∧ descending r)
  ∧ (∀ c F bucket keys, CloudObject.ListObjects F bucket (CloudObject.prefix c) = Some keys →
       ∃ r, Client.QueryByTimeRange (CloudObject.Query c F bucket) startTime endTime limit
            = Some (inr r)
          ∧ range_result limit startTime endTime (bucket_snapshots F bucket keys) r
          ∧ descending r).
Proof.
  unfold Client.QueryByTimeRange.
  set (opts := {| StartTime := Some startTime; EndTime := Some endTime; Limit := limit;
                  OrderBy_ := OrderByTimeDesc |}).
  assert (Hcore : ∀ stored, ∃ r,
            apply_limit opts (sort_Slice (less_by (OrderBy_ opts)) (filter (keep opts) stored))
            = Some r
            ∧ range_result limit startTime endTime stored r ∧ descending r).
  { intros stored. rewrite apply_limit_total. eexists. split; [done|]. split.
    - apply (range_core opts); [done..|]. apply apply_limit_total.
    - eapply apply_limit_sorted; [|apply apply_limit_total]. by apply sort_descending. }
  split; [|split; [|split]].
  - intros m. rewrite BoundedMemory_Query_closed_form. apply Hcore.
  - intros m. rewrite Memory_Query_closed_form. apply Hcore.
  - intros f fs entries Hdir. rewrite (File_Query_closed_form _ _ _ _ Hdir). simpl.
    destruct (Hcore (dir_snapshots entries)) as (r & Hr & Hrange).
    simpl in Hr. rewrite Hr. by exists r.
  - intros c F bucket keys Hkeys. rewrite (CloudObject_Query_closed_form _ _ _ _ _ Hkeys).
    simpl. destruct (Hcore (bucket_snapshots F bucket keys)) as (r & Hr & Hrange).
    simpl in Hr. rewrite Hr. by exists r.
Qed.

Lemma QueryByTimeRange_is_inclusive_witness :
  ∃ r, Client.QueryByTimeRange (@BoundedMemory.Query GoLibImpl.lib three_stored) time1 time2 0
       = Some r
     ∧ r = [t2; t1]
     ∧ @range_result GoLibImpl.lib 0 time1 time2 [t1; t3; unparseable; t2] r
     ∧ @descending GoLibImpl.lib r.
Proof.
  destruct (@QueryByTimeRange_is_inclusive GoLibImpl.lib GoLibImpl_spec time1 time2 0)
    as (Hbounded & _).
  destruct (Hbounded three_stored) as (r & Hq & Hrange & Hdesc).
  exists r. split; [exact Hq|].
  assert (Hr : r = [t2; t1]).
  { vm_compute in Hq. by injection Hq as <-. }
  split; [exact Hr|]. split; [exact Hrange|exact Hdesc].
Defined.

(** ** ManagedFileStorage: retention in every configuration *)

Lemma filter_sorted_prefix {A} (key : A → Z) (c : Z) (l : list A) :
  StronglySorted (λ a b, key a ≤ key b) l →
  filter (λ x, key x < c) l = take (length (filter (λ x, key x < c) l)) l.
Proof.
  induction l as [|a l IH]; intros Hs; [done|].
  apply StronglySorted_inv in Hs as [Hs Hall].
  rewrite filter_cons. destruct (decide (key a < c)) as [Hlt|Hge].
  - simpl. f_equal. by apply IH.
  - rewrite filter_none; [done|]. intros x Hx Hlt.
    rewrite Forall_forall in Hall. specialize (Hall x Hx). lia.
Qed.

Section CleanupGeneral.
Context `{GoLib} `{!GoLibSpec}.

(** The marks of one cycle are the paths of a prefix of the sorted
    files: the expired ones come first, the excess follows them. *)
Lemma retention_prefix (m : ManagedFile.ManagedFileStorage) (now : Time)
    (files : list ManagedFile.fileInfo) :
  NoDup (ManagedFile.path <$> files) →
  StronglySorted (λ a b, ManagedFile.timestamp a ≤ ManagedFile.timestamp b) files →
  ManagedFile.retention m now files
  = ManagedFile.path <$> take (marked_count m now files) files.
Proof.
  intros Hnd Hsorted. rewrite retention_refines_spec by done.
  unfold retention_in_spec_words, marked_count. cbv zeta.
  set (a := length (expired_files m now files)).
  assert (Haged : age_marks m now files = ManagedFile.path <$> take a files).
  { unfold age_marks, a, expired_files. case_bool_decide; [|done].
    by rewrite <- filter_sorted_prefix. }
  rewrite Haged. unfold count_marks.
  destruct (bool_decide (ManagedFile.maxFiles m > 0)).
  - pose proof (filter_out_prefix ManagedFile.path (take a files) (drop a files)) as Hpre.
    rewrite take_drop in Hpre. rewrite Hpre by done.
    rewrite <- fmap_app. f_equal.
    assert (Hlen : (a ≤ length files)%nat).
    { unfold a, expired_files. case_bool_decide; [apply length_filter|simpl; lia]. }
    replace (Z.to_nat (len (drop a files) - ManagedFile.maxFiles m))
      with (Z.to_nat (len files - Z.of_nat a - ManagedFile.maxFiles m))
      by (unfold len; rewrite length_drop; lia).
    by rewrite take_take_drop.
  - rewrite app_nil_r. by rewrite Nat.add_0_r.
Qed.

Lemma marked_paths_base (m : ManagedFile.ManagedFileStorage) (entries : list DirEntry)
    (n : nat) (p : Path) :
  p ∈ ManagedFile.path <$> take n (ManagedFile.sorted_files m entries) →
  p.1 = ManagedFile.baseDir m.
Proof.
  intros Hp. apply list_elem_of_fmap in Hp as (f & -> & Hf).
  apply subseteq_take in Hf. rewrite sorted_files_perm in Hf.
  apply list_elem_of_fmap in Hf as (e & -> & _). done.
Qed.

Lemma cleanup_survivors (m : ManagedFile.ManagedFileStorage) (now : Time) (fs : FileSystem)
    (entries : list DirEntry) :
  os_ReadDir fs (ManagedFile.baseDir m) = Some entries →
  NoDup (Name <$> entries) →
  ManagedFile.cleanup m now fs
  = (<[ManagedFile.baseDir m := survivors m now entries]> fs, None).
Proof.
  intros Hdir Hnames. unfold ManagedFile.cleanup. rewrite Hdir. cbv zeta.
  rewrite retention_prefix by (by apply sorted_files_NoDup || apply sorted_files_ascending).
  rewrite (os_Remove_all (ManagedFile.baseDir m) _ fs entries Hdir); [done|].
  intros p Hp. by eapply marked_paths_base.
Qed.

Lemma survivors_files (m : ManagedFile.ManagedFileStorage) (now : Time)
    (entries : list DirEntry) :
  NoDup (Name <$> entries) →
  file_of (ManagedFile.baseDir m) <$> snapshot_files (survivors m now entries)
  ≡ₚ drop (marked_count m now (ManagedFile.sorted_files m entries))
          (ManagedFile.sorted_files m entries).
Proof.
  intros Hnames.
  pose proof (sorted_files_NoDup m entries Hnames) as Hnd.
  pose proof (sorted_files_perm m entries) as Hperm.
  unfold survivors. cbv zeta.
  set (base := ManagedFile.baseDir m) in *.
  set (files := ManagedFile.sorted_files m entries) in *.
  set (k := marked_count m now files).
  set (Q := λ e : DirEntry, filepath_Join base (Name e) ∉ (ManagedFile.path <$> take k files)).
  unfold snapshot_files at 1. rewrite list_filter_filter.
  rewrite (list_filter_iff _ (λ e, Q e ∧ not_snapshot_file e = false)) by (intros e; tauto).
  rewrite <- list_filter_filter. fold (snapshot_files entries).
  set (P := λ f : ManagedFile.fileInfo,
              ManagedFile.path f ∉ (ManagedFile.path <$> take k files)).
  assert (Hff : file_of base <$> filter Q (snapshot_files entries)
                = filter P (file_of base <$> snapshot_files entries)).
  { subst P Q. by rewrite filter_fmap. }
  rewrite Hff, <- Hperm.
  apply reflexive_eq.
  pose proof (filter_out_prefix ManagedFile.path (take k files) (drop k files)) as Hpre.
  rewrite take_drop in Hpre. by apply Hpre.
Qed.

Lemma survivors_not_expired (m : ManagedFile.ManagedFileStorage) (now : Time)
    (entries : list DirEntry) (e : DirEntry) :
  NoDup (Name <$> entries) →
  ManagedFile.maxAge m > 0 →
  e ∈ snapshot_files (survivors m now entries) →
  Add_neg now (ManagedFile.maxAge m) ≤ effective_timestamp e.
Proof.
  intros Hnames Hage He.
  pose proof (sorted_files_NoDup m entries Hnames) as Hnd.
  pose proof (sorted_files_ascending m entries) as Hsorted.
  pose proof (survivors_files m now entries Hnames) as Hkept.
  set (base := ManagedFile.baseDir m) in *.
  set (files := ManagedFile.sorted_files m entries) in *.
  set (k := marked_count m now files) in *.
  assert (Hin : file_of base e ∈ drop k files).
  { rewrite <- Hkept. apply list_elem_of_fmap. by exists e. }
  destruct (decide (effective_timestamp e < Add_neg now (ManagedFile.maxAge m)))
    as [Hlt|Hge]; [exfalso|lia].
  set (a := length (expired_files m now files)).
  assert (Hak : (a ≤ k)%nat) by (unfold k, marked_count; cbv zeta; fold a; lia).
  assert (Ha : file_of base e ∈ take a files).
  { unfold a, expired_files. rewrite bool_decide_eq_true_2 by done.
    rewrite <- filter_sorted_prefix by done.
    apply list_elem_of_filter. split; [done|]. by eapply subseteq_drop. }
  assert (Hk : file_of base e ∈ take k files).
  { replace a with (a `min` k)%nat in Ha by lia. rewrite <- take_take in Ha.
    by eapply subseteq_take. }
  apply NoDup_fmap_1 in Hnd. rewrite <- (take_drop k files) in Hnd.
  apply NoDup_app in Hnd as (_ & Hdisj & _). by eapply Hdisj.
Qed.

Lemma expired_count (m : ManagedFile.ManagedFileStorage) (now : Time)
    (entries : list DirEntry) :
  len (expired_files m now (ManagedFile.sorted_files m entries)) + len (unexpired m now entries)
  = len (snapshot_files entries).
Proof.
  pose proof (sorted_files_perm m entries) as Hperm.
  unfold expired_files, unexpired. case_bool_decide as Hage.
  - rewrite (filter_ext_in _
               (λ e, ¬ effective_timestamp e < Add_neg now (ManagedFile.maxAge m)))
      by (intros e _; tauto).
    rewrite len_filter_complement.
    assert (Hlen : len (filter (λ f, ManagedFile.timestamp f
                                     < Add_neg now (ManagedFile.maxAge m))
                          (ManagedFile.sorted_files m entries))
                   = len (filter (λ e, effective_timestamp e
                                       < Add_neg now (ManagedFile.maxAge m))
                            (snapshot_files entries))).
    { unfold len. rewrite Hperm, filter_fmap, length_fmap. done. }
    rewrite Hlen. lia.
  - rewrite filter_all by (intros e _ [? _]; done). unfold len. simpl. lia.
Qed.

Lemma survivors_count (m : ManagedFile.ManagedFileStorage) (now : Time)
    (entries : list DirEntry) :
  NoDup (Name <$> entries) →
  len (snapshot_files (survivors m now entries))
  = limited (ManagedFile.maxFiles m) (len (unexpired m now entries)).
Proof.
  intros Hnames.
  pose proof (Permutation_length (survivors_files m now entries Hnames)) as Hkept.
  pose proof (Permutation_length (sorted_files_perm m entries)) as Hn.
  pose proof (expired_count m now entries) as Hsum.
  rewrite length_fmap in Hn. rewrite length_fmap, length_drop in Hkept.
  unfold marked_count in Hkept. cbv zeta in Hkept.
  unfold limited, len in *.
  destruct (bool_decide (ManagedFile.maxFiles m > 0)) eqn:Hcap;
    [apply bool_decide_eq_true in Hcap|]; lia.
Qed.

Lemma survivors_newest (m : ManagedFile.ManagedFileStorage) (now : Time)
    (entries : list DirEntry) (kept gone : DirEntry) :
  NoDup (Name <$> entries) →
  kept ∈ snapshot_files (survivors m now entries) →
  gone ∈ snapshot_files entries → gone ∉ survivors m now entries →
  effective_timestamp gone ≤ effective_timestamp kept.
Proof.
  intros Hnames Hkept Hgone Hnot.
  pose proof (sorted_files_NoDup m entries Hnames) as Hnd.
  pose proof (sorted_files_perm m entries) as Hperm.
  pose proof (sorted_files_ascending m entries) as Hsorted.
  pose proof (survivors_files m now entries Hnames) as Hfiles.
  set (base := ManagedFile.baseDir m) in *.
  set (files := ManagedFile.sorted_files m entries) in *.
  set (k := marked_count m now files) in *.
  assert (Hk : file_of base kept ∈ drop k files).
  { rewrite <- Hfiles. apply list_elem_of_fmap. by exists kept. }
  assert (Hg : file_of base gone ∈ take k files).
  { assert (Hin : file_of base gone ∈ files).
    { rewrite Hperm. apply list_elem_of_fmap. by exists gone. }
    apply list_elem_of_filter in Hgone as [Hsnap Hgone].
    destruct (decide (filepath_Join base (Name gone)
                      ∈ ManagedFile.path <$> take k files)) as [Hmarked|Hfree].
    - apply list_elem_of_fmap in Hmarked as (f & Hpath & Hf).
      assert (f = file_of base gone) as <-; [|done].
      eapply (NoDup_fmap_inj_on ManagedFile.path files); [done| |done|done].
      eapply subseteq_take. exact Hf.
    - exfalso. apply Hnot. unfold survivors. cbv zeta. fold base files k.
      by apply list_elem_of_filter. }
  rewrite <- (take_drop k files) in Hsorted.
  apply (StronglySorted_app_1_elem_of _ _ _ _ _ Hsorted Hg Hk).
Qed.

Lemma survivors_others (m : ManagedFile.ManagedFileStorage) (now : Time)
    (entries : list DirEntry) (e : DirEntry) :
  NoDup (Name <$> entries) →
  e ∈ entries → not_snapshot_file e = true → e ∈ survivors m now entries.
Proof.
  intros Hnames He Hdirlike. apply list_elem_of_filter. split; [|done].
  intros Hin. apply list_elem_of_fmap in Hin as (f & Hpath & Hf).
  apply subseteq_take in Hf. rewrite sorted_files_perm in Hf.
  apply list_elem_of_fmap in Hf as (e' & -> & He').
  apply list_elem_of_filter in He' as [Hsnap He']. injection Hpath as Hname.
  assert (e = e') as -> by by eapply (NoDup_fmap_inj_on Name entries).
  congruence.
Qed.

Lemma survivors_NoDup (m : ManagedFile.ManagedFileStorage) (now : Time)
    (entries : list DirEntry) :
  NoDup (Name <$> entries) → NoDup (Name <$> survivors m now entries).
Proof.
  intros Hnames. eapply sublist_NoDup; [exact Hnames|apply fmap_sublist, sublist_filter].
Qed.

(** After a cycle nothing is left to mark. *)
Lemma survivors_settled (m : ManagedFile.ManagedFileStorage) (now : Time)
    (entries : list DirEntry) :
  NoDup (Name <$> entries) →
  marked_count m now (ManagedFile.sorted_files m (survivors m now entries)) = O.
Proof.
  intros Hnames.
  set (S := survivors m now entries).
  pose proof (sorted_files_perm m S) as Hperm.
  pose proof (survivors_count m now entries Hnames) as Hcount. fold S in Hcount.
  assert (Haged : expired_files m now (ManagedFile.sorted_files m S) = []).
  { unfold expired_files. case_bool_decide as Hage; [|done].
    apply filter_none. intros f Hf Hlt. rewrite Hperm in Hf.
    apply list_elem_of_fmap in Hf as (e & -> & He).
    pose proof (survivors_not_expired m now entries e Hnames Hage He) as Hle.
    simpl in Hlt. lia. }
  unfold marked_count. cbv zeta. rewrite Haged. simpl.
  case_bool_decide as Hcap; [|done].
  apply Permutation_length in Hperm. rewrite length_fmap in Hperm.
  unfold limited in Hcount. rewrite bool_decide_eq_true_2 in Hcount by done.
  unfold len in *. lia.
Qed.

End CleanupGeneral.

(** X9. One reclamation cycle of [ManagedFileStorage] in every
    configuration, over a directory with distinct entry names: only
    snapshot files go; every deleted file is at most as recent as every
    surviving snapshot file (by effective timestamp); with an age limit
    no survivor is older than the cutoff; the number of surviving
    snapshot files is the number of unexpired ones, cut down to
    [maxFiles] when a cap is set, which is what [Stats] reports
    afterwards; and with neither policy set nothing changes. *)
Theorem cleanup_retention `{GoLib} `{!GoLibSpec}
    (m : ManagedFile.ManagedFileStorage) (now : Time) (fs : FileSystem)
    (entries : list DirEntry) :
  os_ReadDir fs (ManagedFile.baseDir m) = Some entries →
  NoDup (Name <$> entries) →
  ∃ entries',
    ManagedFile.cleanup m now fs = (<[ManagedFile.baseDir m := entries']> fs, None)
    ∧ sublist entries' entries
    ∧ (∀ e, e ∈ entries → not_snapshot_file e = true → e ∈ entries')
    ∧ (∀ kept gone,
         kept ∈ snapshot_files entries' → gone ∈ snapshot_files entries → gone ∉ entries' →
         effective_timestamp gone ≤ effective_timestamp kept)
    ∧ (ManagedFile.maxAge m > 0 →
         ∀ e, e ∈ snapshot_files entries' →
              Add_neg now (ManagedFile.maxAge m) ≤ effective_timestamp e)
    ∧ len (snapshot_files entries')
      = limited (ManagedFile.maxFiles m) (len (unexpired m now entries))
    ∧ ManagedFile.Stats m (ManagedFile.cleanup m now fs).1
      = Some (limited (ManagedFile.maxFiles m) (len (unexpired m now entries)))
    ∧ (ManagedFile.maxAge m ≤ 0 → ManagedFile.maxFiles m ≤ 0 → entries' = entries).
Proof.
  intros Hdir Hnames. exists (survivors m now entries).
  pose proof (cleanup_survivors m now fs entries Hdir Hnames) as Hcleanup.
  split; [exact Hcleanup|]. split; [apply sublist_filter|].
  split; [intros e; by apply survivors_others|].
  split; [intros kept gone; by apply survivors_newest|].
  split; [intros Hage e; by apply survivors_not_expired|].
  split; [by apply survivors_count|]. split.
  - rewrite Hcleanup. unfold ManagedFile.Stats, os_ReadDir. cbn [fst].
    rewrite lookup_insert_eq. simpl. f_equal. by apply survivors_count.
  - intros Hage Hcap. unfold survivors, marked_count, expired_files. cbv zeta.
    rewrite !bool_decide_eq_false_2 by lia. simpl.
    apply filter_all. intros e _ Hin. by apply elem_of_nil in Hin.
Qed.

Lemma cleanup_retention_witness :
  ∃ entries',
    @ManagedFile.cleanup GoLibImpl.lib one_recent (time3 + 1000000000) sample_fs
    = (<["/var/lib/inspectd"%string := entries']> sample_fs, None)
    ∧ sublist entries' sample_dir
    ∧ (∀ e, e ∈ sample_dir → not_snapshot_file e = true → e ∈ entries')
    ∧ (∀ kept gone,
         kept ∈ snapshot_files entries' → gone ∈ snapshot_files sample_dir → gone ∉ entries' →
         @effective_timestamp GoLibImpl.lib gone ≤ @effective_timestamp GoLibImpl.lib kept)
    ∧ (ManagedFile.maxAge one_recent > 0 →
         ∀ e, e ∈ snapshot_files entries' →
              Add_neg (time3 + 1000000000) (ManagedFile.maxAge one_recent)
              ≤ @effective_timestamp GoLibImpl.lib e)
    ∧ len (snapshot_files entries')
      = limited 1 (len (@unexpired GoLibImpl.lib one_recent (time3 + 1000000000) sample_dir))
    ∧ ManagedFile.Stats one_recent
        (@ManagedFile.cleanup GoLibImpl.lib one_recent (time3 + 1000000000) sample_fs).1
      = Some (limited 1
                (len (@unexpired GoLibImpl.lib one_recent (time3 + 1000000000) sample_dir)))
    ∧ (ManagedFile.maxAge one_recent ≤ 0 → ManagedFile.maxFiles one_recent ≤ 0 →
       entries' = sample_dir).
Proof.
  assert (Hnames : NoDup (Name <$> sample_dir)).
  { repeat (apply NoDup_cons_2;
            [rewrite ?elem_of_cons, elem_of_nil; intros Hin; decompose [or] Hin;
             done || discriminate|]).
    apply NoDup_nil_2. }
  exact (@cleanup_retention GoLibImpl.lib GoLibImpl_spec one_recent (time3 + 1000000000)
           sample_fs sample_dir eq_refl Hnames).
Defined.

(** The cycle on the sample directory, one second after the newest
    snapshot, keeping one file of at most two seconds: the first
    snapshot file is expired, and of the other three (the undecodable
    one is dated by its modification time) the two oldest exceed the
    cap. *)
Example cleanup_retention_sample :
  @ManagedFile.cleanup GoLibImpl.lib one_recent (time3 + 1000000000) sample_fs
  = ({[ "/var/lib/inspectd"%string := [file3; readme] ]}, None).
Proof. vm_compute. reflexivity. Qed.

(** X10. A reclamation cycle is idempotent: over a directory with
    distinct entry names, a second cycle at the same reading of the
    clock deletes nothing and returns what the first returned. *)
Theorem cleanup_is_idempotent `{GoLib} `{!GoLibSpec}
    (m : ManagedFile.ManagedFileStorage) (now : Time) (fs : FileSystem) :
  (∀ entries, os_ReadDir fs (ManagedFile.baseDir m) = Some entries → NoDup (Name <$> entries)) →
  ManagedFile.cleanup m now (ManagedFile.cleanup m now fs).1 = ManagedFile.cleanup m now fs.
Proof.
  intros Hnames.
  destruct (os_ReadDir fs (ManagedFile.baseDir m)) as [entries|] eqn:Hdir.
  - specialize (Hnames entries eq_refl).
    rewrite (cleanup_survivors m now fs entries Hdir Hnames). cbn [fst].
    rewrite (cleanup_survivors m now _ (survivors m now entries));
      [|apply lookup_insert_eq|by apply survivors_NoDup].
    rewrite insert_insert_eq. do 2 f_equal.
    unfold survivors at 1. cbv zeta. rewrite survivors_settled by done.
    apply filter_all. intros e _ Hin. by apply elem_of_nil in Hin.
  - unfold ManagedFile.cleanup. rewrite Hdir. cbn [fst]. by rewrite Hdir.
Qed.

Lemma cleanup_is_idempotent_witness :
  @ManagedFile.cleanup GoLibImpl.lib one_recent (time3 + 1000000000)
    (@ManagedFile.cleanup GoLibImpl.lib one_recent (time3 + 1000000000) sample_fs).1
  = @ManagedFile.cleanup GoLibImpl.lib one_recent (time3 + 1000000000) sample_fs.
Proof.
  apply (@cleanup_is_idempotent GoLibImpl.lib GoLibImpl_spec).
  intros entries [= <-].
  repeat (apply NoDup_cons_2;
          [rewrite ?elem_of_cons, elem_of_nil; intros Hin; decompose [or] Hin;
           done || discriminate|]).
  apply NoDup_nil_2.
Defined.

(** ** DatabaseStorage: single inserts, batches and queries *)

Section DatabaseFacts.
Context `{GoLib}.

Lemma Store_row (d : Database.DatabaseStorage) (F : Database.Faults) (db : Database.DB)
    (s : Snapshot) :
  Database.Store d F db s
  = match ParseTimestamp s with
    | None => (db, Some "invalid timestamp"%string)
    | Some _ =>
        match row_of s with
        | None => (db, Some "failed to marshal snapshot"%string)
        | Some row =>
            let db' := Database.handed (Database.insert_query (Database.driver d)) db in
            if Database.exec_error F [] row
            then (db', Some "failed to insert snapshot"%string)
            else ({| Database.rows := Database.rows db' ++ [row];
                     Database.executed := Database.executed db' |}, None)
        end
    end.
Proof.
  unfold Database.Store, row_of.
  destruct (ParseTimestamp s) as [t|]; [|done]. simpl.
  by destruct (ToJSON s).
Qed.




End DatabaseFacts.

(** X11. [DatabaseStorage.Store] and a one-snapshot [StoreBatch] differ
    only on a snapshot that cannot be stored.  When the transaction
    itself does not fail, a snapshot whose timestamp parses and that
    serialises gets the same outcome from both (the same row, or the
    same error and no row); one that does not is refused by [Store] with
    an error, the database untouched, and silently skipped by
    [StoreBatch], which reports success. *)
Theorem Store_and_single_batch `{GoLib} (d : Database.DatabaseStorage) (F : Database.Faults)
    (db : Database.DB) (s : Snapshot) :
  Database.begin_error F = false → Database.prepare_error F = false →
  Database.commit_error F = false →
  (is_Some (row_of s) → Database.Store d F db s = Database.StoreBatch d F db [s])
  ∧ (row_of s = None →
       (∃ err, Database.Store d F db s = (db, Some err))
       ∧ Database.StoreBatch d F db [s]
         = (Database.handed (Database.insert_query (Database.driver d)) db, None)).
Proof.
  intros Hbegin Hprepare Hcommit.
  unfold Database.StoreBatch, Database.tx_Commit, Database.tx_Rollback.
  rewrite Hbegin, Hprepare, Hcommit, batch_loop_step, Store_row. simpl. split.
  - intros [row Hrow]. rewrite Hrow.
    assert (Hts : is_Some (ParseTimestamp s)).
    { unfold row_of in Hrow. destruct (ParseTimestamp s); [by eexists|done]. }
    destruct Hts as [t ->]. cbv zeta.
    by destruct (Database.exec_error F [] row).
  - intros Hrow. rewrite Hrow. split.
    + destruct (ParseTimestamp s); by eexists.
    + rewrite app_nil_r. by destruct db.
Qed.

Lemma Store_and_single_batch_witness :
  (is_Some (@row_of GoLibImpl.lib t1) →
     @Database.Store GoLibImpl.lib sqlite_storage no_faults empty_db t1
     = @Database.StoreBatch GoLibImpl.lib sqlite_storage no_faults empty_db [t1])
  ∧ (@row_of GoLibImpl.lib unparseable = None →
       (∃ err, @Database.Store GoLibImpl.lib sqlite_storage no_faults empty_db unparseable
               = (empty_db, Some err))
       ∧ @Database.StoreBatch GoLibImpl.lib sqlite_storage no_faults empty_db [unparseable]
         = (Database.handed (Database.insert_query (Database.driver sqlite_storage)) empty_db,
            None)).
Proof.
  split.
  - apply (@Store_and_single_batch GoLibImpl.lib sqlite_storage no_faults empty_db t1);
      reflexivity.
  - apply (@Store_and_single_batch GoLibImpl.lib sqlite_storage no_faults empty_db
             unparseable); reflexivity.
Defined.



(** On the sample batch the query decodes the two snapshots that could be
    stored, in batch order. *)
Example StoreBatch_then_Query_sample :
  (@Database.Query GoLibImpl.lib sqlite_storage every_row
     (@Database.StoreBatch GoLibImpl.lib sqlite_storage no_faults empty_db
        [t2; unparseable; t1]).1 None).2
  = inr ([t2; t1], None).
Proof. vm_compute. reflexivity. Qed.

(** ** CloudObjectStorage: the cleanup pass, repeated *)

(** X13. An object-store cleanup pass is idempotent: a second pass at
    the same reading of the clock, against the same remote faults,
    deletes nothing more and returns what the first returned. *)
Theorem cloud_cleanup_is_idempotent `{GoLib} (c : CloudObject.CloudObjectStorage)
    (F : CloudObject.Faults) (now : Time) (bucket : gmap string bytes) :
  CloudObject.cleanup c F now (CloudObject.cleanup c F now bucket).1
  = CloudObject.cleanup c F now bucket.
Proof.
  unfold CloudObject.cleanup.
  destruct (bool_decide (CloudObject.maxAge c = 0)) eqn:Hage; [done|].
  unfold CloudObject.ListObjects.
  destruct (CloudObject.list_error F) eqn:Hlist; simpl; [done|].
  set (cutoff := Add_neg now (CloudObject.maxAge c)).
  set (keys := filter (λ key, String.prefix (CloudObject.prefix c) key = true)
                 (elements (dom bucket))).
  set (bucket' := CloudObject.cleanup_loop F cutoff keys bucket).
  assert (Hnd : ∀ b : gmap string bytes,
            NoDup (filter (λ key, String.prefix (CloudObject.prefix c) key = true)
                     (elements (dom b)))).
  { intros b. apply NoDup_filter, NoDup_elements. }
  assert (Hfirst : ∀ key, bucket' !! key
            = if bool_decide (key ∈ keys
                              ∧ CloudObject.shouldDeleteObject F bucket key cutoff = Some true
                              ∧ CloudObject.delete_error F key = false)
              then None else bucket !! key).
  { intros key. unfold bucket'.
    by rewrite (cleanup_loop_lookup F cutoff bucket keys bucket (Hnd bucket)). }
  f_equal. apply map_eq. intros key.
  rewrite (cleanup_loop_lookup F cutoff bucket' _ bucket' (Hnd bucket')) by done.
  destruct (bool_decide (_ ∧ CloudObject.shouldDeleteObject F bucket' key cutoff = Some true ∧ _))
    eqn:Hagain; [|done].
  apply bool_decide_eq_true in Hagain as (Hin & Hdel & Herr).
  apply list_elem_of_filter in Hin as [Hprefix Hin].
  apply elem_of_elements, elem_of_dom in Hin as [data Hdata].
  pose proof (Hfirst key) as Hkey. rewrite Hdata in Hkey.
  destruct (bool_decide (key ∈ keys
                         ∧ CloudObject.shouldDeleteObject F bucket key cutoff = Some true
                         ∧ CloudObject.delete_error F key = false)) eqn:Hwas; [done|].
  apply bool_decide_eq_false in Hwas. exfalso. apply Hwas.
  split; [|split; [|done]].
  - apply list_elem_of_filter. split; [done|].
    apply elem_of_elements, elem_of_dom. by rewrite <- Hkey.
  - rewrite <- Hdel. apply shouldDeleteObject_local. by rewrite Hdata.
Qed.

(** ** Writing snapshots *)

(** The runnable formatter on the samples: the first sample in both
    spellings gets the name of the first sample file, and a leap day is
    printed as the date the parser reads it from. *)
Example format_sample :
  @FileStore.filename_of GoTimeImpl.lib t1 time1 = Name file1
  ∧ @FileStore.filename_of GoTimeImpl.lib t1_millis time1 = Name file1
  ∧ GoTimeImpl.format (time3 + 123456789) 0 = "2024-01-01T00-00-03.123456789Z"%string
  ∧ GoTimeImpl.format 951827696000000007 0 = "2000-02-29T12-34-56.000000007Z"%string
  ∧ @ParseTimestamp GoLibImpl.lib (snap "2000-02-29T12:34:56.000000007Z")
    = Some 951827696000000007.
Proof. vm_compute. repeat split; reflexivity. Qed.

Lemma list_ascii_app (a b : string) :
  String.list_ascii_of_string (a +:+ b)
  = String.list_ascii_of_string a ++ String.list_ascii_of_string b.
Proof.
  induction a as [|c a IH]; [done|].
  change (String c a +:+ b) with (String c (a +:+ b)). simpl. by rewrite IH.
Qed.

Lemma filepath_Ext_json (stem : string) : filepath_Ext (stem +:+ ".json") = ".json"%string.
Proof.
  unfold filepath_Ext. rewrite list_ascii_app, rev_app_distr. reflexivity.
Qed.

Lemma written_is_snapshot_file (stem : string) (now : Time) (data : bytes) :
  not_snapshot_file (written (stem +:+ ".json") now data) = false.
Proof.
  unfold not_snapshot_file, written. simpl. rewrite filepath_Ext_json.
  by rewrite bool_decide_eq_true_2.
Qed.

Lemma prefix_app (p x : string) : String.prefix p (p +:+ x) = true.
Proof.
  induction p as [|c p IH]; [change (EmptyString +:+ x) with x; by destruct x|].
  change (String c p +:+ x) with (String c (p +:+ x)). simpl.
  by destruct (Ascii.ascii_dec c c).
Qed.

Lemma insert_by_name_perm (x : DirEntry) (entries : list DirEntry) :
  insert_by_name x entries ≡ₚ x :: entries.
Proof.
  induction entries as [|e entries IH]; [done|]. simpl.
  destruct (String.ltb (Name x) (Name e)); [done|].
  rewrite IH. apply Permutation_swap.
Qed.

Lemma filter_insert_by_name (x : DirEntry) (entries : list DirEntry) :
  filter (λ e, Name e ≠ Name x) (insert_by_name x entries)
  = filter (λ e, Name e ≠ Name x) entries.
Proof.
  induction entries as [|e entries IH]; simpl.
  - by rewrite filter_cons_False by (intros Hne; by apply Hne).
  - destruct (String.ltb (Name x) (Name e)).
    + by rewrite (filter_cons_False _ x) by (intros Hne; by apply Hne).
    + rewrite !(filter_cons _ e), IH. done.
Qed.

Lemma no_directory_named (name : string) (entries : list DirEntry) :
  existsb (λ e, String.eqb (Name e) name && IsDir e) entries = false
  ↔ ∀ e, e ∈ entries → Name e = name → IsDir e = false.
Proof.
  induction entries as [|e entries IH]; simpl.
  - split; [by intros _ e ?%elem_of_nil|done].
  - rewrite orb_false_iff, IH. split.
    + intros [He Hrest] e' [->|Hin]%elem_of_cons Hname.
      * apply String.eqb_eq in Hname. rewrite Hname in He. done.
      * by apply Hrest.
    + intros Hall. split.
      * destruct (String.eqb (Name e) name) eqn:Hname; [|done].
        apply String.eqb_eq in Hname. simpl. apply Hall; [by left|done].
      * intros e' Hin. apply Hall. by right.
Qed.

Section WritingFacts.
Context `{GoLib} `{GoTime}.

(** A [Store] that goes through replaces whatever had the snapshot's
    file name by the new file. *)
Lemma FileStore_Store_ok (f : File.FileStorage) (refused : Path → bool) (now : Time)
    (fs : FileSystem) (entries : list DirEntry) (s : Snapshot) (t : Time) (data : bytes) :
  os_ReadDir fs (File.baseDir f) = Some entries →
  ParseTimestamp s = Some t → json_MarshalIndent s = Some data →
  refused (filepath_Join (File.baseDir f) (FileStore.filename_of s t)) = false →
  (∀ e, e ∈ entries → Name e = FileStore.filename_of s t → IsDir e = false) →
  FileStore.Store f refused now fs s
  = (<[File.baseDir f :=
         insert_by_name (written (FileStore.filename_of s t) now data)
           (filter (λ e, Name e ≠ FileStore.filename_of s t) entries)]> fs, None).
Proof.
  intros Hdir Hparse Hdata Hfree Hnodir.
  unfold FileStore.Store, os_WriteFile. rewrite Hparse, Hdata. cbv zeta.
  rewrite Hfree. unfold filepath_Join. simpl. unfold os_ReadDir in Hdir. rewrite Hdir.
  by rewrite (proj2 (no_directory_named _ _) Hnodir).
Qed.

(** A [Store] that goes through had a snapshot that parses and
    serialises, a directory to write to and a write the system let
    pass. *)
Lemma FileStore_Store_inv (f : File.FileStorage) (refused : Path → bool) (now : Time)
    (fs fs1 : FileSystem) (s : Snapshot) :
  FileStore.Store f refused now fs s = (fs1, None) →
  ∃ t data entries,
    ParseTimestamp s = Some t ∧ json_MarshalIndent s = Some data
    ∧ os_ReadDir fs (File.baseDir f) = Some entries
    ∧ refused (filepath_Join (File.baseDir f) (FileStore.filename_of s t)) = false
    ∧ (∀ e, e ∈ entries → Name e = FileStore.filename_of s t → IsDir e = false).
Proof.
  unfold FileStore.Store, os_WriteFile, os_ReadDir.
  destruct (ParseTimestamp s) as [t|]; [|done].
  destruct (json_MarshalIndent s) as [data|]; [|done]. cbv zeta.
  destruct (refused _) eqn:Hfree; [done|]. unfold filepath_Join in *. simpl.
  destruct (fs !! File.baseDir f) as [entries|]; [|done].
  destruct (existsb _ entries) eqn:Hnodir; [done|]. intros _.
  exists t, data, entries. repeat split; try done.
  by apply no_directory_named.
Qed.

Lemma FileStore_Store_error (f : File.FileStorage) (refused : Path → bool) (now : Time)
    (fs fs1 : FileSystem) (s : Snapshot) (err : string) :
  FileStore.Store f refused now fs s = (fs1, Some err) → fs1 = fs.
Proof.
  unfold FileStore.Store.
  destruct (ParseTimestamp s); [|by intros [= <-]].
  destruct (json_MarshalIndent s); [|by intros [= <-]]. cbv zeta.
  destruct (os_WriteFile _ _ _ _ _); [done|by intros [= <-]].
Qed.

Lemma FileStore_StoreBatch_app (f : File.FileStorage) (refused : Path → bool) (now : Time)
    (xs ys : list Snapshot) :
  ∀ fs, FileStore.StoreBatch f refused now fs (xs ++ ys)
        = match FileStore.StoreBatch f refused now fs xs with
          | (fs1, Some err) => (fs1, Some err)
          | (fs1, None) => FileStore.StoreBatch f refused now fs1 ys
          end.
Proof.
  induction xs as [|x xs IH]; intros fs; [done|]. simpl.
  destruct (FileStore.Store f refused now fs x) as [fs1 [err|]]; [done|apply IH].
Qed.

Lemma CloudObjectStore_Store_error (c : CloudObject.CloudObjectStorage)
    (put_error : string → bool) (bucket bucket1 : gmap string bytes) (s : Snapshot)
    (err : string) :
  CloudObjectStore.Store c put_error bucket s = (bucket1, Some err) → bucket1 = bucket.
Proof.
  unfold CloudObjectStore.Store.
  destruct (ParseTimestamp s); [|by intros [= <-]].
  destruct (ToJSON s); [|by intros [= <-]]. cbv zeta.
  destruct (CloudObjectStore.PutObject _ _ _ _); [done|by intros [= <-]].
Qed.

Lemma CloudObjectStore_StoreBatch_app (c : CloudObject.CloudObjectStorage)
    (put_error : string → bool) (xs ys : list Snapshot) :
  ∀ bucket, CloudObjectStore.StoreBatch c put_error bucket (xs ++ ys)
            = match CloudObjectStore.StoreBatch c put_error bucket xs with
              | (bucket1, Some err) => (bucket1, Some err)
              | (bucket1, None) => CloudObjectStore.StoreBatch c put_error bucket1 ys
              end.
Proof.
  induction xs as [|x xs IH]; intros bucket; [done|]. simpl.
  destruct (CloudObjectStore.Store c put_error bucket x) as [bucket1 [err|]]; [done|apply IH].
Qed.

End WritingFacts.

Section ReadBack.
Context `{GoLib} `{!GoLibSpec} `{GoTime}.

Lemma dir_snapshots_written (stem : string) (now : Time) (data : bytes) (s : Snapshot)
    (entries : list DirEntry) :
  FromJSON data = Some s →
  dir_snapshots (written (stem +:+ ".json") now data :: entries) = s :: dir_snapshots entries.
Proof.
  intros Hback. unfold dir_snapshots. simpl.
  rewrite written_is_snapshot_file. simpl. by rewrite Hback.
Qed.

Lemma parseable_cons (s : Snapshot) (stored : list Snapshot) :
  is_Some (ParseTimestamp s) → parseable (s :: stored) = s :: parseable stored.
Proof. intros Hs. unfold parseable. by rewrite filter_cons_True. Qed.

(** An unfiltered query of a listing: the parseable snapshots, oldest
    first. *)
Lemma File_Query_all (f : File.FileStorage) (fs : FileSystem) (entries : list DirEntry) :
  os_ReadDir fs (File.baseDir f) = Some entries →
  ∃ r, File.Query f fs None = Some (inr r)
     ∧ r ≡ₚ parseable (dir_snapshots entries) ∧ ascending r.
Proof.
  intros Hdir. rewrite (File_Query_closed_form _ _ _ _ Hdir). cbv zeta.
  change (default zeroQueryOptions None) with zeroQueryOptions.
  destruct (zero_core (dir_snapshots entries)) as (r & Hr & Hperm & Hasc).
  rewrite Hr. by exists r.
Qed.

Lemma CloudObject_Query_all (c : CloudObject.CloudObjectStorage) (F : CloudObject.Faults)
    (bucket : gmap string bytes) (keys : list string) :
  CloudObject.ListObjects F bucket (CloudObject.prefix c) = Some keys →
  ∃ r, CloudObject.Query c F bucket None = Some (inr r)
     ∧ r ≡ₚ parseable (bucket_snapshots F bucket keys) ∧ ascending r.
Proof.
  intros Hkeys. rewrite (CloudObject_Query_closed_form _ _ _ _ _ Hkeys). cbv zeta.
  change (default zeroQueryOptions None) with zeroQueryOptions.
  destruct (zero_core (bucket_snapshots F bucket keys)) as (r & Hr & Hperm & Hasc).
  rewrite Hr. by exists r.
Qed.

End ReadBack.

(** X14. What [FileStorage.Store] writes is what [Query] reads back.
    When the snapshot's timestamp parses, JSON decoding inverts its
    encoding, the directory exists and the system lets the write pass,
    [Store] succeeds, touches no other directory, and leaves in the
    directory the new file in place of whatever had its name, all other
    entries kept; an unfiltered query then returns the snapshot together
    with the parseable snapshots of those other entries, oldest first. *)
Theorem FileStorage_Store_then_Query `{GoLib} `{!GoLibSpec} `{GoTime}
    (f : File.FileStorage) (refused : Path → bool) (now : Time) (fs : FileSystem)
    (entries : list DirEntry) (s : Snapshot) (t : Time) (data : bytes) :
  os_ReadDir fs (File.baseDir f) = Some entries →
  ParseTimestamp s = Some t → json_MarshalIndent s = Some data → FromJSON data = Some s →
  refused (filepath_Join (File.baseDir f) (FileStore.filename_of s t)) = false →
  (∀ e, e ∈ entries → Name e = FileStore.filename_of s t → IsDir e = false) →
  ∃ fs' entries' r,
    FileStore.Store f refused now fs s = (fs', None)
    ∧ (∀ dir, dir ≠ File.baseDir f → fs' !! dir = fs !! dir)
    ∧ os_ReadDir fs' (File.baseDir f) = Some entries'
    ∧ entries' ≡ₚ written (FileStore.filename_of s t) now data
                   :: filter (λ e, Name e ≠ FileStore.filename_of s t) entries
    ∧ File.Query f fs' None = Some (inr r)
    ∧ r ≡ₚ s :: parseable (dir_snapshots
                             (filter (λ e, Name e ≠ FileStore.filename_of s t) entries))
    ∧ ascending r.
Proof.
  intros Hdir Hparse Hdata Hback Hfree Hnodir.
  rewrite (FileStore_Store_ok f refused now fs entries s t data) by done.
  set (others := filter (λ e, Name e ≠ FileStore.filename_of s t) entries).
  set (entries' := insert_by_name (written (FileStore.filename_of s t) now data) others).
  assert (Hdir' : os_ReadDir (<[File.baseDir f := entries']> fs) (File.baseDir f)
                  = Some entries') by apply lookup_insert_eq.
  destruct (File_Query_all f _ entries' Hdir') as (r & Hq & Hperm & Hasc).
  exists (<[File.baseDir f := entries']> fs), entries', r.
  split; [done|]. split; [by intros dir Hne; apply lookup_insert_ne|].
  split; [done|]. split; [apply insert_by_name_perm|]. split; [done|]. split; [|done].
  rewrite Hperm. unfold entries', parseable, dir_snapshots.
  rewrite insert_by_name_perm.
  fold (dir_snapshots (written (FileStore.filename_of s t) now data :: others)).
  unfold FileStore.filename_of at 1. rewrite (dir_snapshots_written _ _ _ s) by done.
  by rewrite filter_cons_True by by eexists.
Qed.

Lemma FileStorage_Store_then_Query_witness :
  ∃ fs' entries' r,
    @FileStore.Store GoLibImpl.lib GoTimeImpl.lib sample_storage no_refusal (time4 + 5)
      sample_fs t4 = (fs', None)
    ∧ (∀ dir, dir ≠ File.baseDir sample_storage → fs' !! dir = sample_fs !! dir)
    ∧ os_ReadDir fs' (File.baseDir sample_storage) = Some entries'
    ∧ entries' ≡ₚ written (@FileStore.filename_of GoTimeImpl.lib t4 time4) (time4 + 5)
                     (default [] (GoLibImpl.marshalIndent t4))
                   :: filter (λ e, Name e ≠ @FileStore.filename_of GoTimeImpl.lib t4 time4)
                        sample_dir
    ∧ @File.Query GoLibImpl.lib sample_storage fs' None = Some (inr r)
    ∧ r ≡ₚ t4 :: @parseable GoLibImpl.lib
                   (@dir_snapshots GoLibImpl.lib
                      (filter (λ e, Name e ≠ @FileStore.filename_of GoTimeImpl.lib t4 time4)
                         sample_dir))
    ∧ @ascending GoLibImpl.lib r.
Proof.
  apply (@FileStorage_Store_then_Query GoLibImpl.lib GoLibImpl_spec GoTimeImpl.lib
           sample_storage no_refusal (time4 + 5) sample_fs sample_dir t4 time4
           (default [] (GoLibImpl.marshalIndent t4))); try reflexivity.
  intros e He Hname.
  repeat (apply elem_of_cons in He as [-> |He]); try reflexivity.
  by apply elem_of_nil in He.
Defined.

(** On the sample directory the new file takes its place by name in the
    listing, and the query returns the four snapshots oldest first. *)
Example FileStorage_Store_then_Query_sample :
  fmap (M:=list) Name <$>
    os_ReadDir
      (@FileStore.Store GoLibImpl.lib GoTimeImpl.lib sample_storage no_refusal (time4 + 5)
         sample_fs t4).1 "/var/lib/inspectd"
  = Some ["2024-01-01T00-00-01.000000000Z.json"; "2024-01-01T00-00-02.000000000Z.json";
          "2024-01-01T00-00-03.000000000Z.json"; "2024-01-01T00-00-04.000000000Z.json";
          "README"; "broken.json"]%string
  ∧ @File.Query GoLibImpl.lib sample_storage
      (@FileStore.Store GoLibImpl.lib GoTimeImpl.lib sample_storage no_refusal (time4 + 5)
         sample_fs t4).1 None
    = Some (inr [t1; t2; t3; t4]).
Proof. vm_compute. split; reflexivity. Qed.

(** X15. [FileStorage] keeps one file per file name: when a [Store]
    went through and a second snapshot that serialises gets the same
    file name (its timestamp is formatted to the same text), storing it
    next succeeds and leaves exactly the file system that storing it
    alone would have left; the first snapshot is gone. *)
Theorem FileStorage_Store_overwrites `{GoLib} `{GoTime}
    (f : File.FileStorage) (refused : Path → bool) (now1 now2 : Time) (fs fs1 : FileSystem)
    (s1 s2 : Snapshot) (ta tb : Time) :
  ParseTimestamp s1 = Some ta → ParseTimestamp s2 = Some tb →
  FileStore.filename_of s1 ta = FileStore.filename_of s2 tb →
  FileStore.Store f refused now1 fs s1 = (fs1, None) →
  is_Some (json_MarshalIndent s2) →
  FileStore.Store f refused now2 fs1 s2 = FileStore.Store f refused now2 fs s2
  ∧ (FileStore.Store f refused now2 fs s2).2 = None.
Proof.
  intros Hpa Hpb Hname Hfirst [data2 Hdata2].
  destruct (FileStore_Store_inv f refused now1 fs fs1 s1 Hfirst)
    as (t & data1 & entries & Hpa' & Hdata1 & Hdir & Hfree & Hnodir).
  assert (t = ta) as -> by congruence.
  rewrite (FileStore_Store_ok f refused now1 fs entries s1 ta data1) in Hfirst by done.
  injection Hfirst as <-.
  set (name := FileStore.filename_of s1 ta) in *.
  set (others := filter (λ e, Name e ≠ name) entries).
  rewrite (FileStore_Store_ok f refused now2 fs entries s2 tb data2);
    [|done|done|done|by rewrite <- Hname|by rewrite <- Hname].
  split; [|done].
  rewrite (FileStore_Store_ok f refused now2 _
             (insert_by_name (written name now1 data1) others) s2 tb data2);
    [|apply lookup_insert_eq|done|done|by rewrite <- Hname|].
  - rewrite insert_insert_eq. rewrite <- Hname. fold name. do 3 f_equal.
    pose proof (filter_insert_by_name (written name now1 data1) others) as Hsame.
    change (Name (written name now1 data1)) with name in Hsame. rewrite Hsame.
    unfold others. rewrite list_filter_filter. apply list_filter_iff. intros e. tauto.
  - rewrite <- Hname. fold name. intros e He Hn.
    rewrite insert_by_name_perm in He. apply elem_of_cons in He as [->|He]; [done|].
    apply list_elem_of_filter in He as [Hne _]. done.
Qed.

Lemma FileStorage_Store_overwrites_witness :
  @FileStore.Store GoLibImpl.lib GoTimeImpl.lib sample_storage no_refusal (time4 + 9)
    (@FileStore.Store GoLibImpl.lib GoTimeImpl.lib sample_storage no_refusal (time4 + 5)
       sample_fs t4).1
    (snap "2024-01-01T00:00:04.000Z")
  = @FileStore.Store GoLibImpl.lib GoTimeImpl.lib sample_storage no_refusal (time4 + 9)
      sample_fs (snap "2024-01-01T00:00:04.000Z")
  ∧ (@FileStore.Store GoLibImpl.lib GoTimeImpl.lib sample_storage no_refusal (time4 + 9)
       sample_fs (snap "2024-01-01T00:00:04.000Z")).2 = None.
Proof.
  apply (@FileStorage_Store_overwrites GoLibImpl.lib GoTimeImpl.lib sample_storage no_refusal
           (time4 + 5) (time4 + 9) sample_fs _ t4 (snap "2024-01-01T00:00:04.000Z")
           time4 time4);
    [reflexivity|reflexivity|vm_compute; reflexivity|vm_compute; reflexivity|by eexists].
Defined.

(** X16. [FileStorage.StoreBatch] is not atomic: it stops at the first
    snapshot whose [Store] fails and returns that error; the snapshots
    before it stay written, and those after it are never written. *)
Theorem FileStorage_StoreBatch_stops `{GoLib} `{GoTime}
    (f : File.FileStorage) (refused : Path → bool) (now : Time) (fs fs1 : FileSystem)
    (good rest : list Snapshot) (bad : Snapshot) (err : string) :
  FileStore.StoreBatch f refused now fs good = (fs1, None) →
  (FileStore.Store f refused now fs1 bad).2 = Some err →
  FileStore.StoreBatch f refused now fs (good ++ bad :: rest) = (fs1, Some err).
Proof.
  intros Hgood Hbad. rewrite FileStore_StoreBatch_app, Hgood. simpl.
  destruct (FileStore.Store f refused now fs1 bad) as [fs2 [e|]] eqn:Hstore; [|done].
  simpl in Hbad. injection Hbad as ->.
  by rewrite (FileStore_Store_error _ _ _ _ _ _ _ Hstore).
Qed.

Lemma FileStorage_StoreBatch_stops_witness :
  @FileStore.StoreBatch GoLibImpl.lib GoTimeImpl.lib sample_storage no_refusal (time4 + 5)
    sample_fs ([t4] ++ unparseable :: [snap "2024-01-01T00:00:05Z"])
  = ((@FileStore.Store GoLibImpl.lib GoTimeImpl.lib sample_storage no_refusal (time4 + 5)
        sample_fs t4).1,
     Some "invalid timestamp"%string).
Proof.
  apply (@FileStorage_StoreBatch_stops GoLibImpl.lib GoTimeImpl.lib sample_storage no_refusal
           (time4 + 5) sample_fs); [vm_compute; reflexivity|reflexivity].
Defined.

(** X17. [CloudObjectStorage.StoreBatch] is not atomic either, and does
    not continue past an error: it stops at the first snapshot whose
    [Store] fails and returns that error; the objects uploaded before it
    stay in the bucket, and the snapshots after it are never uploaded. *)
Theorem CloudObjectStorage_StoreBatch_stops `{GoLib} `{GoTime}
    (c : CloudObject.CloudObjectStorage) (put_error : string → bool)
    (bucket bucket1 : gmap string bytes) (good rest : list Snapshot) (bad : Snapshot)
    (err : string) :
  CloudObjectStore.StoreBatch c put_error bucket good = (bucket1, None) →
  (CloudObjectStore.Store c put_error bucket1 bad).2 = Some err →
  CloudObjectStore.StoreBatch c put_error bucket (good ++ bad :: rest) = (bucket1, Some err).
Proof.
  intros Hgood Hbad. rewrite CloudObjectStore_StoreBatch_app, Hgood. simpl.
  destruct (CloudObjectStore.Store c put_error bucket1 bad) as [bucket2 [e|]] eqn:Hstore;
    [|done].
  simpl in Hbad. injection Hbad as ->.
  by rewrite (CloudObjectStore_Store_error _ _ _ _ _ _ Hstore).
Qed.

Lemma CloudObjectStorage_StoreBatch_stops_witness :
  @CloudObjectStore.StoreBatch GoLibImpl.lib GoTimeImpl.lib one_second
    (λ key, bool_decide (key = "snapshots/2024-01-01T00-00-02.000000000Z.json"%string))
    ∅ ([t1] ++ t2 :: [t3])
  = ({[ "snapshots/2024-01-01T00-00-01.000000000Z.json"%string
        := default [] (GoLibImpl.marshal t1) ]},
     Some "failed to upload snapshot"%string).
Proof.
  apply (@CloudObjectStorage_StoreBatch_stops GoLibImpl.lib GoTimeImpl.lib one_second);
    vm_compute; reflexivity.
Defined.

(** X18. What [CloudObjectStorage.Store] uploads is what [Query] reads
    back.  When the snapshot's timestamp parses, JSON decoding inverts
    its encoding and the remote side refuses neither the upload nor the
    listing nor the download of the new key, [Store] succeeds, puts the
    encoding under the key made of the prefix and the formatted
    timestamp (replacing what was there, no other key touched), and an
    unfiltered query then returns the snapshot. *)
Theorem CloudObjectStorage_Store_then_Query `{GoLib} `{!GoLibSpec} `{GoTime}
    (c : CloudObject.CloudObjectStorage) (put_error : string → bool) (F : CloudObject.Faults)
    (bucket : gmap string bytes) (s : Snapshot) (t : Time) (data : bytes) :
  ParseTimestamp s = Some t → ToJSON s = Some data → FromJSON data = Some s →
  put_error (CloudObjectStore.key_of c s t) = false →
  CloudObject.list_error F = false →
  CloudObject.get_error F (CloudObjectStore.key_of c s t) = false →
  ∃ r, CloudObjectStore.Store c put_error bucket s
       = (<[CloudObjectStore.key_of c s t := data]> bucket, None)
     ∧ CloudObject.Query c F (<[CloudObjectStore.key_of c s t := data]> bucket) None
       = Some (inr r)
     ∧ s ∈ r ∧ ascending r.
Proof.
  intros Hparse Hdata Hback Hput Hlist Hget.
  set (key := CloudObjectStore.key_of c s t) in *.
  set (bucket' := <[key := data]> bucket).
  assert (Hkeys : CloudObject.ListObjects F bucket' (CloudObject.prefix c)
                  = Some (filter (λ k, String.prefix (CloudObject.prefix c) k = true)
                            (elements (dom bucket')))).
  { unfold CloudObject.ListObjects. by rewrite Hlist. }
  destruct (CloudObject_Query_all c F bucket' _ Hkeys) as (r & Hq & Hperm & Hasc).
  exists r. split; [|split; [done|split; [|done]]].
  - unfold CloudObjectStore.Store, CloudObjectStore.PutObject.
    rewrite Hparse, Hdata. cbv zeta. fold key. by rewrite Hput.
  - rewrite Hperm. apply list_elem_of_filter. split; [by eexists|].
    apply list_elem_of_omap. exists key. split.
    + apply list_elem_of_filter. split; [apply prefix_app|].
      apply elem_of_elements, elem_of_dom. exists data. apply lookup_insert_eq.
    + unfold CloudObject.GetObject. rewrite Hget. unfold bucket'.
      rewrite lookup_insert_eq. done.
Qed.

Lemma CloudObjectStorage_Store_then_Query_witness :
  ∃ r, @CloudObjectStore.Store GoLibImpl.lib GoTimeImpl.lib one_second (λ _, false)
         sample_bucket t2
       = (<[@CloudObjectStore.key_of GoTimeImpl.lib one_second t2 time2
              := default [] (GoLibImpl.marshal t2)]> sample_bucket, None)
     ∧ @CloudObject.Query GoLibImpl.lib one_second reliable
         (<[@CloudObjectStore.key_of GoTimeImpl.lib one_second t2 time2
              := default [] (GoLibImpl.marshal t2)]> sample_bucket) None
       = Some (inr r)
     ∧ t2 ∈ r ∧ @ascending GoLibImpl.lib r.
Proof.
  apply (@CloudObjectStorage_Store_then_Query GoLibImpl.lib GoLibImpl_spec GoTimeImpl.lib
           one_second (λ _, false) reliable sample_bucket t2 time2
           (default [] (GoLibImpl.marshal t2))); reflexivity.
Defined.




(** On the sample directory: the constructor makes [archive] and, in it,
    [2024]; the listing of the base directory gains the entry [archive],
    the files stay; and a directory whose ancestors are not there, or
    whose path runs through a file, is an error. *)
Example NewFileStorage_sample :
  (match @FileStore.NewFileStorage (GoOSImpl.lib time4) "/var/lib/inspectd/archive/2024"
           sample_fs with
   | inr (_, fs') =>
       Some (fs' !! "/var/lib/inspectd/archive/2024"%string,
             fs' !! "/var/lib/inspectd/archive"%string,
             fs' !! "/var/lib/inspectd"%string)
   | inl _ => None
   end)
  = Some (Some [], Some [GoOSImpl.made "2024" time4],
          Some (insert_by_name (GoOSImpl.made "archive" time4) sample_dir))
  ∧ @FileStore.NewFileStorage (GoOSImpl.lib time4) "/srv/new" sample_fs
    = inl "failed to create base directory"%string
  ∧ @FileStore.NewFileStorage (GoOSImpl.lib time4)
      (String.append "/var/lib/inspectd/" (String.append (Name file1) "/x")) sample_fs
    = inl "failed to create base directory"%string
  ∧ @FileStore.NewFileStorage (GoOSImpl.lib time4) "/var/lib/inspectd" sample_fs
    = inr (sample_storage, sample_fs).
Proof. vm_compute. repeat split; reflexivity. Qed.

(** ** The memory backend with its pointers: what [Query] hands out *)

Section CopyFacts.
Context `{GoLib}.

(** The loop of [Query] allocates one new cell per match and leaves
    every cell that was there as it was. *)
Lemma Aliasing_query_loop_copies (opts : QueryOptions) (stored : list Aliasing.loc) :
  ∀ (h : Aliasing.Heap) (results : list Aliasing.loc),
    Forall (λ p, is_Some (Aliasing.snapshot_cells h !! p)) stored →
    ∃ h' new,
      Aliasing.query_loop opts stored h results = Some (h', results ++ new)
      ∧ Aliasing.snapshot_cells h ⊆ Aliasing.snapshot_cells h'
      ∧ Aliasing.runtime_cells h' = Aliasing.runtime_cells h
      ∧ Aliasing.memory_cells h' = Aliasing.memory_cells h
      ∧ Aliasing.goroutine_cells h' = Aliasing.goroutine_cells h
      ∧ NoDup new
      ∧ ∀ q, q ∈ new →
          Aliasing.snapshot_cells h !! q = None
          ∧ ∃ p, p ∈ stored
               ∧ Aliasing.snapshot_cells h' !! q = Aliasing.snapshot_cells h !! p.
Proof.
  induction stored as [|p stored IH]; intros h results Hvalid.
  - exists h, []. simpl. rewrite app_nil_r.
    split; [done|]. split; [done|]. split; [done|]. split; [done|]. split; [done|].
    split; [apply NoDup_nil_2|]. by intros q ?%elem_of_nil.
  - apply Forall_cons in Hvalid as [[cell Hp] Hvalid].
    assert (Hskip : ∃ h' new,
              Aliasing.query_loop opts stored h results = Some (h', results ++ new)
              ∧ Aliasing.snapshot_cells h ⊆ Aliasing.snapshot_cells h'
              ∧ Aliasing.runtime_cells h' = Aliasing.runtime_cells h
              ∧ Aliasing.memory_cells h' = Aliasing.memory_cells h
              ∧ Aliasing.goroutine_cells h' = Aliasing.goroutine_cells h
              ∧ NoDup new
              ∧ ∀ q, q ∈ new →
                  Aliasing.snapshot_cells h !! q = None
                  ∧ ∃ p', p' ∈ p :: stored
                        ∧ Aliasing.snapshot_cells h' !! q = Aliasing.snapshot_cells h !! p').
    { destruct (IH h results Hvalid) as (h' & new & Hloop & Hsub & Hr & Hm & Hg & Hnd & Hnew).
      exists h', new.
      split; [done|]. split; [done|]. split; [done|]. split; [done|]. split; [done|].
      split; [done|]. intros q Hq.
      destruct (Hnew q Hq) as (Hfresh & p' & Hp' & Hcell).
      split; [done|]. exists p'. split; [by right|done]. }
    cbn [Aliasing.query_loop]. unfold Aliasing.ParseTimestamp_at. rewrite Hp. simpl.
    destruct (time_Parse (Aliasing.cell_Timestamp cell)) as [timestamp|]; [|exact Hskip].
    destruct (before_start opts timestamp); [exact Hskip|].
    destruct (after_end opts timestamp); [exact Hskip|].
    clear Hskip.
    destruct (copy_snapshot_spec h p cell Hp)
      as (q & h1 & Hcopy & Hne & Hfresh & Hc & Hr1 & Hm1 & Hg1).
    rewrite Hcopy. simpl.
    assert (Hsub1 : Aliasing.snapshot_cells h ⊆ Aliasing.snapshot_cells h1).
    { rewrite Hc. by apply insert_subseteq. }
    assert (Hvalid1 : Forall (λ p, is_Some (Aliasing.snapshot_cells h1 !! p)) stored).
    { eapply Forall_impl; [exact Hvalid|]. intros p' [c' Hc'].
      exists c'. by eapply lookup_weaken. }
    destruct (IH h1 (results ++ [q]) Hvalid1)
      as (h' & new & Hloop & Hsub & Hr & Hm & Hg & Hnd & Hnew).
    exists h', (q :: new). rewrite Hloop, <- app_assoc. simpl.
    split; [done|]. split; [by etrans|]. split; [congruence|]. split; [congruence|].
    split; [congruence|]. split.
    + apply NoDup_cons. split; [|done]. intros Hin.
      destruct (Hnew q Hin) as [Hq _]. rewrite Hc, lookup_insert_eq in Hq. done.
    + intros q' [->|Hin]%elem_of_cons.
      * split; [done|]. exists p. split; [by left|]. rewrite Hp.
        eapply lookup_weaken; [|exact Hsub]. rewrite Hc. apply lookup_insert_eq.
      * destruct (Hnew q' Hin) as (Hq' & p' & Hp' & Hcell). split.
        -- destruct (Aliasing.snapshot_cells h !! q') as [c'|] eqn:Hold; [|done].
           rewrite (lookup_weaken _ _ _ _ Hold Hsub1) in Hq'. done.
        -- exists p'. split; [by right|]. rewrite Hcell, Hc.
           apply lookup_insert_ne. intros <-.
           apply Forall_forall with (x := q) in Hvalid; [|done].
           destruct Hvalid as [? Hq]. congruence.
Qed.

End CopyFacts.

Lemma Aliasing_read_same (h h' : Aliasing.Heap) (p q : Aliasing.loc) :
  Aliasing.snapshot_cells h' !! q = Aliasing.snapshot_cells h !! p →
  Aliasing.runtime_cells h' = Aliasing.runtime_cells h →
  Aliasing.memory_cells h' = Aliasing.memory_cells h →
  Aliasing.goroutine_cells h' = Aliasing.goroutine_cells h →
  Aliasing.read h' q = Aliasing.read h p.
Proof. intros Hc Hr Hm Hg. unfold Aliasing.read. by rewrite Hc, Hr, Hm, Hg. Qed.

(** X20. [BoundedMemoryStorage.Query] hands out pointers of its own
    making.  On a store whose pointers all lead to cells, [Query]
    succeeds; the pointers it returns are pairwise distinct, lead to
    cells that did not exist before (so none of them is a stored
    pointer), and each reads as one of the stored snapshots; every cell
    that existed reads as before; and a caller's write to the
    [Timestamp] of a returned snapshot is not seen through any stored
    pointer. *)
Theorem Query_returns_fresh_copies `{GoLib} `{!GoLibSpec} (h : Aliasing.Heap)
    (m : Aliasing.BoundedMemoryStorage) (opts : option QueryOptions) :
  Forall (λ p, is_Some (Aliasing.snapshot_cells h !! p)) (Aliasing.snapshots m) →
  ∃ h' r,
    Aliasing.Query h m opts = Some (h', r)
    ∧ NoDup r
    ∧ (∀ q, q ∈ r →
         Aliasing.snapshot_cells h !! q = None
         ∧ (q ∉ Aliasing.snapshots m)
         ∧ ∃ p, p ∈ Aliasing.snapshots m ∧ Aliasing.read h' q = Aliasing.read h p)
    ∧ (∀ p, is_Some (Aliasing.snapshot_cells h !! p) → Aliasing.read h' p = Aliasing.read h p)
    ∧ (∀ q ts, q ∈ r →
         ∃ h'', Aliasing.set_Timestamp h' q ts = Some h''
              ∧ ∀ p, p ∈ Aliasing.snapshots m → Aliasing.read h'' p = Aliasing.read h p).
Proof.
  intros Hvalid. unfold Aliasing.Query.
  set (o := match opts with Some o => o | None => zeroQueryOptions end).
  destruct (Aliasing_query_loop_copies o (Aliasing.snapshots m) h [] Hvalid)
    as (h' & new & Hloop & Hsub & Hr & Hm & Hg & Hnd & Hnew).
  rewrite Hloop. simpl.
  set (sorted := sort_Slice (Aliasing.less_at h' (OrderBy_ o)) new).
  assert (Hperm : sorted ≡ₚ new) by apply sort_Slice_perm.
  assert (Hcut : ∃ n, (if bool_decide (Limit o > 0 ∧ len sorted > Limit o)
                       then slice_to sorted (Limit o) else Some sorted)
                      = Some (take n sorted)).
  { case_bool_decide as Hlimit.
    - exists (Z.to_nat (Limit o)). apply slice_to_in_range. lia.
    - exists (length sorted). by rewrite take_ge. }
  destruct Hcut as [n ->]. simpl.
  assert (Hin : ∀ q, q ∈ take n sorted → q ∈ new).
  { intros q Hq. rewrite <- Hperm. by eapply subseteq_take. }
  assert (Hstored : ∀ p, p ∈ Aliasing.snapshots m → is_Some (Aliasing.snapshot_cells h !! p)).
  { by apply Forall_forall. }
  assert (Hold : ∀ p, is_Some (Aliasing.snapshot_cells h !! p) →
                      Aliasing.snapshot_cells h' !! p = Aliasing.snapshot_cells h !! p).
  { intros p [cell Hp]. rewrite Hp. by eapply lookup_weaken. }
  exists h', (take n sorted). split; [done|]. split; [|split; [|split]].
  - eapply sublist_NoDup; [|apply sublist_take]. by rewrite Hperm.
  - intros q Hq. destruct (Hnew q (Hin q Hq)) as (Hfresh & p & Hp & Hcell).
    split; [done|]. split.
    + intros Hq'. destruct (Hstored q Hq') as [? ?]. congruence.
    + exists p. split; [done|]. by apply Aliasing_read_same.
  - intros p Hp. apply Aliasing_read_same; [by apply Hold|done..].
  - intros q ts Hq. destruct (Hnew q (Hin q Hq)) as (Hfresh & p0 & Hp0 & Hcell).
    destruct (Hstored p0 Hp0) as [cell0 Hcell0]. rewrite Hcell0 in Hcell.
    unfold Aliasing.set_Timestamp. rewrite Hcell. simpl. eexists. split; [done|].
    intros p Hp. apply Aliasing_read_same; simpl; [|done..].
    rewrite lookup_insert_ne; [by apply Hold, Hstored|].
    intros <-. destruct (Hstored q Hp) as [? ?]. congruence.
Qed.

Lemma Query_returns_fresh_copies_witness :
  ∃ h' r,
    @Aliasing.Query GoLibImpl.lib caller_heap
      {| Aliasing.snapshots := [1%positive]; Aliasing.maxSize := 2 |} None = Some (h', r)
    ∧ NoDup r
    ∧ (∀ q, q ∈ r →
         Aliasing.snapshot_cells caller_heap !! q = None
         ∧ (q ∉ [1%positive])
         ∧ ∃ p, p ∈ [1%positive] ∧ Aliasing.read h' q = Aliasing.read caller_heap p)
    ∧ (∀ p, is_Some (Aliasing.snapshot_cells caller_heap !! p) →
            Aliasing.read h' p = Aliasing.read caller_heap p)
    ∧ (∀ q ts, q ∈ r →
         ∃ h'', Aliasing.set_Timestamp h' q ts = Some h''
              ∧ ∀ p, p ∈ [1%positive] → Aliasing.read h'' p = Aliasing.read caller_heap p).
Proof.
  apply (@Query_returns_fresh_copies GoLibImpl.lib GoLibImpl_spec caller_heap
           {| Aliasing.snapshots := [1%positive]; Aliasing.maxSize := 2 |} None).
  repeat constructor. by eexists.
Defined.

(** On the caller's heap the query makes one new cell, at the next free
    address, with the fields of the stored one. *)
Example Query_returns_fresh_copies_sample :
  match @Aliasing.Query GoLibImpl.lib caller_heap
          {| Aliasing.snapshots := [1%positive]; Aliasing.maxSize := 2 |} None with
  | Some (h', r) => Some (r, Aliasing.read h' <$> r)
  | None => None
  end
  = Some ([2%positive],
          [Some {| Timestamp := "2024-01-01T00:00:01Z"; Runtime := Some caller_runtime;
                   Memory := None; Goroutines := None |}]).
Proof. vm_compute. reflexivity. Qed.

(** ** The two readings of the memory backend *)

Lemma Aliasing_Store_keeps_reads (h h1 : Aliasing.Heap) (m m1 : Aliasing.BoundedMemoryStorage)
    (p q : Aliasing.loc) (v : Snapshot) :
  Aliasing.Store h m p = Some (h1, m1) →
  Aliasing.read h q = Some v → Aliasing.read h1 q = Some v.
Proof.
  unfold Aliasing.Store. intros HStore Hread.
  destruct (if bool_decide (len (Aliasing.snapshots m) >= Aliasing.maxSize m)
            then slice_from (Aliasing.snapshots m) 1
            else Some (Aliasing.snapshots m)) as [kept|]; [|done].
  simpl in HStore.
  destruct (Aliasing.snapshot_cells h !! p) as [cell|] eqn:Hp;
    [|by unfold Aliasing.copy_snapshot in HStore; rewrite Hp in HStore].
  destruct (copy_snapshot_spec h p cell Hp)
    as (q0 & h' & Hcopy & _ & Hfresh & Hc & Hr & Hm & Hg).
  rewrite Hcopy in HStore. simpl in HStore. injection HStore as <- <-.
  unfold Aliasing.read in *. rewrite Hc, Hr, Hm, Hg.
  destruct (decide (q = q0)) as [->|Hne]; [by rewrite Hfresh in Hread|].
  by rewrite lookup_insert_ne.
Qed.

(** X21. As long as nobody writes to the heap, the memory backend read
    through its pointers and the memory backend read as a list of
    snapshot values agree on every sequence of [Store] calls: one
    panics exactly when the other does, and otherwise the stored
    pointers lead, in order, to the snapshots the value-level store
    holds, the capacities are equal, and the caller's pointers still
    read as before. *)
Theorem Store_agrees_with_values (ps : list Aliasing.loc) :
  ∀ (h : Aliasing.Heap) (m : Aliasing.BoundedMemoryStorage) (values ss : list Snapshot),
    holds h (Aliasing.snapshots m) values →
    holds h ps ss →
    match AliasingOps.StoreAll h m ps,
          BoundedMemory.StoreAll {| BoundedMemory.snapshots := values;
                                    BoundedMemory.maxSize := Aliasing.maxSize m |} ss with
    | Some (h', m'), Some vm' =>
        holds h' (Aliasing.snapshots m') (BoundedMemory.snapshots vm')
        ∧ Aliasing.maxSize m' = BoundedMemory.maxSize vm'
        ∧ holds h' ps ss
    | None, None => True
    | _, _ => False
    end.
Proof.
  induction ps as [|p ps IH]; intros h m values ss Hholds Hps.
  - apply Forall2_nil_inv_l in Hps as ->. simpl.
    split; [done|]. split; [done|]. constructor.
  - apply Forall2_cons_inv_l in Hps as (s & ss' & Hp & Hps & ->).
    pose proof (Aliasing_Store_agrees h m p s values Hholds Hp) as Hstep.
    simpl.
    destruct (Aliasing.Store h m p) as [[h1 m1]|] eqn:HStore;
      destruct (BoundedMemory.Store _ s) as [vm1|] eqn:HvStore; try done. simpl.
    destruct Hstep as [Hholds1 Hmax1].
    assert (Hkeep : ∀ q v, Aliasing.read h q = Some v → Aliasing.read h1 q = Some v).
    { intros q v. by eapply Aliasing_Store_keeps_reads. }
    assert (Hps1 : holds h1 ps ss').
    { eapply Forall2_impl; [exact Hps|]. apply Hkeep. }
    specialize (IH h1 m1 (BoundedMemory.snapshots vm1) ss' Hholds1 Hps1).
    rewrite Hmax1 in IH.
    replace {| BoundedMemory.snapshots := BoundedMemory.snapshots vm1;
               BoundedMemory.maxSize := BoundedMemory.maxSize vm1 |} with vm1 in IH
      by by destruct vm1.
    destruct (AliasingOps.StoreAll h1 m1 ps) as [[h' m']|] eqn:Hall;
      destruct (BoundedMemory.StoreAll vm1 ss') as [vm'|]; try done.
    destruct IH as (Hh & Hm & Hrest). split; [done|]. split; [done|].
    constructor; [|done].
    assert (Hmono : ∀ (qs : list Aliasing.loc) h0 m0 h2 m2,
              AliasingOps.StoreAll h0 m0 qs = Some (h2, m2) →
              ∀ q v, Aliasing.read h0 q = Some v → Aliasing.read h2 q = Some v).
    { clear. induction qs as [|q0 qs IHq]; intros h0 m0 h2 m2 Hq q v Hv; simpl in Hq.
      - by injection Hq as <- <-.
      - destruct (Aliasing.Store h0 m0 q0) as [[h3 m3]|] eqn:HS; [|done]. simpl in Hq.
        eapply IHq; [exact Hq|]. by eapply Aliasing_Store_keeps_reads. }
    eapply Hmono; [exact Hall|]. by apply Hkeep.
Qed.

Lemma Store_agrees_with_values_witness :
  match AliasingOps.StoreAll two_cells (Aliasing.NewBoundedMemoryStorage 1)
          [1%positive; 2%positive],
        BoundedMemory.StoreAll
          {| BoundedMemory.snapshots := [];
             BoundedMemory.maxSize := Aliasing.maxSize (Aliasing.NewBoundedMemoryStorage 1) |}
          [{| Timestamp := "2024-01-01T00:00:01Z"; Runtime := Some caller_runtime;
              Memory := None; Goroutines := None |};
           {| Timestamp := "2024-01-01T00:00:02Z"; Runtime := Some caller_runtime;
              Memory := None; Goroutines := None |}] with
  | Some (h', m'), Some vm' =>
      holds h' (Aliasing.snapshots m') (BoundedMemory.snapshots vm')
      ∧ Aliasing.maxSize m' = BoundedMemory.maxSize vm'
      ∧ holds h' [1%positive; 2%positive]
          [{| Timestamp := "2024-01-01T00:00:01Z"; Runtime := Some caller_runtime;
              Memory := None; Goroutines := None |};
           {| Timestamp := "2024-01-01T00:00:02Z"; Runtime := Some caller_runtime;
              Memory := None; Goroutines := None |}]
  | None, None => True
  | _, _ => False
  end.
Proof.
  apply (Store_agrees_with_values [1%positive; 2%positive] two_cells
           (Aliasing.NewBoundedMemoryStorage 1) []).
  - constructor.
  - repeat constructor.
Defined.

(** On the heap with two cells and capacity one, both readings
    keep the second snapshot only. *)
Example Store_agrees_with_values_sample :
  match AliasingOps.StoreAll two_cells (Aliasing.NewBoundedMemoryStorage 1)
          [1%positive; 2%positive] with
  | Some (h', m') => Some (Aliasing.read h' <$> Aliasing.snapshots m')
  | None => None
  end
  = Some [Some {| Timestamp := "2024-01-01T00:00:02Z"; Runtime := Some caller_runtime;
                  Memory := None; Goroutines := None |}].
Proof. vm_compute. reflexivity. Qed.

(** ** Counting the files [Store] leaves *)

Lemma count_named (name : string) (entries : list DirEntry) :
  NoDup (Name <$> entries) →
  len (filter (λ e, Name e = name) entries)
  = if bool_decide (name ∈ Name <$> entries) then 1 else 0.
Proof.
  induction entries as [|e entries IH]; intros Hnd.
  - rewrite bool_decide_eq_false_2; [done|]. by intros ?%elem_of_nil.
  - rewrite fmap_cons in Hnd. apply NoDup_cons in Hnd as [He Hnd].
    rewrite filter_cons, fmap_cons. destruct (decide (Name e = name)) as [<-|Hne].
    + rewrite bool_decide_eq_true_2 by by left.
      specialize (IH Hnd). rewrite bool_decide_eq_false_2 in IH by done.
      unfold len in *. simpl. lia.
    + rewrite (IH Hnd). erewrite bool_decide_ext; [done|].
      rewrite elem_of_cons. split; [by right|]. intros [->|?]; done.
Qed.

(** X22. [Stats] counts what [Store] writes.  [ManagedFileStorage]
    stores through the [FileStorage] it embeds; over a directory with
    distinct entry names, after a [Store] that goes through [Stats]
    reports one snapshot file more than before when the snapshot's file
    name was free, and the same number when a file had that name. *)
Theorem Stats_counts_stored_files `{GoLib} `{GoTime}
    (m : ManagedFile.ManagedFileStorage) (f : File.FileStorage) (refused : Path → bool)
    (now : Time) (fs : FileSystem) (entries : list DirEntry) (s : Snapshot) (t : Time)
    (data : bytes) :
  ManagedFile.baseDir m = File.baseDir f →
  os_ReadDir fs (File.baseDir f) = Some entries →
  NoDup (Name <$> entries) →
  ParseTimestamp s = Some t → json_MarshalIndent s = Some data →
  refused (filepath_Join (File.baseDir f) (FileStore.filename_of s t)) = false →
  (∀ e, e ∈ entries → Name e = FileStore.filename_of s t → IsDir e = false) →
  ManagedFile.Stats m fs = Some (len (snapshot_files entries))
  ∧ ManagedFile.Stats m (FileStore.Store f refused now fs s).1
    = Some (len (snapshot_files entries)
            + (if bool_decide (FileStore.filename_of s t ∈ Name <$> entries) then 0 else 1)).
Proof.
  intros Hbase Hdir Hnames Hparse Hdata Hfree Hnodir.
  split; [unfold ManagedFile.Stats; by rewrite Hbase, Hdir|].
  rewrite (FileStore_Store_ok f refused now fs entries s t data) by done. cbn [fst].
  set (name := FileStore.filename_of s t) in *.
  set (others := filter (λ e, Name e ≠ name) entries).
  unfold ManagedFile.Stats, os_ReadDir. rewrite Hbase, lookup_insert_eq. simpl. f_equal.
  fold (snapshot_files (insert_by_name (written name now data) others)).
  assert (Hnew : len (snapshot_files (insert_by_name (written name now data) others))
                 = len (snapshot_files others) + 1).
  { unfold len, snapshot_files. rewrite insert_by_name_perm.
    rewrite filter_cons_True by apply written_is_snapshot_file. simpl. lia. }
  assert (Hold : len (snapshot_files entries)
                 = len (snapshot_files others) + len (filter (λ e, Name e = name) entries)).
  { assert (Hsplit : snapshot_files others
                     = filter (λ e, ¬ Name e = name) (snapshot_files entries)).
    { unfold others, snapshot_files. rewrite !list_filter_filter.
      apply list_filter_iff. intros e. tauto. }
    assert (Hsame : filter (λ e, Name e = name) (snapshot_files entries)
                    = filter (λ e, Name e = name) entries).
    { unfold snapshot_files. rewrite list_filter_filter. apply filter_ext_in.
      intros e He. split; [by intros [? _]|]. intros Hname. split; [done|].
      unfold not_snapshot_file. rewrite (Hnodir e He Hname), Hname. simpl.
      unfold name, FileStore.filename_of. rewrite filepath_Ext_json.
      by rewrite bool_decide_eq_true_2. }
    rewrite Hsplit, len_filter_complement, Hsame. lia. }
  rewrite Hnew, Hold, (count_named name entries Hnames).
  destruct (bool_decide (name ∈ Name <$> entries)); lia.
Qed.

Lemma Stats_counts_stored_files_witness :
  ManagedFile.Stats keep_two sample_fs = Some (len (snapshot_files sample_dir))
  ∧ ManagedFile.Stats keep_two
      (@FileStore.Store GoLibImpl.lib GoTimeImpl.lib sample_storage no_refusal (time4 + 5)
         sample_fs t1_millis).1
    = Some (len (snapshot_files sample_dir)
            + (if bool_decide (@FileStore.filename_of GoTimeImpl.lib t1_millis time1
                               ∈ Name <$> sample_dir) then 0 else 1)).
Proof.
  apply (@Stats_counts_stored_files GoLibImpl.lib GoTimeImpl.lib keep_two sample_storage
           no_refusal (time4 + 5) sample_fs sample_dir t1_millis time1
           (default [] (GoLibImpl.marshalIndent t1_millis))); try reflexivity.
  - repeat (apply NoDup_cons_2;
            [rewrite ?elem_of_cons, elem_of_nil; intros Hin; decompose [or] Hin;
             done || discriminate|]).
    apply NoDup_nil_2.
  - intros e He Hname.
    repeat (apply elem_of_cons in He as [-> |He]); try reflexivity.
    by apply elem_of_nil in He.
Defined.

(** On the sample directory the first sample's second spelling lands on the
    first sample file, and the count stays at four. *)
Example Stats_counts_stored_files_sample :
  ManagedFile.Stats keep_two
    (@FileStore.Store GoLibImpl.lib GoTimeImpl.lib sample_storage no_refusal (time4 + 5)
       sample_fs t1_millis).1 = Some 4
  ∧ ManagedFile.Stats keep_two
      (@FileStore.Store GoLibImpl.lib GoTimeImpl.lib sample_storage no_refusal (time4 + 5)
         sample_fs t4).1 = Some 5.
Proof. vm_compute. split; reflexivity. Qed.
